(** * Star: a shallow embedding of the request router

    The development follows the three source files of the package:
    [converters.py] (the converter table), [utils.py] ([render]) and
    [__init__.py] (the [Star] class: route registration, request
    dispatch, query-string parsing, response emission).

    Python values are embedded as follows.
    - [str] is [string]: the characters are the 256 8-bit ones, read
      as the code points 0 to 255, which is how [http.server] decodes
      the request line.  The character classes of [re] and the test
      of identifiers are those of Python on these characters.
    - An insertion-ordered [dict] with string keys is an association
      list ([dict]); assignment to an existing key keeps its position.
    - A computation that may raise is a [result]; the exceptions that the
      code can raise are the constructors of [exn].  Library behaviour
      that this development does not describe (a regular-expression
      construct outside the fragment of [Re], floating point) is the
      third outcome [OutOfModel]; none of the properties proved below
      rests on it.
    - The effects of a request (what is sent on the connection, the
      call of the view function, the class attribute [Request.args])
      are threaded through a state and exception monad [M]. *)

From Stdlib Require Import String Ascii List ZArith Bool Lia Arith.
Import ListNotations.

Local Open Scope list_scope.
Local Open Scope string_scope.

Set Implicit Arguments.

(** ** Exceptions and results *)

Inductive re_error_kind : Type :=
| RedefinitionOfGroupName (name : string)
| BadCharacterInGroupName (name : string)
| MissingGroupName.

Inductive exn : Type :=
| ValueError (msg : string)
| KeyError (key : string)
| IndexError (msg : string)
| re_error (kind : re_error_kind)
| OSError (filename : string)
| BaseException.

Inductive result (A : Type) : Type :=
| Ok (a : A)
| Raise (e : exn)
| OutOfModel.

Arguments Ok {A} a.
Arguments Raise {A} e.
Arguments OutOfModel {A}.

Definition rbind {A B : Type} (r : result A) (k : A -> result B) : result B :=
  match r with
  | Ok a => k a
  | Raise e => Raise e
  | OutOfModel => OutOfModel
  end.

Declare Scope result_scope.
Delimit Scope result_scope with result.
Notation "x <- c ;; k" := (rbind c (fun x => k))
  (at level 61, c at next level, right associativity) : result_scope.
Notation "' pat <- c ;; k" := (rbind c (fun x => match x with pat => k end))
  (at level 61, pat pattern, c at next level, right associativity) : result_scope.

(** [[f(x) for x in l]]: elements are evaluated left to right and the
    first exception ends the comprehension. *)
Fixpoint rmap {A B : Type} (f : A -> result B) (l : list A) : result (list B) :=
  match l with
  | [] => Ok []
  | x :: l' => (y <- f x ;; ys <- rmap f l' ;; Ok (y :: ys))%result
  end.

(** ** Python strings *)

Module PyStr.

(** [c in s] for a one-character [c]. *)
Fixpoint contains (c : ascii) (s : string) : bool :=
  match s with
  | EmptyString => false
  | String a s' => Ascii.eqb a c || contains c s'
  end.

(** [s.rstrip(c)] for a one-character [c]: every trailing [c] goes. *)
Fixpoint rstrip (c : ascii) (s : string) : string :=
  match s with
  | EmptyString => EmptyString
  | String a s' =>
      match rstrip c s' with
      | EmptyString => if Ascii.eqb a c then EmptyString else String a EmptyString
      | r => String a r
      end
  end.

(** [s.split(sep)] for a one-character [sep]; the list is never empty. *)
Fixpoint split (sep : ascii) (s : string) : list string :=
  match s with
  | EmptyString => [EmptyString]
  | String a s' =>
      if Ascii.eqb a sep then EmptyString :: split sep s'
      else match split sep s' with
           | h :: t => String a h :: t
           | [] => [String a EmptyString]
           end
  end.

(** [l[i]], raising [IndexError] out of range. *)
Definition index {A : Type} (l : list A) (i : nat) : result A :=
  match nth_error l i with
  | Some x => Ok x
  | None => Raise (IndexError "list index out of range")
  end.

(** [s[0]]: the one-character string at position 0. *)
Definition first_char (s : string) : result string :=
  match s with
  | EmptyString => Raise (IndexError "string index out of range")
  | String a _ => Ok (String a EmptyString)
  end.

Definition is_lower (a : ascii) : bool :=
  let n := nat_of_ascii a in (97 <=? n)%nat && (n <=? 122)%nat.

(** The small accented letters, whose capitals are 32 places below. *)
Definition is_latin1_lower (a : ascii) : bool :=
  let n := nat_of_ascii a in
  ((224 <=? n)%nat && (n <=? 246)%nat) || ((248 <=? n)%nat && (n <=? 254)%nat).

Definition upper_char (a : ascii) : ascii :=
  if is_lower a || is_latin1_lower a
  then ascii_of_nat (nat_of_ascii a - 32)
  else a.

(** [s.upper()], as far as the router looks at it.  Three characters
    have no 8-bit capital and are left as they are: the sharp s,
    which Python turns into [SS], the micro sign and the y with
    diaeresis, whose capitals lie above 255.  So the result equals
    [GET] or [POST] here exactly when it does in Python, and these
    two tests are all that [route] does with it. *)
Fixpoint upper (s : string) : string :=
  match s with
  | EmptyString => EmptyString
  | String a s' => String (upper_char a) (upper s')
  end.

(** [s.replace(old, new)]: occurrences are found left to right and do
    not overlap.  [skip] counts the characters of [s] that belong to
    the occurrence just replaced. *)
Fixpoint replace_from (skip : nat) (old new s : string) : string :=
  match s with
  | EmptyString => EmptyString
  | String a s' =>
      match skip with
      | S k => replace_from k old new s'
      | O =>
          if prefix old s
          then new ++ replace_from (String.length old - 1) old new s'
          else String a (replace_from 0 old new s')
      end
  end.

Fixpoint interleave (new s : string) : string :=
  match s with
  | EmptyString => EmptyString
  | String a s' => String a (new ++ interleave new s')
  end.

Definition replace (old new s : string) : string :=
  match old with
  | EmptyString => new ++ interleave new s
  | _ => replace_from 0 old new s
  end.

End PyStr.

(** ** Insertion-ordered dictionaries with string keys *)

Definition dict (V : Type) : Type := list (string * V).

(** [d[k]]. *)
Fixpoint dict_get {V : Type} (k : string) (d : dict V) : result V :=
  match d with
  | [] => Raise (KeyError k)
  | (k', v) :: d' => if String.eqb k' k then Ok v else dict_get k d'
  end.

(** [d[k] = v]: an existing key keeps its place, a new key goes last. *)
Fixpoint dict_set {V : Type} (k : string) (v : V) (d : dict V) : dict V :=
  match d with
  | [] => [(k, v)]
  | (k', v') :: d' =>
      if String.eqb k' k then (k', v) :: d' else (k', v') :: dict_set k v d'
  end.

(** Truth value of a dictionary: non-empty. *)
Definition dict_truthy {V : Type} (d : dict V) : bool :=
  match d with [] => false | _ => true end.

Definition dict_keys {V : Type} (d : dict V) : list string := map fst d.

(** ** The fragment of Python's [re] that the router relies on

    A pattern is a sequence of one-character matchers, each optionally
    followed by [+], [*] or [?], and of capturing groups [(...)] or
    [(?P<name>...)]
    whose body is a list of [|]-separated alternatives without nested
    groups.  Every other construct makes [compile] answer [OutOfModel].
    Matching is by backtracking in priority order: the repetitions
    are greedy and alternatives are tried from left to right. *)

Module Re.

Inductive cset : Type :=
| CLit (c : ascii)
| CAny
| CDigit
| CWord
| CNotIn (l : list ascii).

Definition between (lo hi : nat) (a : ascii) : bool :=
  let n := nat_of_ascii a in (lo <=? n)%nat && (n <=? hi)%nat.

Definition is_digit (a : ascii) : bool := between 48 57 a.

Definition is_alpha (a : ascii) : bool := between 65 90 a || between 97 122 a.

(** The letters above 127: the two ordinal indicators, the micro
    sign and the accented letters. *)
Definition is_latin1_letter (a : ascii) : bool :=
  let n := nat_of_ascii a in
  (n =? 170)%nat || (n =? 181)%nat || (n =? 186)%nat
  || between 192 214 a || between 216 246 a || between 248 255 a.

(** The numeric characters above 127: the superscripts 1, 2 and 3 and
    the three fractions. *)
Definition is_latin1_numeric (a : ascii) : bool :=
  let n := nat_of_ascii a in
  between 178 179 a || (n =? 185)%nat || between 188 190 a.

(** [\w]: what [str.isalnum] accepts, and the underscore. *)
Definition is_word (a : ascii) : bool :=
  is_alpha a || is_digit a || Ascii.eqb a "_"
  || is_latin1_letter a || is_latin1_numeric a.

Definition newline : ascii := ascii_of_nat 10.

Definition cset_mem (cs : cset) (a : ascii) : bool :=
  match cs with
  | CLit c => Ascii.eqb a c
  | CAny => negb (Ascii.eqb a newline)
  | CDigit => is_digit a
  | CWord => is_word a
  | CNotIn l => negb (existsb (Ascii.eqb a) l)
  end.

Inductive atom : Type :=
| One (cs : cset)
| Many1 (cs : cset)
| Many0 (cs : cset)
| Opt (cs : cset).

Inductive item : Type :=
| Atom (x : atom)
| Group (name : option string) (alts : list (list atom)).

Definition regex : Type := list item.

(** *** Parsing a pattern *)

Definition one_of (chars : string) (a : ascii) : bool :=
  existsb (Ascii.eqb a) (list_ascii_of_string chars).

Definition special (a : ascii) : bool := one_of ".^$*+?{}[]\|()" a.

Definition quantifier (a : ascii) : bool := one_of "*+?{" a.

Definition quantifier_ahead (s : string) : bool :=
  match s with
  | String a _ => quantifier a
  | EmptyString => false
  end.

(** The members of a set [[^...]], up to the closing bracket. *)
Fixpoint class_members (s : string) : result (list ascii * string) :=
  match s with
  | EmptyString => OutOfModel
  | String a s' =>
      if Ascii.eqb a "]" then Ok ([], s')
      else if one_of "\[-^" a then OutOfModel
      else ('(l, r) <- class_members s' ;; Ok (a :: l, r))%result
  end.

Definition parse_escape (s : string) : result (cset * string) :=
  match s with
  | String a r =>
      if Ascii.eqb a "d" then Ok (CDigit, r)
      else if Ascii.eqb a "w" then Ok (CWord, r)
      else if Ascii.eqb a "." then Ok (CLit ".", r)
      else OutOfModel
  | EmptyString => OutOfModel
  end.

Definition parse_set (s : string) : result (cset * string) :=
  match s with
  | String a r =>
      if Ascii.eqb a "^" then
        ('(l, r') <- class_members r ;;
         match l with
         | [] => OutOfModel
         | _ => Ok (CNotIn l, r')
         end)%result
      else OutOfModel
  | EmptyString => OutOfModel
  end.

Definition parse_cset (s : string) : result (cset * string) :=
  match s with
  | EmptyString => OutOfModel
  | String a r =>
      if Ascii.eqb a "\" then parse_escape r
      else if Ascii.eqb a "." then Ok (CAny, r)
      else if Ascii.eqb a "[" then parse_set r
      else if special a then OutOfModel
      else Ok (CLit a, r)
  end.

Definition parse_atom (s : string) : result (atom * string) :=
  ('(cs, r) <- parse_cset s ;;
   match r with
   | String a r' =>
       if Ascii.eqb a "+"
       then if quantifier_ahead r' then OutOfModel else Ok (Many1 cs, r')
       else if Ascii.eqb a "*"
       then if quantifier_ahead r' then OutOfModel else Ok (Many0 cs, r')
       else if Ascii.eqb a "?"
       then if quantifier_ahead r' then OutOfModel else Ok (Opt cs, r')
       else if quantifier a then OutOfModel else Ok (One cs, r)
   | EmptyString => Ok (One cs, r)
   end)%result.

(** One alternative of a group body: atoms up to [|] or [)]. *)
Fixpoint parse_seq (fuel : nat) (s : string) : result (list atom * string) :=
  match fuel with
  | O => OutOfModel
  | S fuel' =>
      match s with
      | EmptyString => Ok ([], s)
      | String a _ =>
          if one_of "|)" a then Ok ([], s)
          else ('(x, r) <- parse_atom s ;;
                '(xs, r') <- parse_seq fuel' r ;;
                Ok (x :: xs, r'))%result
      end
  end.

(** The body of a group, after its opening, up to and including [)]. *)
Fixpoint parse_alts (fuel : nat) (s : string)
  : result (list (list atom) * string) :=
  match fuel with
  | O => OutOfModel
  | S fuel' =>
      ('(alt, r) <- parse_seq (S (String.length s)) s ;;
       match r with
       | String a r' =>
           if Ascii.eqb a ")" then Ok ([alt], r')
           else if Ascii.eqb a "|" then
             ('(alts, r'') <- parse_alts fuel' r' ;; Ok (alt :: alts, r''))
           else OutOfModel
       | EmptyString => OutOfModel
       end)%result
  end.

(** The name of [(?P<name>...)], up to and including [>]. *)
Fixpoint group_name (s : string) : result (string * string) :=
  match s with
  | EmptyString => OutOfModel
  | String a s' =>
      if Ascii.eqb a ">" then Ok (EmptyString, s')
      else ('(n, r) <- group_name s' ;; Ok (String a n, r))%result
  end.

Fixpoint all_word (s : string) : bool :=
  match s with
  | EmptyString => true
  | String a s' => is_word a && all_word s'
  end.

(** The characters that may start an identifier, and those that may
    continue one: the digits and the middle dot come in addition. *)
Definition is_id_start (a : ascii) : bool :=
  is_alpha a || Ascii.eqb a "_" || is_latin1_letter a.

Definition is_id_continue (a : ascii) : bool :=
  is_id_start a || is_digit a || (nat_of_ascii a =? 183)%nat.

Fixpoint all_id_continue (s : string) : bool :=
  match s with
  | EmptyString => true
  | String a s' => is_id_continue a && all_id_continue s'
  end.

(** [name.isidentifier()]. *)
Definition is_identifier (name : string) : bool :=
  match name with
  | EmptyString => false
  | String a s' => is_id_start a && all_id_continue s'
  end.

(** What follows an opening parenthesis: [Some] the rest after
    [?P<] for a named group, [None] for a plain one. *)
Definition group_kind (s : string) : result (option string) :=
  match s with
  | String "?" (String "P" (String "<" r)) => Ok (Some r)
  | String "?" _ => OutOfModel
  | _ => Ok None
  end.

(** The whole pattern.  [names] are the group names met so far: a
    second group of the same name is rejected when it is opened. *)
Fixpoint parse_items (fuel : nat) (names : list string) (s : string)
  : result regex :=
  match fuel with
  | O => OutOfModel
  | S fuel' =>
      match s with
      | EmptyString => Ok []
      | String a r =>
          if Ascii.eqb a "(" then
            (kind <- group_kind r ;;
             match kind with
             | Some r1 =>
                 '(name, r2) <- group_name r1 ;;
                 if String.eqb name EmptyString
                 then Raise (re_error MissingGroupName)
                 else if negb (is_identifier name)
                 then Raise (re_error (BadCharacterInGroupName name))
                 else if existsb (String.eqb name) names
                 then Raise (re_error (RedefinitionOfGroupName name))
                 else
                   '(alts, r3) <- parse_alts (S (String.length r2)) r2 ;;
                   rest <- parse_items fuel' (name :: names) r3 ;;
                   Ok (Group (Some name) alts :: rest)
             | None =>
                 '(alts, r3) <- parse_alts (S (String.length r)) r ;;
                 rest <- parse_items fuel' names r3 ;;
                 Ok (Group None alts :: rest)
             end)%result
          else if one_of "|)" a then OutOfModel
          else
            ('(x, r') <- parse_atom s ;;
             rest <- parse_items fuel' names r' ;;
             Ok (Atom x :: rest))%result
      end
  end.

(** [re.compile(pattern)]. *)
Definition compile (pattern : string) : result regex :=
  parse_items (S (String.length pattern)) [] pattern.

(** *** Matching *)

Section Matcher.
Variable R : Type.

(** [cs*] in front of the continuation [k], longest first. *)
Fixpoint star_k (cs : cset) (s : string) (k : string -> option R)
  : option R :=
  match s with
  | String a s' =>
      if cset_mem cs a
      then match star_k cs s' k with
           | Some r => Some r
           | None => k s
           end
      else k s
  | EmptyString => k s
  end.

Definition atom_k (x : atom) (s : string) (k : string -> option R)
  : option R :=
  match x, s with
  | One cs, String a s' => if cset_mem cs a then k s' else None
  | One _, EmptyString => None
  | Many1 cs, String a s' => if cset_mem cs a then star_k cs s' k else None
  | Many1 _, EmptyString => None
  | Many0 cs, _ => star_k cs s k
  | Opt cs, String a s' =>
      if cset_mem cs a
      then match k s' with
           | Some r => Some r
           | None => k s
           end
      else k s
  | Opt _, EmptyString => k s
  end.

Fixpoint atoms_k (xs : list atom) (s : string) (k : string -> option R)
  : option R :=
  match xs with
  | [] => k s
  | x :: xs' => atom_k x s (fun r => atoms_k xs' r k)
  end.

Fixpoint alts_k (alts : list (list atom)) (s : string)
  (k : string -> option R) : option R :=
  match alts with
  | [] => None
  | alt :: alts' =>
      match atoms_k alt s k with
      | Some r => Some r
      | None => alts_k alts' s k
      end
  end.
End Matcher.

(** The text matched when [rest] is what remains of [s]. *)
Definition consumed (s rest : string) : string :=
  substring 0 (String.length s - String.length rest) s.

(** A match is the list of its groups, in the order of their opening
    parentheses, and the unread rest of the subject. *)
Fixpoint items_k (r : regex) (stop : string -> bool) (caps : list string)
  (s : string) : option (list string * string) :=
  match r with
  | [] => if stop s then Some (rev caps, s) else None
  | Atom x :: r' => atom_k x s (items_k r' stop caps)
  | Group _ alts :: r' =>
      alts_k alts s (fun rest => items_k r' stop (consumed s rest :: caps) rest)
  end.

Definition is_empty (s : string) : bool :=
  match s with EmptyString => true | _ => false end.

(** A match anchored at the start of [s]. *)
Definition match_prefix (r : regex) (s : string)
  : option (list string * string) :=
  items_k r (fun _ => true) [] s.

(** [re.fullmatch(pattern, s)]: [Some (m.groups())] or [None]. *)
Definition fullmatch (pattern s : string) : result (option (list string)) :=
  (r <- compile pattern ;;
   Ok (option_map fst (items_k r is_empty [] s)))%result.

(** *** Scanning: [re.sub] and [re.findall]

    Matches are searched from left to right and do not overlap;
    [skip] counts the characters that belong to the match just found.
    A pattern that can match the empty string is outside the
    fragment. *)

Fixpoint sub_from (r : regex) (repl : list string -> result string)
  (skip : nat) (s : string) : result string :=
  match s with
  | EmptyString =>
      match match_prefix r s with
      | Some _ => OutOfModel
      | None => Ok EmptyString
      end
  | String a s' =>
      match skip with
      | S k => sub_from r repl k s'
      | O =>
          match match_prefix r s with
          | Some (caps, rest) =>
              match String.length s - String.length rest with
              | O => OutOfModel
              | S n =>
                  (t <- repl caps ;;
                   out <- sub_from r repl n s' ;;
                   Ok (t ++ out)%string)%result
              end
          | None =>
              (out <- sub_from r repl 0 s' ;; Ok (String a out))%result
          end
      end
  end.

(** [re.sub(pattern, repl, s)] with a function [repl], which is given
    the groups of the match. *)
Definition sub (pattern : string) (repl : list string -> result string)
  (s : string) : result string :=
  (r <- compile pattern ;; sub_from r repl 0 s)%result.

(** A replacement given as a string is a template; without a
    backslash it stands for itself. *)
Definition template (t : string) : list string -> result string :=
  fun _ => if PyStr.contains "\" t then OutOfModel else Ok t.

(** An element of the list returned by [re.findall]: the whole match
    for a pattern without groups, the group itself for a pattern with
    one group, the tuple of the groups otherwise. *)
Inductive found : Type :=
| FStr (s : string)
| FTuple (l : list string).

Definition found_of (whole : string) (caps : list string) : found :=
  match caps with
  | [] => FStr whole
  | [g] => FStr g
  | _ => FTuple caps
  end.

Fixpoint findall_from (r : regex) (skip : nat) (s : string)
  : result (list found) :=
  match s with
  | EmptyString =>
      match match_prefix r s with
      | Some _ => OutOfModel
      | None => Ok []
      end
  | String a s' =>
      match skip with
      | S k => findall_from r k s'
      | O =>
          match match_prefix r s with
          | Some (caps, rest) =>
              match String.length s - String.length rest with
              | O => OutOfModel
              | S n =>
                  (out <- findall_from r n s' ;;
                   Ok (found_of (consumed s rest) caps :: out))%result
              end
          | None => findall_from r 0 s'
          end
      end
  end.

(** [re.findall(pattern, s)]. *)
Definition findall (pattern s : string) : result (list found) :=
  (r <- compile pattern ;; findall_from r 0 s)%result.

(** [x[0]] for an element [x] of a [findall] list. *)
Definition item0 (x : found) : result string :=
  match x with
  | FStr s => PyStr.first_char s
  | FTuple l => PyStr.index l 0
  end.

End Re.

(** ** converters.py *)

(** The values that a view function receives as positional parameters.
    A float is kept as the decimal numeral it was read from. *)
Inductive value : Type :=
| VInt (n : Z)
| VStr (s : string)
| VFloat (numeral : string).

Record converter : Type := {
  regex : string;
  convert : string -> result value
}.

Fixpoint all_digits (s : string) : bool :=
  match s with
  | EmptyString => true
  | String a s' => Re.is_digit a && all_digits s'
  end.

Fixpoint decimal (acc : Z) (s : string) : Z :=
  match s with
  | EmptyString => acc
  | String a s' => decimal (10 * acc + Z.of_nat (nat_of_ascii a - 48)) s'
  end.

(** [int(value)] on a non-empty run of at most 4300 digits, which is
    where every interpreter agrees and what [\d+] can hand over in
    the default configuration. *)
Definition int (s : string) : result value :=
  match s with
  | EmptyString => OutOfModel
  | _ =>
      if all_digits s && (String.length s <=? 4300)%nat
      then Ok (VInt (decimal 0 s))
      else OutOfModel
  end.

(** [float(value)] on [digits.digits]. *)
Definition float (s : string) : result value :=
  match PyStr.split "." s with
  | [i; f] =>
      if all_digits i && all_digits f
         && negb (Re.is_empty i) && negb (Re.is_empty f)
      then Ok (VFloat s)
      else OutOfModel
  | _ => OutOfModel
  end.

Definition IntConverter : converter :=
  {| regex := "\d+"; convert := int |}.

Definition StringConverter : converter :=
  {| regex := "[^/]+"; convert := fun value => Ok (VStr value) |}.

Definition FloatConverter : converter :=
  {| regex := "\d+\.\d+"; convert := float |}.

Definition converters : dict converter :=
  [ ("int", IntConverter);
    ("string", StringConverter);
    ("float", FloatConverter) ].

(** ** utils.py *)

(** The file system, as far as [open(template, "r").read()] sees it. *)
Definition file_system : Type := string -> option string.

Definition render (fs : file_system) (template : string) (args : dict string)
  : result string :=
  match fs template with
  | None => Raise (OSError template)
  | Some content =>
      Ok (fold_left
            (fun content '(key, value) =>
               PyStr.replace ("{{ " ++ key ++ " }}") value content)
            args content)
  end.

(** ** __init__.py *)

(** What calling a view function comes to: it returns a body, raises
    an [Exception] whose [str] is [description], or raises something
    that [except Exception] lets through. *)
Inductive call_result : Type :=
| Returns (body : string)
| Raises (description : string)
| Escapes.

(** A view function, applied to [Request.args] as it stands at the
    call and to the positional parameters. *)
Definition callable : Type := dict string -> list value -> call_result.

(** What a request does to the connection, in order. *)
Inductive event : Type :=
| send_response (code : Z)
| send_header (keyword val : string)
| end_headers
| called (func : callable) (params : list value)
| wfile_write (data : string).

Record state : Type := {
  fs : file_system;
  Request_args : dict string;
  sent : list event
}.

Definition M (A : Type) : Type := state -> result A * state.

Definition ret {A : Type} (a : A) : M A := fun st => (Ok a, st).

Definition bind {A B : Type} (c : M A) (k : A -> M B) : M B :=
  fun st =>
    match c st with
    | (Ok a, st') => k a st'
    | (Raise e, st') => (Raise e, st')
    | (OutOfModel, st') => (OutOfModel, st')
    end.

Definition lift {A : Type} (r : result A) : M A := fun st => (r, st).

Definition emit (e : event) : M unit :=
  fun st =>
    (Ok tt, {| fs := fs st; Request_args := Request_args st;
               sent := (sent st ++ [e])%list |}).

Definition set_Request_args (args : dict string) : M unit :=
  fun st =>
    (Ok tt, {| fs := fs st; Request_args := args; sent := sent st |}).

Definition get_Request_args : M (dict string) :=
  fun st => (Ok (Request_args st), st).

Definition render_m (template : string) (args : dict string) : M string :=
  fun st => (render (fs st) template args, st).

Declare Scope M_scope.
Delimit Scope M_scope with M.
Notation "x <- c ;; k" := (bind c (fun x => k))
  (at level 61, c at next level, right associativity) : M_scope.
Notation "' pat <- c ;; k" := (bind c (fun x => match x with pat => k end))
  (at level 61, pat pattern, c at next level, right associativity) : M_scope.
Notation "c ;;; k" := (bind c (fun _ => k))
  (at level 61, right associativity) : M_scope.

Record Star : Type := {
  get_routes : dict callable;
  post_routes : dict callable
}.

(** [Star.__init__] *)
Definition Star_init : Star := {| get_routes := []; post_routes := [] |}.

(** The [method] argument of [route]: a string or a list of strings. *)
Inductive method_arg : Type :=
| MStr (m : string)
| MList (l : list string).

(** The loop of [wrapper]; the routes stored before an invalid method
    name is met stay stored. *)
Fixpoint wrapper (url : string) (func : callable) (method : list string)
  (self : Star) : result callable * Star :=
  match method with
  | [] => (Ok func, self)
  | m :: method' =>
      let m_upper := PyStr.upper m in
      if String.eqb m_upper "GET" then
        wrapper url func method'
          {| get_routes := dict_set (PyStr.rstrip "/" url) func (get_routes self);
             post_routes := post_routes self |}
      else if String.eqb m_upper "POST" then
        wrapper url func method'
          {| get_routes := get_routes self;
             post_routes := dict_set (PyStr.rstrip "/" url) func (post_routes self) |}
      else (Raise (ValueError ("Invalid method: " ++ m)), self)
  end.

(** [self.route(url, method)(func)] *)
Definition route (url : string) (method : method_arg) (func : callable)
  (self : Star) : result callable * Star :=
  let method :=
    match method with
    | MStr m => [m]
    | MList l => l
    end in
  wrapper url func method self.

(** [self.get(url)(func)] *)
Definition get (url : string) : callable -> Star -> result callable * Star :=
  route url (MStr "GET").

(** [self.post(url)(func)] *)
Definition post (url : string) : callable -> Star -> result callable * Star :=
  route url (MStr "POST").

(** The loop of [_parse_args] over the parts of the query string. *)
Fixpoint parse_parts (parts : list string) (args : dict string)
  : result (dict string) :=
  match parts with
  | [] => Ok args
  | part :: parts' =>
      if PyStr.contains "=" part then
        match PyStr.split "=" part with
        | [key; val] => parse_parts parts' (dict_set key val args)
        | _ :: _ :: _ :: _ =>
            Raise (ValueError "too many values to unpack (expected 2)")
        | _ =>
            Raise (ValueError "not enough values to unpack (expected 2, got 1)")
        end
      else parse_parts parts' args
  end.

Definition _parse_args (path : string) : result (dict string) :=
  if negb (PyStr.contains "?" path) then Ok []
  else
    (query_string <- PyStr.index (PyStr.split "?" path) 1 ;;
     parse_parts (PyStr.split "&" query_string) [])%result.

(** [_replace] receives the groups of the match. *)
Definition _replace (groups : list string) : result string :=
  match groups with
  | [conv; var] =>
      (c <- dict_get conv converters ;;
       Ok ("(?P<" ++ var ++ ">" ++ regex c ++ ")"))%result
  | _ :: _ :: _ :: _ =>
      Raise (ValueError "too many values to unpack (expected 2)")
  | _ => Raise (ValueError "not enough values to unpack (expected 2)")
  end.

(** The body of the loop of [_handle_request] up to the test of
    [matched]: the four rules, tried on the route [url] for the
    normalized request [path], update [matched] and [params]. *)
Definition try_route (path : string) (args : dict string) (url : string)
  (matched : bool) (params : list value) : result (bool * list value) :=
  let normalized_url := PyStr.rstrip "/" url in
  (* Exact match *)
  let matched := if String.eqb path normalized_url then true else matched in
  (* Dynamic route with type converters *)
  ('(matched, params) <-
     (if negb (String.eqb path "/") && negb matched then
        regex_pattern <-
          Re.sub "<(int|string|float):(\w+)>" _replace normalized_url ;;
        m <- Re.fullmatch regex_pattern path ;;
        match m with
        | Some groups =>
            convs <- Re.findall "<(int|string|float):\w+>" normalized_url ;;
            heads <- rmap Re.item0 convs ;;
            params <-
              rmap (fun '(conv, val) =>
                      c <- dict_get conv converters ;; convert c val)
                   (combine heads groups) ;;
            Ok (true, params)
        | None => Ok (matched, params)
        end
      else Ok (matched, params)) ;;
   (* Dynamic route without type *)
   '(matched, params) <-
     (if negb (String.eqb path "/") && negb matched then
        string_converter <- dict_get "string" converters ;;
        regex_pattern <-
          Re.sub "<(\w+)>"
            (Re.template ("(?P<var>" ++ regex string_converter ++ ")"))
            normalized_url ;;
        m <- Re.fullmatch regex_pattern path ;;
        match m with
        | Some groups => Ok (true, map VStr groups)
        | None => Ok (matched, params)
        end
      else Ok (matched, params)) ;;
   (* Query string match *)
   let matched :=
     if negb matched && dict_truthy args && String.eqb path normalized_url
     then true else matched in
   Ok (matched, params))%result.

(** The call of [func] on the unpacked [params], recorded on the trace. *)
Definition call (func : callable) (params : list value) : M call_result :=
  fun st =>
    (Ok (func (Request_args st) params),
     {| fs := fs st; Request_args := Request_args st;
        sent := (sent st ++ [called func params])%list |}).

Definition _send_response (func : callable) (params : list value) : M unit :=
  (emit (send_response 200) ;;;
   emit (send_header "Content-type" "text/html") ;;;
   emit end_headers ;;;
   outcome <- call func params ;;
   result <-
     match outcome with
     | Returns result => ret result
     | Raises e =>
         render_m "star/templates/error.html"
           [("title", "500 Internal Server Error"); ("message", e)]
     | Escapes => lift (Raise BaseException)
     end ;;
   emit (wfile_write result))%M.

(** The answer when the loop ends without a match. *)
Definition not_found : M unit :=
  (emit (send_response 404) ;;;
   emit (send_header "Content-type" "text/html") ;;;
   emit end_headers ;;;
   body <-
     render_m "star/templates/error.html"
       [("title", "404 Not Found"); ("message", "Page Not Found")] ;;
   emit (wfile_write body))%M.

(** [for url, func in routes.items(): ...] followed by the 404 answer. *)
Fixpoint for_routes (path : string) (items : list (string * callable))
  (matched : bool) (params : list value) : M unit :=
  match items with
  | [] => not_found
  | (url, func) :: items' =>
      (args <- get_Request_args ;;
       '(matched, params) <- lift (try_route path args url matched params) ;;
       if matched : bool then _send_response func params
       else for_routes path items' matched params)%M
  end.

(** The first line of [_handle_request]: the request path without its
    query string and without trailing slashes. *)
Definition request_path (handler_path : string) : result string :=
  (head <- PyStr.index (PyStr.split "?" handler_path) 0 ;;
   Ok (PyStr.rstrip "/" head))%result.

(** [_handle_request(handler, routes)], where [handler_path] is
    [handler.path]. *)
Definition _handle_request (handler_path : string) (routes : dict callable)
  : M unit :=
  (path <- lift (request_path handler_path) ;;
   args <- lift (_parse_args handler_path) ;;
   set_Request_args args ;;;
   for_routes path routes false [])%M.

Definition do_GET (self : Star) (handler_path : string) : M unit :=
  _handle_request handler_path (get_routes self).

Definition do_POST (self : Star) (handler_path : string) : M unit :=
  _handle_request handler_path (post_routes self).

(** ** Notions used to state the properties *)

(** [n] slashes. *)
Fixpoint slashes (n : nat) : string :=
  match n with
  | O => EmptyString
  | S n' => String "/" (slashes n')
  end.

Fixpoint ends_with (c : ascii) (s : string) : bool :=
  match s with
  | EmptyString => false
  | String a EmptyString => Ascii.eqb a c
  | String _ s' => ends_with c s'
  end.

(** The text in front of the first [sep]. *)
Fixpoint before (sep : ascii) (s : string) : string :=
  match s with
  | EmptyString => EmptyString
  | String a s' => if Ascii.eqb a sep then EmptyString else String a (before sep s')
  end.

(** The text behind the first [sep]. *)
Fixpoint behind (sep : ascii) (s : string) : string :=
  match s with
  | EmptyString => EmptyString
  | String a s' => if Ascii.eqb a sep then s' else behind sep s'
  end.

(** The text from the first [sep] on, [sep] included. *)
Fixpoint from (sep : ascii) (s : string) : string :=
  match s with
  | EmptyString => EmptyString
  | String a s' => if Ascii.eqb a sep then s else from sep s'
  end.

(** No character of [s] is a metacharacter of [re]. *)
Fixpoint plain (s : string) : bool :=
  match s with
  | EmptyString => true
  | String a s' => negb (Re.special a) && plain s'
  end.

(** The pattern that matches the characters of [s] one by one. *)
Fixpoint literal (s : string) : Re.regex :=
  match s with
  | EmptyString => []
  | String a s' => Re.Atom (Re.One (Re.CLit a)) :: literal s'
  end.

(** The group that the untyped rule puts in place of a placeholder. *)
Definition var_group : string := "(?P<var>[^/]+)".

(** The replacement function that this template stands for. *)
Definition var_repl : list string -> result string := fun _ => Ok var_group.

(** The placeholders of a pattern, as the two substitutions of
    [_handle_request] find them. *)
Definition typed_placeholders (url : string) : result (list Re.found) :=
  Re.findall "<(int|string|float):(\w+)>" url.

Definition untyped_placeholders (url : string) : result (list Re.found) :=
  Re.findall "<(\w+)>" url.

(** The loop of [_handle_request] as a search: the first route that
    matches, with its parameters, or [None] when the table is
    exhausted. *)
Fixpoint find_route (path : string) (args : dict string)
  (items : list (string * callable)) (matched : bool) (params : list value)
  : result (option (string * callable * list value)) :=
  match items with
  | [] => Ok None
  | (url, func) :: items' =>
      ('(matched, params) <- try_route path args url matched params ;;
       if matched : bool then Ok (Some (url, func, params))
       else find_route path args items' matched params)%result
  end.

(** The route [url] lets the request pass to the next candidate. *)
Definition falls_through (path : string) (args : dict string) (url : string)
  : Prop :=
  try_route path args url false [] = Ok (false, []).

(** Every route of [items] lets the request pass. *)
Definition all_fall_through (path : string) (args : dict string)
  (items : list (string * callable)) : Prop :=
  Forall (fun item => falls_through path args (fst item)) items.

(** Two characters that are equal up to the case of an ASCII letter. *)
Definition same_letter (a b : ascii) : bool :=
  Ascii.eqb a b
  || (Re.is_alpha a && Re.is_alpha b
      && (nat_of_ascii a mod 32 =? nat_of_ascii b mod 32)%nat).

Fixpoint eq_ignore_case (s t : string) : bool :=
  match s, t with
  | EmptyString, EmptyString => true
  | String a s', String b t' => same_letter a b && eq_ignore_case s' t'
  | _, _ => false
  end.

(** A method name that is neither GET nor POST, in any case. *)
Definition invalid_method (m : string) : bool :=
  negb (eq_ignore_case m "GET" || eq_ignore_case m "POST").


(** The state once [Request.args] has been assigned. *)
Definition with_args (st : state) (args : dict string) : state :=
  {| fs := fs st; Request_args := args; sent := sent st |}.

(** The state once [events] more have happened. *)
Definition after (st : state) (events : list event) : state :=
  {| fs := fs st; Request_args := Request_args st;
     sent := (sent st ++ events)%list |}.

(** What [_send_response] does before it calls the view function. *)
Definition ok_headers : list event :=
  [send_response 200; send_header "Content-type" "text/html"; end_headers].

(** [render] applied to the error template [tpl]. *)
Definition error_page (tpl title message : string) : string :=
  PyStr.replace "{{ message }}" message
    (PyStr.replace "{{ title }}" title tpl).

(** The query-string parser that splits each part at its first [=]
    only, for comparison with [_parse_args]. *)
Fixpoint spec_parse_parts (parts : list string) (args : dict string)
  : dict string :=
  match parts with
  | [] => args
  | part :: parts' =>
      if PyStr.contains "=" part
      then spec_parse_parts parts'
             (dict_set (before "=" part) (behind "=" part) args)
      else spec_parse_parts parts' args
  end.

(** No part of the query string has a second [=]. *)
Definition one_equals_at_most (parts : list string) : bool :=
  forallb (fun part => negb (PyStr.contains "=" (behind "=" part))) parts.

(** ** Notions used to state further properties *)

(** A sequence of registrations [self.route(url, method)(func)], each
    one carried out whether the one before it raised or not. *)
Definition register_all
  (registrations : list (string * method_arg * callable)) (self : Star)
  : Star :=
  fold_left
    (fun self '(url, method, func) => snd (route url method func self))
    registrations self.

(** The keys of a table are pairwise distinct and none ends in a
    slash. *)
Definition normalized_table (d : dict callable) : Prop :=
  NoDup (dict_keys d)
  /\ Forall (fun key => ends_with "/" key = false) (dict_keys d).

(** The method name is GET, respectively POST, in any mixture of
    cases. *)
Definition is_GET (m : string) : bool := eq_ignore_case m "GET".

Definition is_POST (m : string) : bool := eq_ignore_case m "POST".

(** The query string that [_parse_args] reads: what stands between
    the first query mark and the second. *)
Definition query_of (raw : string) : string :=
  before "?" (behind "?" raw).

(** The value of the last part [key=value] of the query string, or
    [acc] when there is none. *)
Fixpoint last_value (key : string) (parts : list string)
  (acc : option string) : option string :=
  match parts with
  | [] => acc
  | part :: parts' =>
      if PyStr.contains "=" part && String.eqb (before "=" part) key
      then last_value key parts' (Some (behind "=" part))
      else last_value key parts' acc
  end.

(** What the untyped rule hands over for the pattern [url] on [path]:
    the captures of the pattern in which every placeholder is
    replaced by the group of the string converter. *)
Definition untyped_captures (path url : string) (params : list value)
  : Prop :=
  exists pattern groups,
    Re.sub "<(\w+)>"
      (Re.template ("(?P<var>" ++ regex StringConverter ++ ")"))
      (PyStr.rstrip "/" url)
    = Ok pattern
    /\ Re.fullmatch pattern path = Ok (Some groups)
    /\ params = map VStr groups.

(** A text that is a pattern of its own: [compile] reads it. *)
Definition compiles (s : string) : bool :=
  match Re.compile s with
  | Ok _ => true
  | _ => false
  end.

(** The number of groups of a pattern. *)
Fixpoint count_groups (r : Re.regex) : nat :=
  match r with
  | [] => 0
  | Re.Atom _ :: r' => count_groups r'
  | Re.Group _ _ :: r' => S (count_groups r')
  end.

(** [s] without its prefix [p], when it has this prefix. *)
Fixpoint strip_prefix (p s : string) : option string :=
  match p, s with
  | EmptyString, _ => Some s
  | String a p', String b s' =>
      if Ascii.eqb a b then strip_prefix p' s' else None
  | String _ _, EmptyString => None
  end.

(** Every character of [s] belongs to [cs]. *)
Fixpoint all_in (cs : Re.cset) (s : string) : bool :=
  match s with
  | EmptyString => true
  | String a s' => Re.cset_mem cs a && all_in cs s'
  end.

(** The longest prefix of [s] made of characters of [cs], and what
    follows it. *)
Fixpoint run (cs : Re.cset) (s : string) : string :=
  match s with
  | EmptyString => EmptyString
  | String a s' => if Re.cset_mem cs a then String a (run cs s') else EmptyString
  end.

Fixpoint after_run (cs : Re.cset) (s : string) : string :=
  match s with
  | EmptyString => EmptyString
  | String a s' => if Re.cset_mem cs a then after_run cs s' else s
  end.

(** A pattern without metacharacter of [re] and without placeholder. *)
Definition static (url : string) : bool :=
  plain url && negb (PyStr.contains "<" url).

(** A table of such patterns, stored as registration stores them. *)
Definition static_table (d : dict callable) : Prop :=
  Forall (fun key => static key = true /\ PyStr.rstrip "/" key = key)
         (dict_keys d).

(** The atoms that match the characters of [w] one by one. *)
Fixpoint literals (w : string) : list Re.atom :=
  match w with
  | EmptyString => []
  | String a w' => Re.One (Re.CLit a) :: literals w'
  end.

(** The first character of [s], as [s[0]] gives it. *)
Definition initial (s : string) : string :=
  match s with
  | EmptyString => EmptyString
  | String a _ => String a EmptyString
  end.

(** ** Views and a template for the examples *)

Definition about : callable := fun _ _ => Returns "about us".

Definition failing : callable := fun _ _ => Raises "division by zero".

(** A view function that calls [sys.exit]: it raises [SystemExit],
    which is not an [Exception]. *)
Definition exiting : callable := fun _ _ => Escapes.

Definition greet : callable :=
  fun _ params =>
    match params with
    | [VStr name] => Returns ("hello " ++ name)
    | _ => Raises "greet() takes 1 positional argument"
    end.

Definition example_fs : file_system :=
  fun name =>
    if String.eqb name "star/templates/error.html"
    then Some "<h1>{{ title }}</h1><p>{{ message }}</p>"
    else None.

Definition two_routes : Star :=
  snd (get "/about" about (snd (get "/item/<slug>" greet Star_init))).


Definition example_state : state :=
  {| fs := example_fs; Request_args := [("stale", "1")]; sent := [] |}.

(** * Properties *)

(** ** Strings *)

Section Strings.

Lemma index_split_0 (sep : ascii) (s : string) :
  PyStr.index (PyStr.split sep s) 0 = Ok (before sep s).
Proof.
  destruct s as [|a s]; simpl; [reflexivity|].
  destruct (Ascii.eqb a sep); [reflexivity|].
  revert a; induction s as [|b s IH]; intros a; simpl; [reflexivity|].
  destruct (Ascii.eqb b sep); simpl; [reflexivity|].
  specialize (IH b). simpl in IH.
  destruct (PyStr.split sep s) as [|h t] eqn:E.
  - destruct s as [|c s]; simpl in E; [discriminate|].
    destruct (Ascii.eqb c sep); [discriminate|].
    destruct (PyStr.split sep s); discriminate.
  - unfold PyStr.index in *; simpl in *. congruence.
Qed.

Lemma request_path_eq (raw : string) :
  request_path raw = Ok (PyStr.rstrip "/" (before "?" raw)).
Proof.
  unfold request_path. rewrite index_split_0. reflexivity.
Qed.

Lemma rstrip_cons (c a : ascii) (s : string) :
  PyStr.rstrip c (String a s) =
  match PyStr.rstrip c s with
  | EmptyString => if Ascii.eqb a c then EmptyString else String a EmptyString
  | r => String a r
  end.
Proof. reflexivity. Qed.

Lemma rstrip_decompose (s : string) :
  exists n, s = PyStr.rstrip "/" s ++ slashes n.
Proof.
  induction s as [|a s [n IH]].
  - exists 0. reflexivity.
  - rewrite rstrip_cons.
    destruct (PyStr.rstrip "/" s) as [|b r] eqn:E.
    + destruct (Ascii.eqb_spec a "/") as [->|_].
      * exists (S n). simpl in *. now rewrite IH at 1.
      * exists n. simpl in *. now rewrite IH at 1.
    + exists n. simpl in *. now rewrite IH at 1.
Qed.

Lemma rstrip_no_trailing (s : string) :
  ends_with "/" (PyStr.rstrip "/" s) = false.
Proof.
  induction s as [|a s IH]; [reflexivity|].
  rewrite rstrip_cons.
  destruct (PyStr.rstrip "/" s) as [|b r] eqn:E.
  - destruct (Ascii.eqb a "/") eqn:Ea; simpl; [reflexivity|exact Ea].
  - exact IH.
Qed.

Lemma rstrip_not_slash (s : string) : PyStr.rstrip "/" s <> "/".
Proof.
  intros H. pose proof (rstrip_no_trailing s) as E.
  rewrite H in E. discriminate.
Qed.

Lemma rstrip_app_slash (s : string) :
  PyStr.rstrip "/" (s ++ "/") = PyStr.rstrip "/" s.
Proof.
  induction s as [|a s IH]; [reflexivity|].
  change (String a s ++ "/") with (String a (s ++ "/")).
  rewrite !rstrip_cons, IH. reflexivity.
Qed.

Lemma rstrip_fixed (s : string) :
  ends_with "/" s = false -> PyStr.rstrip "/" s = s.
Proof.
  induction s as [|a s IH]; [reflexivity|].
  intros H. rewrite rstrip_cons.
  destruct s as [|b s].
  - simpl in *. now rewrite H.
  - rewrite IH by exact H. reflexivity.
Qed.

Lemma rstrip_idempotent (s : string) :
  PyStr.rstrip "/" (PyStr.rstrip "/" s) = PyStr.rstrip "/" s.
Proof. apply rstrip_fixed, rstrip_no_trailing. Qed.

Lemma before_absent (c : ascii) (s : string) :
  PyStr.contains c s = false -> before c s = s.
Proof.
  induction s as [|a s IH]; simpl; [reflexivity|].
  intros H. apply orb_false_elim in H as [Ha Hs].
  rewrite Ha, IH by exact Hs. reflexivity.
Qed.

Lemma contains_app (c : ascii) (s t : string) :
  PyStr.contains c (s ++ t) = PyStr.contains c s || PyStr.contains c t.
Proof.
  induction s as [|a s IH]; simpl; [reflexivity|].
  now rewrite IH, orb_assoc.
Qed.

Lemma before_no_sep (c : ascii) (s : string) :
  PyStr.contains c (before c s) = false.
Proof.
  induction s as [|a s IH]; simpl; [reflexivity|].
  destruct (Ascii.eqb a c) eqn:E; simpl; [reflexivity|].
  now rewrite E, IH.
Qed.

Lemma before_from (c : ascii) (s : string) : s = before c s ++ from c s.
Proof.
  induction s as [|a s IH]; simpl; [reflexivity|].
  destruct (Ascii.eqb a c); simpl; [reflexivity|].
  now rewrite <- IH.
Qed.

Lemma from_head (c : ascii) (s : string) :
  from c s = EmptyString \/ exists t, from c s = String c t.
Proof.
  induction s as [|a s IH]; simpl; [now left|].
  destruct (Ascii.eqb_spec a c) as [->|_]; [right; now exists s|exact IH].
Qed.

Lemma append_assoc (s t u : string) : (s ++ t) ++ u = s ++ t ++ u.
Proof. induction s as [|a s IH]; simpl; [reflexivity|now rewrite IH]. Qed.

Lemma parse_args_no_query (raw : string) :
  PyStr.contains "?" raw = false -> _parse_args raw = Ok [].
Proof. intros H. unfold _parse_args. now rewrite H. Qed.

End Strings.

(** ** The fuel of the pattern parser

    Every recursive call of the parser reads at least one character,
    so any fuel above the length of the pattern gives the same
    result: [compile] never stops for lack of fuel. *)

Section Fuel.

Ltac bind_ok H :=
  repeat match type of H with
    | rbind ?c _ = Ok _ =>
        let E := fresh "E" in
        destruct c as [[? ?]| |] eqn:E; cbn [rbind] in H;
        [|discriminate H|discriminate H]
    | (if ?b then _ else _) = Ok _ => destruct b eqn:?; try discriminate H
    end.

Lemma class_members_shorter (s : string) :
  forall l r, Re.class_members s = Ok (l, r) ->
              String.length r < String.length s.
Proof.
  induction s as [|a s IH]; intros l r H; cbn [Re.class_members] in H;
    [discriminate H|].
  bind_ok H.
  - injection H as <- <-. cbn [String.length]. lia.
  - injection H as <- <-. specialize (IH _ _ eq_refl).
    cbn [String.length]. lia.
Qed.

Lemma parse_cset_shorter (s : string) (cs : Re.cset) (r : string) :
  Re.parse_cset s = Ok (cs, r) -> String.length r < String.length s.
Proof.
  destruct s as [|a s]; cbn [Re.parse_cset]; [discriminate|].
  intros H.
  destruct (Ascii.eqb a "\").
  { unfold Re.parse_escape in H. destruct s as [|b s]; [discriminate H|].
    bind_ok H; injection H as <- <-; cbn [String.length]; lia. }
  destruct (Ascii.eqb a ".").
  { injection H as <- <-. cbn [String.length]. lia. }
  destruct (Ascii.eqb a "[").
  { unfold Re.parse_set in H. destruct s as [|b s]; [discriminate H|].
    bind_ok H.
    injection H as <- <-. apply class_members_shorter in E.
    cbn [String.length]. lia. }
  bind_ok H. injection H as <- <-. cbn [String.length]. lia.
Qed.

Lemma parse_atom_shorter (s : string) (x : Re.atom) (r : string) :
  Re.parse_atom s = Ok (x, r) -> String.length r < String.length s.
Proof.
  unfold Re.parse_atom. intros H. bind_ok H.
  apply parse_cset_shorter in E.
  destruct s0 as [|b r']; [injection H as <- <-; exact E|].
  cbn [String.length] in E.
  bind_ok H; injection H as <- <-; cbn [String.length]; lia.
Qed.

Lemma parse_seq_shorter (n : nat) :
  forall s xs r, Re.parse_seq n s = Ok (xs, r) ->
                 String.length r <= String.length s.
Proof.
  induction n as [|n IH]; intros s xs r H; cbn [Re.parse_seq] in H;
    [discriminate H|].
  destruct s as [|a s]; [injection H as <- <-; lia|].
  destruct (Re.one_of "|)" a); [injection H as <- <-; lia|].
  bind_ok H. injection H as <- <-.
  apply parse_atom_shorter in E. apply IH in E0. lia.
Qed.

Lemma parse_seq_fuel (n : nat) :
  forall n' s,
    String.length s < n -> String.length s < n' ->
    Re.parse_seq n s = Re.parse_seq n' s.
Proof.
  induction n as [|n IH]; intros [|n'] s Hn Hn'; try lia.
  cbn [Re.parse_seq].
  destruct s as [|a s]; [reflexivity|].
  destruct (Re.one_of "|)" a); [reflexivity|].
  destruct (Re.parse_atom (String a s)) as [[x r]| |] eqn:E;
    cbn [rbind]; try reflexivity.
  apply parse_atom_shorter in E.
  rewrite (IH n' r) by lia. reflexivity.
Qed.

Lemma parse_alts_shorter (n : nat) :
  forall s alts r, Re.parse_alts n s = Ok (alts, r) ->
                   String.length r < String.length s.
Proof.
  induction n as [|n IH]; intros s alts r H; cbn [Re.parse_alts] in H;
    [discriminate H|].
  bind_ok H. apply parse_seq_shorter in E.
  destruct s0 as [|b r']; [discriminate H|].
  cbn [String.length] in E.
  bind_ok H.
  - injection H as <- <-. lia.
  - injection H as <- <-. apply IH in E0. lia.
Qed.

Lemma parse_alts_fuel (n : nat) :
  forall n' s,
    String.length s < n -> String.length s < n' ->
    Re.parse_alts n s = Re.parse_alts n' s.
Proof.
  induction n as [|n IH]; intros [|n'] s Hn Hn'; try lia.
  cbn [Re.parse_alts].
  destruct (Re.parse_seq (S (String.length s)) s) as [[alt r]| |] eqn:E;
    cbn [rbind]; try reflexivity.
  apply parse_seq_shorter in E.
  destruct r as [|b r']; [reflexivity|].
  cbn [String.length] in E.
  destruct (Ascii.eqb b ")"); [reflexivity|].
  destruct (Ascii.eqb b "|"); [|reflexivity].
  rewrite (IH n' r') by lia. reflexivity.
Qed.

Lemma group_name_shorter (s : string) :
  forall name r, Re.group_name s = Ok (name, r) ->
                 String.length r < String.length s.
Proof.
  induction s as [|a s IH]; intros name r H; cbn [Re.group_name] in H;
    [discriminate H|].
  bind_ok H.
  - injection H as <- <-. cbn [String.length]. lia.
  - injection H as <- <-. specialize (IH _ _ eq_refl).
    cbn [String.length]. lia.
Qed.

Lemma group_kind_shorter (s r : string) :
  Re.group_kind s = Ok (Some r) -> String.length r < String.length s.
Proof.
  unfold Re.group_kind. intros H.
  repeat match type of H with
         | match ?x with _ => _ end = _ => destruct x; try discriminate H
         end.
  injection H as <-. cbn [String.length]. lia.
Qed.

Lemma parse_items_fuel (n : nat) :
  forall n' names s,
    String.length s < n -> String.length s < n' ->
    Re.parse_items n names s = Re.parse_items n' names s.
Proof.
  induction n as [|n IH]; intros [|n'] names s Hn Hn'; try lia.
  cbn [Re.parse_items].
  destruct s as [|a s]; [reflexivity|]. cbn [String.length] in Hn, Hn'.
  destruct (Ascii.eqb a "(").
  - destruct (Re.group_kind s) as [[r1|]| |] eqn:K; cbn [rbind];
      try reflexivity.
    + apply group_kind_shorter in K.
      destruct (Re.group_name r1) as [[name r2]| |] eqn:G; cbn [rbind];
        try reflexivity.
      apply group_name_shorter in G.
      destruct (String.eqb name EmptyString); [reflexivity|].
      destruct (negb (Re.is_identifier name)); [reflexivity|].
      destruct (existsb (String.eqb name) names); [reflexivity|].
      destruct (Re.parse_alts (S (String.length r2)) r2) as [[alts r3]| |]
        eqn:A; cbn [rbind]; try reflexivity.
      apply parse_alts_shorter in A.
      rewrite (IH n' (name :: names) r3) by lia. reflexivity.
    + destruct (Re.parse_alts (S (String.length s)) s) as [[alts r3]| |]
        eqn:A; cbn [rbind]; try reflexivity.
      apply parse_alts_shorter in A.
      rewrite (IH n' names r3) by lia. reflexivity.
  - destruct (Re.one_of "|)" a); [reflexivity|].
    destruct (Re.parse_atom (String a s)) as [[x r]| |] eqn:E;
      cbn [rbind]; try reflexivity.
    apply parse_atom_shorter in E. cbn [String.length] in E.
    rewrite (IH n' names r) by lia. reflexivity.
Qed.

(** [compile] is the parser run with any sufficient fuel. *)
Lemma compile_fuel (pattern : string) (n : nat) :
  String.length pattern < n ->
  Re.compile pattern = Re.parse_items n [] pattern.
Proof.
  intros H. unfold Re.compile. apply parse_items_fuel; lia.
Qed.

End Fuel.

(** ** The request loop *)

Section Loop.

(** A route that lets the request pass does so whatever [params]
    is, and leaves it as it was. *)
Lemma try_route_unmatched (path : string) (args : dict string)
  (url : string) (params0 params1 : list value) :
  try_route path args url false params0 = Ok (false, params1) ->
  forall params, try_route path args url false params = Ok (false, params).
Proof.
  unfold try_route. intros H params.
  destruct (String.eqb path (PyStr.rstrip "/" url)).
  - cbn [negb] in H. rewrite andb_false_r in H.
    cbn [rbind negb] in H. rewrite andb_false_r in H. discriminate H.
  - destruct (String.eqb path "/"); cbn [negb andb rbind] in *.
    + rewrite andb_false_r. reflexivity.
    + destruct (Re.sub _ _ _) as [p1| |]; cbn [rbind] in *;
        try discriminate H.
      destruct (Re.fullmatch p1 path) as [[g1|]| |]; cbn [rbind] in *;
        try discriminate H.
      { destruct (Re.findall _ _) as [convs| |]; cbn [rbind] in H;
          try discriminate H.
        destruct (rmap Re.item0 convs) as [heads| |]; cbn [rbind] in H;
          try discriminate H.
        destruct (rmap _ (combine heads g1)) as [ps| |];
          cbn [rbind negb andb] in H; try discriminate H. }
      cbn [negb andb] in *.
      destruct (dict_get "string" converters) as [sc| |];
        cbn [rbind] in *; try discriminate H.
      destruct (Re.sub _ _ _) as [p2| |]; cbn [rbind] in *;
        try discriminate H.
      destruct (Re.fullmatch p2 path) as [[g2|]| |]; cbn [rbind] in *;
        try discriminate H.
      rewrite andb_false_r. reflexivity.
Qed.

Lemma falls_through_params (path : string) (args : dict string)
  (url : string) :
  falls_through path args url ->
  forall params, try_route path args url false params = Ok (false, params).
Proof. apply try_route_unmatched. Qed.

Lemma after_after (st : state) (l1 l2 : list event) :
  after (after st l1) l2 = after st (l1 ++ l2).
Proof. unfold after; simpl. now rewrite <- app_assoc. Qed.

Lemma emit_after (e : event) (st : state) :
  emit e st = (Ok tt, after st [e]).
Proof. reflexivity. Qed.

Lemma send_response_eq (func : callable) (params : list value) (st : state) :
  _send_response func params st =
  let st' := after st (ok_headers ++ [called func params]) in
  match func (Request_args st) params with
  | Returns body => (Ok tt, after st' [wfile_write body])
  | Raises e =>
      match render (fs st) "star/templates/error.html"
              [("title", "500 Internal Server Error"); ("message", e)] with
      | Ok body => (Ok tt, after st' [wfile_write body])
      | Raise x => (Raise x, st')
      | OutOfModel => (OutOfModel, st')
      end
  | Escapes => (Raise BaseException, st')
  end.
Proof.
  unfold _send_response, bind, call, emit, render_m, ret, lift, after; simpl.
  rewrite <- !app_assoc; simpl.
  destruct (func (Request_args st) params); simpl.
  - rewrite <- !app_assoc. reflexivity.
  - destruct (render _ _ _); simpl; rewrite <- ?app_assoc; reflexivity.
  - reflexivity.
Qed.

Lemma not_found_eq (st : state) :
  not_found st =
  let st' :=
    after st [send_response 404; send_header "Content-type" "text/html";
              end_headers] in
  match render (fs st) "star/templates/error.html"
          [("title", "404 Not Found"); ("message", "Page Not Found")] with
  | Ok body => (Ok tt, after st' [wfile_write body])
  | Raise x => (Raise x, st')
  | OutOfModel => (OutOfModel, st')
  end.
Proof.
  unfold not_found, bind, emit, render_m, after; simpl.
  rewrite <- !app_assoc; simpl.
  destruct (render _ _ _); simpl; rewrite <- ?app_assoc; reflexivity.
Qed.

Lemma render_error_page (fs : file_system) (tpl title message : string) :
  fs "star/templates/error.html" = Some tpl ->
  render fs "star/templates/error.html"
    [("title", title); ("message", message)]
  = Ok (error_page tpl title message).
Proof. intros H. unfold render. rewrite H. reflexivity. Qed.

(** The loop answers what the search finds. *)
Lemma for_routes_find (path : string) (items : list (string * callable)) :
  forall (matched : bool) (params : list value) (st : state),
    for_routes path items matched params st =
    match find_route path (Request_args st) items matched params with
    | Ok (Some (_, func, params')) => _send_response func params' st
    | Ok None => not_found st
    | Raise e => (Raise e, st)
    | OutOfModel => (OutOfModel, st)
    end.
Proof.
  induction items as [|[url func] items IH]; intros matched params st.
  - reflexivity.
  - simpl. unfold bind, get_Request_args, lift.
    destruct (try_route path (Request_args st) url matched params)
      as [[m ps]| |]; simpl; try reflexivity.
    destruct m; [reflexivity|]. apply IH.
Qed.

Lemma handle_request_eq (raw : string) (routes : dict callable) (st : state) :
  _handle_request raw routes st =
  match _parse_args raw with
  | Ok args =>
      for_routes (PyStr.rstrip "/" (before "?" raw)) routes false []
        (with_args st args)
  | Raise e => (Raise e, st)
  | OutOfModel => (OutOfModel, st)
  end.
Proof.
  unfold _handle_request, bind, lift. rewrite request_path_eq.
  destruct (_parse_args raw); reflexivity.
Qed.

Lemma find_route_skip (path : string) (args : dict string)
  (pre rest : list (string * callable)) (params : list value) :
  all_fall_through path args pre ->
  find_route path args (pre ++ rest) false params
  = find_route path args rest false params.
Proof.
  induction 1 as [|[url func] pre H _ IH]; [reflexivity|].
  simpl in *. rewrite (falls_through_params H params). simpl. exact IH.
Qed.

Lemma find_route_drop (path : string) (args : dict string) (url : string)
  (func : callable) (pre post : list (string * callable)) :
  falls_through path args url ->
  forall params,
    find_route path args (pre ++ (url, func) :: post) false params
    = find_route path args (pre ++ post) false params.
Proof.
  intros H. induction pre as [|[u f] pre IH]; intros params; simpl.
  - rewrite (falls_through_params H params). reflexivity.
  - destruct (try_route path args u false params) as [[m ps]| |];
      simpl; try reflexivity.
    destruct m; [reflexivity|]. apply IH.
Qed.

Lemma find_route_hit (path : string) (args : dict string) (url : string)
  (func : callable) (pre post : list (string * callable))
  (params : list value) (r : result (bool * list value)) :
  all_fall_through path args pre ->
  try_route path args url false params = r ->
  find_route path args (pre ++ (url, func) :: post) false params
  = match r with
    | Ok (true, ps) => Ok (Some (url, func, ps))
    | Ok (false, ps) => find_route path args post false ps
    | Raise e => Raise e
    | OutOfModel => OutOfModel
    end.
Proof.
  intros Hpre <-. rewrite find_route_skip by exact Hpre. simpl.
  destruct (try_route path args url false params) as [[[|] ps]| |];
    reflexivity.
Qed.

End Loop.

(** ** Exact routes *)

Section Exact.

Lemma try_route_exact (args : dict string) (url : string)
  (params : list value) :
  try_route (PyStr.rstrip "/" url) args url false params = Ok (true, params).
Proof.
  unfold try_route. rewrite String.eqb_refl.
  cbn [negb]. rewrite andb_false_r.
  cbn [rbind negb]. rewrite andb_false_r.
  reflexivity.
Qed.

Lemma handle_request_slash (P : string) (routes : dict callable)
  (st : state) :
  PyStr.contains "?" P = false ->
  _handle_request (P ++ "/") routes st = _handle_request P routes st.
Proof.
  intros H. rewrite !handle_request_eq.
  assert (H' : PyStr.contains "?" (P ++ "/") = false)
    by (rewrite contains_app, H; reflexivity).
  rewrite !parse_args_no_query by assumption.
  rewrite !before_absent by assumption.
  now rewrite rstrip_app_slash.
Qed.

(** C5, as the code has it.  A pattern [P] without query mark is
    stored under [P.rstrip("/")]; that route accepts the normalized
    path by the exact rule, with no parameter.  A request to
    [P + "/"] is handled as the request to [P] whatever the table is,
    and when the routes stored in front of [P] let the path pass,
    both requests end in the call of the handler [H] of [P] on the
    empty parameter list. *)
Theorem exact_route_trailing_slash
  (P : string) (H : callable) (pre post : list (string * callable))
  (st : state) :
  PyStr.contains "?" P = false ->
  all_fall_through (PyStr.rstrip "/" P) [] pre ->
  let routes := (pre ++ (PyStr.rstrip "/" P, H) :: post)%list in
  try_route (PyStr.rstrip "/" P) [] (PyStr.rstrip "/" P) false []
  = Ok (true, [])
  /\ _handle_request P routes st = _send_response H [] (with_args st [])
  /\ _handle_request (P ++ "/") routes st
     = _send_response H [] (with_args st [])
  /\ forall table, _handle_request (P ++ "/") table st
                   = _handle_request P table st.
Proof.
  intros Hq Hpre routes.
  assert (Hexact : try_route (PyStr.rstrip "/" P) [] (PyStr.rstrip "/" P)
                     false [] = Ok (true, [])).
  { rewrite <- (rstrip_idempotent P) at 1. apply try_route_exact. }
  assert (HP : _handle_request P routes st
               = _send_response H [] (with_args st [])).
  { rewrite handle_request_eq, parse_args_no_query by exact Hq.
    rewrite before_absent by exact Hq.
    rewrite for_routes_find. simpl Request_args. unfold routes.
    rewrite (find_route_hit _ _ _ _ Hpre Hexact). reflexivity. }
  repeat split.
  - exact Hexact.
  - exact HP.
  - rewrite handle_request_slash by exact Hq. exact HP.
  - intros table. apply handle_request_slash, Hq.
Qed.

End Exact.

(** ** The two routes of the testable properties *)

Ltac conjuncts := repeat match goal with |- _ /\ _ => split end.

Ltac start_request :=
  rewrite !handle_request_eq;
  match goal with
  | |- context [_parse_args ?raw] =>
      let r := eval vm_compute in (_parse_args raw) in
      change (_parse_args raw) with r
  end;
  cbv iota beta;
  match goal with
  | |- context [PyStr.rstrip ?c (before ?d ?raw)] =>
      let r := eval vm_compute in (PyStr.rstrip c (before d raw)) in
      change (PyStr.rstrip c (before d raw)) with r
  end;
  rewrite !for_routes_find; simpl Request_args.

Section Placeholders.

Lemma item_slug_matches (args : dict string) (params : list value) :
  try_route "/item/red-shoes" args "/item/<slug>" false params
  = Ok (true, [VStr "red-shoes"]).
Proof. vm_compute. reflexivity. Qed.

Lemma item_slug_rejects (args : dict string) :
  falls_through "/item/a/b" args "/item/<slug>".
Proof. destruct args; vm_compute; reflexivity. Qed.

(** C6, as the code has it.  The route [/item/<slug>] accepts
    [/item/red-shoes] by the untyped rule, with the captured text as
    its only parameter, a string; it lets [/item/a/b] pass, the
    fragment of the string converter being one or more characters
    other than a slash.  So the request [/item/red-shoes] ends in the
    call of the handler on that string when the route is the first
    of its table, and more generally when the routes stored in front
    of it let the path pass; the request [/item/a/b] is handled as if
    the route were not in the table. *)
Theorem untyped_route_item_slug
  (H : callable) (pre post : list (string * callable)) (st : state) :
  (forall args params,
      try_route "/item/red-shoes" args "/item/<slug>" false params
      = Ok (true, [VStr "red-shoes"]))
  /\ (forall args, falls_through "/item/a/b" args "/item/<slug>")
  /\ (Re.compile (regex StringConverter)
      = Ok [Re.Atom (Re.Many1 (Re.CNotIn ["/"%char]))]
      /\ Re.cset_mem (Re.CNotIn ["/"%char]) "/" = false)
  /\ _handle_request "/item/red-shoes" (("/item/<slug>", H) :: post) st
     = _send_response H [VStr "red-shoes"] (with_args st [])
  /\ (all_fall_through "/item/red-shoes" [] pre ->
      _handle_request "/item/red-shoes"
        (pre ++ ("/item/<slug>", H) :: post)%list st
      = _send_response H [VStr "red-shoes"] (with_args st []))
  /\ _handle_request "/item/a/b" (pre ++ ("/item/<slug>", H) :: post)%list st
     = _handle_request "/item/a/b" (pre ++ post)%list st.
Proof.
  conjuncts.
  - apply item_slug_matches.
  - apply item_slug_rejects.
  - reflexivity.
  - reflexivity.
  - vm_compute. reflexivity.
  - intros Hpre. start_request.
    rewrite (find_route_hit _ _ _ _ Hpre (item_slug_matches [] [])).
    reflexivity.
  - start_request.
    rewrite (find_route_drop H pre post (item_slug_rejects [])).
    reflexivity.
Qed.

Lemma user_id_raises (args : dict string) (params : list value) :
  try_route "/user/42" args "/user/<int:id>" false params
  = Raise (KeyError "i").
Proof. vm_compute. reflexivity. Qed.

Lemma user_id_rejects (args : dict string) :
  falls_through "/user/abc" args "/user/<int:id>".
Proof. destruct args; vm_compute; reflexivity. Qed.

(** C1.  The route [/user/<int:id>] does match [/user/42]: the typed
    pattern compiles and captures [42], which the [int] converter
    turns into the integer 42.  But the names of the converters are
    then looked up by the first character of what [re.findall]
    returned, so the request raises [KeyError] on ["i"] before
    anything is sent and the handler is never called.  The request
    [/user/abc] is handled as if the route were not in the table. *)
Theorem typed_route_user_id_raises
  (H : callable) (pre post : list (string * callable)) (st : state) :
  Re.fullmatch "/user/(?P<id>\d+)" "/user/42" = Ok (Some ["42"])
  /\ convert IntConverter "42" = Ok (VInt 42)
  /\ Re.findall "<(int|string|float):\w+>" "/user/<int:id>"
     = Ok [Re.FStr "int"]
  /\ Re.item0 (Re.FStr "int") = Ok "i"
  /\ (forall args params,
         try_route "/user/42" args "/user/<int:id>" false params
         = Raise (KeyError "i"))
  /\ _handle_request "/user/42" (("/user/<int:id>", H) :: post) st
     = (Raise (KeyError "i"), with_args st [])
  /\ _handle_request "/user/abc" (pre ++ ("/user/<int:id>", H) :: post)%list st
     = _handle_request "/user/abc" (pre ++ post)%list st.
Proof.
  conjuncts;
    [vm_compute; reflexivity | vm_compute; reflexivity
    | vm_compute; reflexivity | vm_compute; reflexivity
    | intros; vm_compute; reflexivity | vm_compute; reflexivity | ].
  start_request.
  rewrite (find_route_drop H pre post (user_id_rejects [])).
  reflexivity.
Qed.

End Placeholders.

(** C6 as stated fails when a route stored in front takes the
    request: behind an exact route for [/item/red-shoes] the handler
    of [/item/<slug>] is not called, and behind a route with two
    placeholders the request ends with [re.error]. *)
Lemma untyped_route_not_reached :
  _handle_request "/item/red-shoes"
    [("/item/red-shoes", about); ("/item/<slug>", greet)] example_state
  = _send_response about [] (with_args example_state [])
  /\ _handle_request "/item/red-shoes"
       [("/item/red-shoes", about); ("/item/<slug>", greet)] example_state
     <> _send_response greet [VStr "red-shoes"] (with_args example_state [])
  /\ _handle_request "/item/red-shoes"
       [("/<a>/<b>", about); ("/item/<slug>", greet)] example_state
     = (Raise (re_error (RedefinitionOfGroupName "var")),
        with_args example_state []).
Proof.
  conjuncts; vm_compute; try reflexivity; discriminate.
Qed.

(** The hypothesis of C6 at a table whose first route is an exact one. *)
Lemma untyped_route_item_slug_witness :
  all_fall_through "/item/red-shoes" [] [("/about", about)]
  /\ _handle_request "/item/red-shoes"
       [("/about", about); ("/item/<slug>", greet)] example_state
     = _send_response greet [VStr "red-shoes"] (with_args example_state []).
Proof.
  assert (Hpre : all_fall_through "/item/red-shoes" [] [("/about", about)]).
  { constructor; [vm_compute; reflexivity | constructor]. }
  split; [exact Hpre|].
  exact (proj1 (proj2 (proj2 (proj2 (proj2
           (untyped_route_item_slug greet [("/about", about)] []
              example_state))))) Hpre).
Defined.

(** C5 as stated fails in two ways.  The first route that matches
    takes the request, so the exact route [/about] stored behind
    [/<page>] is never reached: the request [/about] ends in the call
    of the other handler on the parameter [about].  And a pattern
    with a query mark is never equal to a request path: the request
    [/a?b] to the only route [/a?b] is answered by the 404 page. *)
Lemma exact_route_not_reached :
  _handle_request "/about" [("/<page>", greet); ("/about", about)]
    example_state
  = _send_response greet [VStr "about"] (with_args example_state [])
  /\ _handle_request "/about" [("/<page>", greet); ("/about", about)]
       example_state
     <> _send_response about [] (with_args example_state [])
  /\ _handle_request "/a?b" [("/a?b", about)] example_state
     = not_found (with_args example_state [])
  /\ _handle_request "/a?b" [("/a?b", about)] example_state
     <> _send_response about [] (with_args example_state []).
Proof.
  conjuncts; vm_compute; try reflexivity; discriminate.
Qed.

(** The hypotheses of C5 at a table whose first route is a dynamic one. *)
Lemma exact_route_trailing_slash_witness :
  PyStr.contains "?" "/about" = false
  /\ all_fall_through "/about" [] [("/item/<slug>", greet)]
  /\ _handle_request "/about/"
       [("/item/<slug>", greet); ("/about", about)] example_state
     = _send_response about [] (with_args example_state []).
Proof.
  assert (Hpre : all_fall_through "/about" [] [("/item/<slug>", greet)]).
  { constructor; [vm_compute; reflexivity | constructor]. }
  split; [reflexivity|]. split; [exact Hpre|].
  exact (proj1 (proj2 (proj2
           (exact_route_trailing_slash "/about" about []
              example_state eq_refl Hpre)))).
Defined.

(** ** Normalization of the request path *)

Section Normalization.

(** C2, as the code has it.  The request path is what stands in
    front of the first query mark, without any of its trailing
    slashes: the raw path is the normalized path, then slashes only,
    then the query part, which is empty or begins with the query
    mark; the normalized path has no query mark and does not end in
    a slash.  The pattern of a route is stored the same way. *)
Theorem normalization_strips_all_trailing_slashes (raw url : string) :
  (exists path n,
      request_path raw = Ok path
      /\ raw = path ++ slashes n ++ from "?" raw
      /\ (from "?" raw = EmptyString
          \/ exists query, from "?" raw = String "?" query)
      /\ PyStr.contains "?" path = false
      /\ ends_with "/" path = false)
  /\ (exists n,
         url = PyStr.rstrip "/" url ++ slashes n
         /\ ends_with "/" (PyStr.rstrip "/" url) = false).
Proof.
  split.
  - destruct (rstrip_decompose (before "?" raw)) as [n Hn].
    exists (PyStr.rstrip "/" (before "?" raw)), n. conjuncts.
    + apply request_path_eq.
    + transitivity
        ((PyStr.rstrip "/" (before "?" raw) ++ slashes n) ++ from "?" raw).
      * rewrite <- Hn. apply before_from.
      * apply append_assoc.
    + apply from_head.
    + pose proof (before_no_sep "?" raw) as H. rewrite Hn in H.
      rewrite contains_app in H. now apply orb_false_elim in H.
    + apply rstrip_no_trailing.
  - destruct (rstrip_decompose url) as [n Hn]. exists n. split.
    + exact Hn.
    + apply rstrip_no_trailing.
Qed.

End Normalization.

(** C2 at [/a//]: both trailing slashes go, [/a/] is not the result. *)
Lemma normalization_two_slashes :
  request_path "/a//" = Ok "/a" /\ request_path "/a//" <> Ok "/a/"
  /\ PyStr.rstrip "/" "/a//" = "/a".
Proof. conjuncts; [reflexivity | discriminate | reflexivity]. Qed.

(** ** The query string *)

Section Query.

Lemma split_absent (sep : ascii) (s : string) :
  PyStr.contains sep s = false -> PyStr.split sep s = [s].
Proof.
  induction s as [|a s IH]; simpl; [reflexivity|].
  intros H. apply orb_false_elim in H as [Ha Hs].
  rewrite Ha, IH by exact Hs. reflexivity.
Qed.

Lemma split_present (sep : ascii) (s : string) :
  PyStr.contains sep s = true ->
  PyStr.split sep s = before sep s :: PyStr.split sep (behind sep s).
Proof.
  induction s as [|a s IH]; simpl; [discriminate|].
  destruct (Ascii.eqb a sep); simpl; [reflexivity|].
  intros H. rewrite IH by exact H. reflexivity.
Qed.

(** [_parse_args] agrees with the parser that splits at the first
    [=] as long as no part has a second one, and raises otherwise. *)
Lemma parse_parts_spec (parts : list string) :
  forall args,
    parse_parts parts args =
    if one_equals_at_most parts
    then Ok (spec_parse_parts parts args)
    else Raise (ValueError "too many values to unpack (expected 2)").
Proof.
  induction parts as [|part parts IH]; intros args; [reflexivity|].
  simpl. destruct (PyStr.contains "=" part) eqn:E.
  - rewrite (split_present _ _ E).
    destruct (PyStr.contains "=" (behind "=" part)) eqn:E2; simpl.
    + rewrite (split_present _ _ E2).
      destruct (PyStr.split "=" (behind "=" (behind "=" part))) eqn:E3;
        [|reflexivity].
      exfalso. clear -E3.
      destruct (behind "=" (behind "=" part)) as [|a s];
        simpl in E3; [discriminate|].
      destruct (Ascii.eqb a "="); [discriminate|].
      destruct (PyStr.split "=" s); discriminate.
    + rewrite (split_absent _ _ E2). apply IH.
  - assert (E2 : PyStr.contains "=" (behind "=" part) = false).
    { clear -E. induction part as [|a s IH]; simpl in *; [reflexivity|].
      apply orb_false_elim in E as [Ha Hs]. rewrite Ha. now apply IH. }
    rewrite E2. simpl. apply IH.
Qed.

(** C3.  On [/search?a=b=c] the part [a=b=c] is split at both [=]
    and the unpacking into key and value raises [ValueError]; the
    request ends there, nothing is sent.  Splitting at the first
    [=] only would have given the value [b=c].  In general
    [_parse_args] agrees with the first-[=] parser exactly when no
    part has a second [=]. *)
Theorem parse_args_second_equals_raises
  (routes : dict callable) (st : state) :
  _parse_args "/search?a=b=c"
  = Raise (ValueError "too many values to unpack (expected 2)")
  /\ spec_parse_parts (PyStr.split "&" "a=b=c") [] = [("a", "b=c")]
  /\ _handle_request "/search?a=b=c" routes st
     = (Raise (ValueError "too many values to unpack (expected 2)"), st)
  /\ (forall parts args,
         parse_parts parts args =
         if one_equals_at_most parts
         then Ok (spec_parse_parts parts args)
         else Raise (ValueError "too many values to unpack (expected 2)"))
  /\ _parse_args "/s?a=1&b&a=2&c=%20+" = Ok [("a", "2"); ("c", "%20+")].
Proof.
  conjuncts; try reflexivity.
  intros parts args. apply parse_parts_spec.
Qed.

End Query.

(** ** Error pages *)

Section ErrorPages.

(** C4, as the code has it.  Once a route has matched, the status
    line 200 and the headers are sent and only then the view function
    is called, whatever it does.  When it raises an exception that
    [except Exception] catches and the error template can be read,
    the body written afterwards is the template rendered with the
    title [500 Internal Server Error] and the description of the
    exception as message: in the text [tpl] of the template,
    [{{ title }}] and then [{{ message }}] are replaced.  An
    exception that [except Exception] does not catch ends the request
    behind the call, without a body. *)
Theorem handler_exception_page
  (raw : string) (pre post : list (string * callable)) (url : string)
  (func : callable) (args : dict string) (params : list value)
  (st : state) :
  _parse_args raw = Ok args ->
  all_fall_through (PyStr.rstrip "/" (before "?" raw)) args pre ->
  try_route (PyStr.rstrip "/" (before "?" raw)) args url false []
  = Ok (true, params) ->
  let answer := _handle_request raw (pre ++ (url, func) :: post)%list st in
  (exists rest,
      sent (snd answer)
      = (sent st
         ++ [send_response 200;
             send_header "Content-type" "text/html";
             end_headers;
             called func params]
         ++ rest)%list)
  /\ (forall e body,
       func args params = Raises e ->
       render (fs st) "star/templates/error.html"
         [("title", "500 Internal Server Error"); ("message", e)]
       = Ok body ->
       answer
       = (Ok tt,
          after (with_args st args)
            [send_response 200;
             send_header "Content-type" "text/html";
             end_headers;
             called func params;
             wfile_write body])
       /\ forall tpl,
            fs st "star/templates/error.html" = Some tpl ->
            body = error_page tpl "500 Internal Server Error" e)
  /\ (func args params = Escapes ->
      answer
      = (Raise BaseException,
         after (with_args st args)
           [send_response 200;
            send_header "Content-type" "text/html";
            end_headers;
            called func params])).
Proof.
  intros Hargs Hpre Hhit answer.
  assert (Hanswer : answer = _send_response func params (with_args st args)).
  { unfold answer. rewrite handle_request_eq, Hargs, for_routes_find.
    simpl Request_args.
    rewrite (find_route_hit _ func post _ Hpre Hhit). reflexivity. }
  rewrite Hanswer, send_response_eq. simpl Request_args. simpl fs.
  split; [|split].
  - destruct (func args params) as [b|e|].
    + exists [wfile_write b]. cbv zeta. rewrite after_after. reflexivity.
    + destruct (render _ _ _) as [b| |].
      * exists [wfile_write b]. cbv zeta. rewrite after_after. reflexivity.
      * exists []. reflexivity.
      * exists []. reflexivity.
    + exists []. reflexivity.
  - intros e body Hraise Hbody. rewrite Hraise, Hbody. split.
    + cbv zeta. rewrite after_after. reflexivity.
    + intros tpl Htpl. rewrite (render_error_page _ _ _ Htpl) in Hbody.
      now injection Hbody.
  - intros Hescape. rewrite Hescape. reflexivity.
Qed.


End ErrorPages.

(** The hypotheses of C4: a route whose view function divides by zero. *)
Lemma handler_exception_page_witness :
  _handle_request "/boom?x=1" [("/about", about); ("/boom", failing)]
    example_state
  = (Ok tt,
     after (with_args example_state [("x", "1")])
       [send_response 200;
        send_header "Content-type" "text/html";
        end_headers;
        called failing [];
        wfile_write
          "<h1>500 Internal Server Error</h1><p>division by zero</p>"]).
Proof.
  assert (Hpre : all_fall_through "/boom" [("x", "1")] [("/about", about)])
    by (constructor; [vm_compute; reflexivity | constructor]).
  assert (Hhit : try_route "/boom" [("x", "1")] "/boom" false []
                 = Ok (true, [])) by (vm_compute; reflexivity).
  exact (proj1 (proj1 (proj2
           (@handler_exception_page "/boom?x=1" [("/about", about)] []
              "/boom" failing [("x", "1")] [] example_state
              eq_refl Hpre Hhit))
           "division by zero"
           "<h1>500 Internal Server Error</h1><p>division by zero</p>"
           eq_refl eq_refl)).
Defined.

(** C4 as stated fails for an exception that is not an [Exception]:
    the route [/quit] matches, the status line and the headers are
    sent and the view function is called, but what it raises is not
    caught, no body is written and the request ends with the
    exception. *)
Lemma handler_exception_not_caught :
  try_route "/quit" [] "/quit" false [] = Ok (true, [])
  /\ exiting [] [] = Escapes
  /\ _handle_request "/quit" [("/quit", exiting)] example_state
     = (Raise BaseException,
        after (with_args example_state [])
          [send_response 200;
           send_header "Content-type" "text/html";
           end_headers;
           called exiting []])
  /\ forall body,
       ~ In (wfile_write body)
            (sent (snd (_handle_request "/quit" [("/quit", exiting)]
                          example_state))).
Proof.
  conjuncts; [vm_compute; reflexivity | reflexivity
             | vm_compute; reflexivity | ].
  intros body H. vm_compute in H.
  repeat (destruct H as [H|H]; [discriminate H|]). exact H.
Qed.


(** ** Registration *)

Section Registration.

Lemma upper_char_spec (a : ascii) :
  Ascii.eqb (PyStr.upper_char a) "G" = same_letter a "G"
  /\ Ascii.eqb (PyStr.upper_char a) "E" = same_letter a "E"
  /\ Ascii.eqb (PyStr.upper_char a) "T" = same_letter a "T"
  /\ Ascii.eqb (PyStr.upper_char a) "P" = same_letter a "P"
  /\ Ascii.eqb (PyStr.upper_char a) "O" = same_letter a "O"
  /\ Ascii.eqb (PyStr.upper_char a) "S" = same_letter a "S".
Proof.
  destruct a as [[|] [|] [|] [|] [|] [|] [|] [|]];
    vm_compute; repeat split.
Qed.

Lemma upper_is_GET (m : string) :
  String.eqb (PyStr.upper m) "GET" = eq_ignore_case m "GET".
Proof.
  destruct m as [|a [|b [|c [|d m]]]]; try reflexivity;
    cbn [PyStr.upper String.eqb eq_ignore_case];
    destruct (upper_char_spec a) as (-> & _);
    try destruct (upper_char_spec b) as (_ & -> & _);
    try destruct (upper_char_spec c) as (_ & _ & -> & _);
    repeat match goal with
      | |- context [same_letter ?x ?y] => destruct (same_letter x y)
      end; reflexivity.
Qed.

Lemma upper_is_POST (m : string) :
  String.eqb (PyStr.upper m) "POST" = eq_ignore_case m "POST".
Proof.
  destruct m as [|a [|b [|c [|d [|e m]]]]]; try reflexivity;
    cbn [PyStr.upper String.eqb eq_ignore_case];
    destruct (upper_char_spec a) as (_ & _ & _ & -> & _);
    try destruct (upper_char_spec b) as (_ & _ & _ & _ & -> & _);
    try destruct (upper_char_spec c) as (_ & _ & _ & _ & _ & ->);
    try destruct (upper_char_spec d) as (_ & _ & -> & _);
    repeat match goal with
      | |- context [same_letter ?x ?y] => destruct (same_letter x y)
      end; reflexivity.
Qed.



Lemma dict_set_keys {V : Type} (k : string) (v : V) (d : dict V) :
  In k (dict_keys d) -> dict_keys (dict_set k v d) = dict_keys d.
Proof.
  induction d as [|[k' v'] d IH]; simpl; [tauto|].
  intros [->|H].
  - now rewrite String.eqb_refl.
  - destruct (String.eqb k' k); [reflexivity|]. simpl. now rewrite IH.
Qed.

Lemma dict_get_set {V : Type} (k : string) (v : V) (d : dict V) :
  dict_get k (dict_set k v d) = Ok v.
Proof.
  induction d as [|[k' v'] d IH]; simpl.
  - now rewrite String.eqb_refl.
  - destruct (String.eqb k' k) eqn:E; simpl; now rewrite E.
Qed.


Lemma dict_set_set {V : Type} (k : string) (v w : V) (d : dict V) :
  dict_set k w (dict_set k v d) = dict_set k w d.
Proof.
  induction d as [|[k' v'] d IH]; simpl.
  - now rewrite String.eqb_refl.
  - destruct (String.eqb k' k) eqn:E; simpl; rewrite E; [reflexivity|].
    now rewrite IH.
Qed.




Lemma get_eq (url : string) (func : callable) (self : Star) :
  get url func self =
  (Ok func,
   {| get_routes := dict_set (PyStr.rstrip "/" url) func (get_routes self);
      post_routes := post_routes self |}).
Proof. reflexivity. Qed.

Lemma post_eq (url : string) (func : callable) (self : Star) :
  post url func self =
  (Ok func,
   {| get_routes := get_routes self;
      post_routes :=
        dict_set (PyStr.rstrip "/" url) func (post_routes self) |}).
Proof. reflexivity. Qed.


End Registration.



(** ** Patterns without metacharacter *)

Section PlainPatterns.

Lemma special_elim (a : ascii) :
  Re.special a = false ->
  Ascii.eqb a "\" = false /\ Ascii.eqb a "." = false
  /\ Ascii.eqb a "[" = false /\ Ascii.eqb a "(" = false
  /\ Re.one_of "|)" a = false /\ Re.quantifier a = false.
Proof.
  unfold Re.special, Re.quantifier, Re.one_of. cbn [list_ascii_of_string existsb].
  intros H.
  repeat match type of H with
         | (_ || _)%bool = false => apply orb_false_elim in H as [? H]
         end.
  repeat match goal with
         | E : Ascii.eqb a _ = false |- _ => rewrite E; clear E
         end.
  repeat split.
Qed.

Lemma plain_ahead (s : string) :
  plain s = true -> Re.quantifier_ahead s = false.
Proof.
  destruct s as [|a s]; [reflexivity|]. cbn [plain Re.quantifier_ahead].
  intros H. apply andb_prop in H as [H _].
  apply negb_true_iff in H. now apply special_elim in H.
Qed.

Lemma quantifier_elim (a : ascii) :
  Re.quantifier a = false ->
  Ascii.eqb a "+" = false /\ Ascii.eqb a "*" = false
  /\ Ascii.eqb a "?" = false.
Proof.
  unfold Re.quantifier, Re.one_of. cbn [list_ascii_of_string existsb].
  intros H.
  repeat match type of H with
         | (_ || _)%bool = false => apply orb_false_elim in H as [? H]
         end.
  repeat split; assumption.
Qed.

Lemma parse_items_plain (fuel : nat) (names : list string) (a : ascii)
  (rest : string) :
  Re.special a = false ->
  Re.quantifier_ahead rest = false ->
  Re.parse_items (S fuel) names (String a rest) =
  (r <- Re.parse_items fuel names rest ;;
   Ok (Re.Atom (Re.One (Re.CLit a)) :: r))%result.
Proof.
  intros Ha Hrest.
  destruct (special_elim _ Ha) as (E1 & E2 & E3 & E4 & E5 & E6).
  cbn [Re.parse_items]. rewrite E4, E5.
  unfold Re.parse_atom, Re.parse_cset. rewrite E1, E2, E3, Ha.
  cbn [rbind].
  destruct rest as [|b rest']; [reflexivity|].
  cbn [Re.quantifier_ahead] in Hrest.
  destruct (quantifier_elim _ Hrest) as (-> & -> & ->).
  rewrite Hrest. reflexivity.
Qed.

Lemma parse_items_var_group (fuel : nat) (names : list string)
  (rest : string) :
  Re.parse_items (S fuel) names (var_group ++ rest) =
  if existsb (String.eqb "var") names
  then Raise (re_error (RedefinitionOfGroupName "var"))
  else
    (r <- Re.parse_items fuel ("var" :: names) rest ;;
     Ok (Re.Group (Some "var") [[Re.Many1 (Re.CNotIn ["/"%char])]] :: r))%result.
Proof.
  unfold var_group.
  cbn -[Re.parse_items existsb].
  cbn [Re.parse_items].
  destruct (existsb (String.eqb "var") names); reflexivity.
Qed.

Lemma compile_plain (s : string) :
  plain s = true ->
  forall fuel names,
    String.length s < fuel ->
    Re.parse_items fuel names s = Ok (literal s).
Proof.
  induction s as [|a s IH]; intros Hs fuel names Hfuel.
  - destruct fuel; [inversion Hfuel|reflexivity].
  - destruct fuel as [|fuel]; [inversion Hfuel|].
    cbn [plain] in Hs. apply andb_prop in Hs as [Ha Hs].
    apply negb_true_iff in Ha.
    rewrite parse_items_plain by (try apply plain_ahead; assumption).
    rewrite IH by (try assumption; cbn [String.length] in Hfuel; lia).
    reflexivity.
Qed.

Lemma fullmatch_literal (s : string) :
  forall path caps,
    Re.items_k (literal s) Re.is_empty caps path =
    if String.eqb path s then Some (rev caps, EmptyString) else None.
Proof.
  induction s as [|a s IH]; intros [|b path] caps; try reflexivity.
  cbn [literal Re.items_k Re.atom_k Re.cset_mem String.eqb].
  destruct (Ascii.eqb b a); [apply IH|reflexivity].
Qed.

Lemma fullmatch_plain (pattern path : string) :
  plain pattern = true ->
  Re.fullmatch pattern path =
  Ok (if String.eqb path pattern then Some [] else None).
Proof.
  intros H. unfold Re.fullmatch, Re.compile.
  rewrite compile_plain by (try assumption; lia).
  cbn [rbind]. rewrite fullmatch_literal.
  destruct (String.eqb path pattern); reflexivity.
Qed.

(** A pattern without a match is left as it is by [re.sub]. *)
Lemma sub_from_no_match (r : Re.regex)
  (repl : list string -> result string) (s : string) :
  Re.findall_from r 0 s = Ok [] -> Re.sub_from r repl 0 s = Ok s.
Proof.
  induction s as [|a s IH]; cbn [Re.findall_from Re.sub_from].
  - destruct (Re.match_prefix r ""); [discriminate|reflexivity].
  - destruct (Re.match_prefix r (String a s)) as [[caps rest]|].
    + destruct (String.length (String a s) - String.length rest);
        [discriminate|].
      destruct (Re.findall_from r n s); discriminate.
    + intros H. rewrite IH by exact H. reflexivity.
Qed.

Lemma untyped_template (groups : list string) :
  Re.template ("(?P<var>" ++ regex StringConverter ++ ")") groups
  = Ok "(?P<var>[^/]+)".
Proof. reflexivity. Qed.

End PlainPatterns.

(** * Further properties of the request loop *)

Section Dispatch.

Lemma try_route_args
  (path url : string) (args args' : dict string) (matched : bool)
  (params : list value) :
  try_route path args url matched params
  = try_route path args' url matched params.
Proof.
  unfold try_route.
  destruct (String.eqb path (PyStr.rstrip "/" url)).
  - cbn [negb]. rewrite andb_false_r. cbn [rbind negb].
    rewrite andb_false_r. reflexivity.
  - match goal with
    | |- rbind ?X _ = rbind ?X _ => destruct X as [[m1 p1]| |]
    end; cbn [rbind]; try reflexivity.
    match goal with
    | |- rbind ?X _ = rbind ?X _ => destruct X as [[m2 p2]| |]
    end; cbn [rbind]; try reflexivity.
    rewrite !andb_false_r. reflexivity.
Qed.

Lemma find_route_args
  (path : string) (args args' : dict string)
  (items : list (string * callable)) :
  forall matched params,
    find_route path args items matched params
    = find_route path args' items matched params.
Proof.
  induction items as [|[url func] items IH]; intros matched params;
    [reflexivity|].
  cbn [find_route]. rewrite (try_route_args path url args args').
  destruct (try_route path args' url matched params) as [[[|] ps]| |];
    cbn [rbind]; try reflexivity.
  apply IH.
Qed.

(** X1.  The query rule of the loop never decides: it asks for the
    equality that the exact rule has already tested.  So neither the
    outcome of trying one route nor the route that the loop stops at
    and its parameters depend on the arguments of the query string. *)
Theorem try_route_ignores_query
  (path url : string) (args args' : dict string) (matched : bool)
  (params : list value) (items : list (string * callable)) :
  try_route path args url matched params
  = try_route path args' url matched params
  /\ find_route path args items matched params
     = find_route path args' items matched params.
Proof.
  split; [apply try_route_args | apply find_route_args].
Qed.

Lemma find_route_in (path : string) (args : dict string)
  (items : list (string * callable)) :
  forall matched params url func ps,
    find_route path args items matched params = Ok (Some (url, func, ps)) ->
    In (url, func) items.
Proof.
  induction items as [|[u f] items IH]; intros matched params url func ps;
    cbn [find_route]; [discriminate|].
  destruct (try_route path args u matched params) as [[[|] q]| |];
    cbn [rbind]; try discriminate.
  - intros [= <- <- <-]. now left.
  - intros H. right. eapply IH, H.
Qed.

End Dispatch.

(** * Further properties of the answers *)

Section Answers.

(** X2.  What a matched route answers, by what its view function does: a
    returned body is written after the headers; an exception that
    [except Exception] catches is turned into the rendered error
    page, and the failure to render it ends the request after the
    headers; any other exception ends the request after the headers,
    without a body. *)
Theorem matched_route_outcome
  (raw : string) (pre post : list (string * callable)) (url : string)
  (func : callable) (args : dict string) (params : list value)
  (st : state) :
  _parse_args raw = Ok args ->
  all_fall_through (PyStr.rstrip "/" (before "?" raw)) args pre ->
  try_route (PyStr.rstrip "/" (before "?" raw)) args url false []
  = Ok (true, params) ->
  _handle_request raw (pre ++ (url, func) :: post)%list st =
  let st' :=
    after (with_args st args)
      [send_response 200;
       send_header "Content-type" "text/html";
       end_headers;
       called func params] in
  match func args params with
  | Returns body => (Ok tt, after st' [wfile_write body])
  | Raises e =>
      match render (fs st) "star/templates/error.html"
              [("title", "500 Internal Server Error"); ("message", e)] with
      | Ok body => (Ok tt, after st' [wfile_write body])
      | Raise x => (Raise x, st')
      | OutOfModel => (OutOfModel, st')
      end
  | Escapes => (Raise BaseException, st')
  end.
Proof.
  intros Hargs Hpre Hhit.
  rewrite handle_request_eq, Hargs, for_routes_find.
  simpl Request_args.
  rewrite (find_route_hit _ func post _ Hpre Hhit).
  rewrite send_response_eq. reflexivity.
Qed.

(** X3.  Routes stored behind the first one that matches or raises
    are never tried: the answer is the same whatever follows that
    route in the table. *)
Theorem routes_behind_are_not_tried
  (raw : string) (pre post post' : list (string * callable)) (url : string)
  (func : callable) (args : dict string) (st : state) :
  _parse_args raw = Ok args ->
  all_fall_through (PyStr.rstrip "/" (before "?" raw)) args pre ->
  (exists params,
      try_route (PyStr.rstrip "/" (before "?" raw)) args url false []
      = Ok (true, params))
  \/ (exists e,
         try_route (PyStr.rstrip "/" (before "?" raw)) args url false []
         = Raise e) ->
  _handle_request raw (pre ++ (url, func) :: post)%list st
  = _handle_request raw (pre ++ (url, func) :: post')%list st.
Proof.
  intros Hargs Hpre Hstop.
  rewrite !handle_request_eq, Hargs, !for_routes_find.
  simpl Request_args.
  rewrite (find_route_hit url func post [] Hpre eq_refl).
  rewrite (find_route_hit url func post' [] Hpre eq_refl).
  destruct Hstop as [[ps ->]|[e ->]]; reflexivity.
Qed.

Lemma send_response_state (func : callable) (params : list value)
  (st : state) :
  let st' := snd (_send_response func params st) in
  fs st' = fs st /\ Request_args st' = Request_args st.
Proof.
  rewrite send_response_eq. cbv zeta.
  destruct (func (Request_args st) params); [now split| |now split].
  destruct (render _ _ _); now split.
Qed.

Lemma not_found_state (st : state) :
  let st' := snd (not_found st) in
  fs st' = fs st /\ Request_args st' = Request_args st.
Proof.
  rewrite not_found_eq. cbv zeta. destruct (render _ _ _); now split.
Qed.

Lemma for_routes_state (path : string) (items : list (string * callable))
  (matched : bool) (params : list value) (st : state) :
  let st' := snd (for_routes path items matched params st) in
  fs st' = fs st /\ Request_args st' = Request_args st.
Proof.
  rewrite for_routes_find.
  destruct (find_route _ _ _ _ _) as [[[[u f] ps]|]| |].
  - apply send_response_state.
  - apply not_found_state.
  - now split.
  - now split.
Qed.

(** X4.  [Request.args] is shared between requests.  A request whose query
    string parses leaves its arguments there, whether a route matched
    or not; a request whose query string does not parse sends nothing
    and leaves the arguments of the request before it.  No request
    touches the template files. *)
Theorem request_args_after_request
  (raw : string) (routes : dict callable) (st : state) :
  let st' := snd (_handle_request raw routes st) in
  fs st' = fs st
  /\ match _parse_args raw with
     | Ok args => Request_args st' = args
     | _ => Request_args st' = Request_args st /\ sent st' = sent st
     end.
Proof.
  rewrite handle_request_eq.
  destruct (_parse_args raw) as [args| |]; cbv zeta.
  - destruct (for_routes_state (PyStr.rstrip "/" (before "?" raw)) routes
                false [] (with_args st args)) as [Hfs Hargs].
    split; [exact Hfs | exact Hargs].
  - now repeat split.
  - now repeat split.
Qed.

(** X5.  Every answer has one of three shapes.  Nothing is sent; or the
    status line 404 and the content type are sent, then at most the
    body; or the status line 200 and the content type are sent, then
    one view function of the table is called, then at most the body
    is written.  The request ends normally exactly when a body was
    written. *)
Theorem answer_shape (raw : string) (routes : dict callable) (st : state) :
  let answer := _handle_request raw routes st in
  exists events,
    sent (snd answer) = (sent st ++ events)%list
    /\ ((events = [] /\ fst answer <> Ok tt)
        \/ (exists rest,
               events
               = ([send_response 404;
                   send_header "Content-type" "text/html";
                   end_headers] ++ rest)%list
               /\ ((rest = [] /\ fst answer <> Ok tt)
                   \/ exists body,
                        rest = [wfile_write body] /\ fst answer = Ok tt))
        \/ (exists func params rest,
               events
               = ([send_response 200;
                   send_header "Content-type" "text/html";
                   end_headers;
                   called func params] ++ rest)%list
               /\ In func (map snd routes)
               /\ ((rest = [] /\ fst answer <> Ok tt)
                   \/ exists body,
                        rest = [wfile_write body] /\ fst answer = Ok tt))).
Proof.
  cbv zeta. rewrite handle_request_eq.
  destruct (_parse_args raw) as [args| |].
  2,3: exists []; split; [now rewrite app_nil_r|left; split;
                          [reflexivity|discriminate]].
  rewrite for_routes_find. simpl Request_args.
  destruct (find_route _ args routes false []) as [[[[u f] ps]|]| |] eqn:F.
  - apply find_route_in in F.
    assert (Hin : In f (map snd routes))
      by (change f with (snd (u, f)); now apply in_map).
    rewrite send_response_eq. simpl Request_args. simpl fs. cbv zeta.
    destruct (f args ps) as [b|e|].
    + exists (ok_headers ++ [called f ps] ++ [wfile_write b])%list.
      split; [rewrite after_after; reflexivity|].
      right; right. exists f, ps, [wfile_write b].
      split; [reflexivity|]. split; [exact Hin|].
      right. now exists b.
    + destruct (render _ _ _) as [b| |].
      * exists (ok_headers ++ [called f ps] ++ [wfile_write b])%list.
        split; [rewrite after_after; reflexivity|].
        right; right. exists f, ps, [wfile_write b].
        split; [reflexivity|]. split; [exact Hin|].
        right. now exists b.
      * exists (ok_headers ++ [called f ps])%list.
        split; [reflexivity|].
        right; right. exists f, ps, [].
        split; [reflexivity|]. split; [exact Hin|].
        left. split; [reflexivity|discriminate].
      * exists (ok_headers ++ [called f ps])%list.
        split; [reflexivity|].
        right; right. exists f, ps, [].
        split; [reflexivity|]. split; [exact Hin|].
        left. split; [reflexivity|discriminate].
    + exists (ok_headers ++ [called f ps])%list.
      split; [reflexivity|].
      right; right. exists f, ps, [].
      split; [reflexivity|]. split; [exact Hin|].
      left. split; [reflexivity|discriminate].
  - rewrite not_found_eq. simpl fs. cbv zeta.
    destruct (render _ _ _) as [b| |].
    + exists [send_response 404; send_header "Content-type" "text/html";
              end_headers; wfile_write b].
      split; [rewrite after_after; reflexivity|].
      right; left. exists [wfile_write b]. split; [reflexivity|].
      right. now exists b.
    + exists [send_response 404; send_header "Content-type" "text/html";
              end_headers].
      split; [reflexivity|].
      right; left. exists []. split; [reflexivity|].
      left. split; [reflexivity|discriminate].
    + exists [send_response 404; send_header "Content-type" "text/html";
              end_headers].
      split; [reflexivity|].
      right; left. exists []. split; [reflexivity|].
      left. split; [reflexivity|discriminate].
  - exists []. split; [simpl; now rewrite app_nil_r|].
    left. split; [reflexivity|discriminate].
  - exists []. split; [simpl; now rewrite app_nil_r|].
    left. split; [reflexivity|discriminate].
Qed.

End Answers.

(** * Further properties of registration *)

Section Tables.

Lemma dict_set_new {V : Type} (k : string) (v : V) (d : dict V) :
  ~ In k (dict_keys d) -> dict_set k v d = (d ++ [(k, v)])%list.
Proof.
  induction d as [|[k' v'] d IH]; simpl; [reflexivity|].
  intros H. destruct (String.eqb_spec k' k) as [->|_].
  - exfalso. apply H. now left.
  - rewrite IH; [reflexivity|]. intros Hin. apply H. now right.
Qed.

Lemma dict_get_set_other {V : Type} (k k' : string) (v : V) (d : dict V) :
  k' <> k -> dict_get k (dict_set k' v d) = dict_get k d.
Proof.
  intros Hne. induction d as [|[k0 v0] d IH]; simpl.
  - destruct (String.eqb_spec k' k); [contradiction|reflexivity].
  - destruct (String.eqb_spec k0 k') as [->|H0]; simpl.
    + destruct (String.eqb_spec k' k); [contradiction|reflexivity].
    + destruct (String.eqb k0 k); [reflexivity|exact IH].
Qed.

Lemma dict_set_keys_new {V : Type} (k : string) (v : V) (d : dict V) :
  ~ In k (dict_keys d) ->
  dict_keys (dict_set k v d) = (dict_keys d ++ [k])%list.
Proof.
  intros H. rewrite dict_set_new by exact H.
  unfold dict_keys. now rewrite map_app.
Qed.

Lemma dict_set_nodup {V : Type} (k : string) (v : V) (d : dict V) :
  NoDup (dict_keys d) -> NoDup (dict_keys (dict_set k v d)).
Proof.
  intros H. destruct (in_dec string_dec k (dict_keys d)) as [Hin|Hout].
  - now rewrite dict_set_keys.
  - rewrite dict_set_keys_new by exact Hout.
    apply NoDup_app; [exact H | repeat constructor; intros [] | ].
    intros x Hx [<-|[]]. contradiction.
Qed.

Lemma normalized_table_set (url : string) (func : callable)
  (d : dict callable) :
  normalized_table d ->
  normalized_table (dict_set (PyStr.rstrip "/" url) func d).
Proof.
  intros [Hnd Hall]. split; [now apply dict_set_nodup|].
  destruct (in_dec string_dec (PyStr.rstrip "/" url) (dict_keys d))
    as [Hin|Hout].
  - now rewrite dict_set_keys.
  - rewrite dict_set_keys_new by exact Hout.
    apply Forall_app. split; [exact Hall|].
    constructor; [apply rstrip_no_trailing|constructor].
Qed.

Lemma wrapper_normalized (url : string) (func : callable)
  (l : list string) :
  forall self,
    normalized_table (get_routes self) ->
    normalized_table (post_routes self) ->
    normalized_table (get_routes (snd (wrapper url func l self)))
    /\ normalized_table (post_routes (snd (wrapper url func l self))).
Proof.
  induction l as [|m l IH]; intros self Hg Hp; cbn [wrapper].
  - now split.
  - destruct (String.eqb (PyStr.upper m) "GET").
    + apply IH; cbn [get_routes post_routes];
        [now apply normalized_table_set | exact Hp].
    + destruct (String.eqb (PyStr.upper m) "POST").
      * apply IH; cbn [get_routes post_routes];
          [exact Hg | now apply normalized_table_set].
      * now split.
Qed.

Lemma route_normalized (url : string) (method : method_arg)
  (func : callable) (self : Star) :
  normalized_table (get_routes self) ->
  normalized_table (post_routes self) ->
  normalized_table (get_routes (snd (route url method func self)))
  /\ normalized_table (post_routes (snd (route url method func self))).
Proof. unfold route. apply wrapper_normalized. Qed.

(** X6.  Whatever registrations are made on a new [Star], with whatever
    patterns and method names, valid or not, the keys of both tables
    stay pairwise distinct and without trailing slash; the
    normalization that the request loop applies to a stored pattern
    therefore changes nothing. *)
Theorem registered_tables_normalized
  (registrations : list (string * method_arg * callable)) :
  let self := register_all registrations Star_init in
  normalized_table (get_routes self)
  /\ normalized_table (post_routes self)
  /\ forall url func,
       In (url, func) (get_routes self) \/ In (url, func) (post_routes self) ->
       PyStr.rstrip "/" url = url.
Proof.
  cbv zeta.
  assert (H : forall self,
             normalized_table (get_routes self) ->
             normalized_table (post_routes self) ->
             normalized_table (get_routes (register_all registrations self))
             /\ normalized_table
                  (post_routes (register_all registrations self))).
  { induction registrations as [|[[url method] func] regs IH];
      intros self Hg Hp; [now split|].
    unfold register_all. cbn [fold_left]. apply IH.
    - now apply route_normalized.
    - now apply route_normalized. }
  assert (Hnil : normalized_table []) by (split; constructor).
  destruct (H Star_init Hnil Hnil) as [Hg Hp].
  split; [exact Hg|]. split; [exact Hp|].
  intros url func [Hin|Hin]; apply rstrip_fixed.
  - destruct Hg as [_ Hg]. rewrite Forall_forall in Hg. apply Hg.
    change url with (fst (url, func)). now apply in_map.
  - destruct Hp as [_ Hp]. rewrite Forall_forall in Hp. apply Hp.
    change url with (fst (url, func)). now apply in_map.
Qed.

(** X7.  A pattern that is not yet a key of the table becomes its last
    entry: the routes are tried in the order of their first
    registration. *)
Theorem registration_appends
  (url : string) (func : callable) (self : Star) :
  (~ In (PyStr.rstrip "/" url) (dict_keys (get_routes self)) ->
   get_routes (snd (get url func self))
   = (get_routes self ++ [(PyStr.rstrip "/" url, func)])%list)
  /\ (~ In (PyStr.rstrip "/" url) (dict_keys (post_routes self)) ->
      post_routes (snd (post url func self))
      = (post_routes self ++ [(PyStr.rstrip "/" url, func)])%list).
Proof.
  rewrite get_eq, post_eq. cbn [snd get_routes post_routes].
  split; intros H; now apply dict_set_new.
Qed.

Lemma GET_is_not_POST (m : string) : is_GET m = true -> is_POST m = false.
Proof.
  unfold is_GET, is_POST.
  destruct m as [|a [|b [|c [|d m]]]]; cbn [eq_ignore_case];
    try discriminate; rewrite ?andb_false_r; try discriminate.
  reflexivity.
Qed.

(** X8.  With a list of method names, the registrations made for the valid
    names in front of an invalid one stay when [ValueError] is
    raised: the call is not atomic. *)
Theorem route_list_not_atomic
  (url m : string) (l1 l2 : list string) (func : callable) (self : Star) :
  forallb (fun m => negb (invalid_method m)) l1 = true ->
  invalid_method m = true ->
  route url (MList (l1 ++ m :: l2)) func self
  = (Raise (ValueError ("Invalid method: " ++ m)),
     snd (route url (MList l1) func self)).
Proof.
  unfold route. revert self.
  induction l1 as [|m1 l1 IH]; intros self Hl1 Hm.
  - cbn [app wrapper snd]. rewrite upper_is_GET, upper_is_POST.
    unfold invalid_method in Hm.
    apply negb_true_iff, orb_false_elim in Hm as [-> ->]. reflexivity.
  - cbn [forallb] in Hl1. apply andb_prop in Hl1 as [H1 Hl1].
    cbn [app wrapper]. rewrite upper_is_GET, upper_is_POST.
    unfold invalid_method in H1. rewrite negb_involutive in H1.
    destruct (eq_ignore_case m1 "GET"); [now apply IH|].
    destruct (eq_ignore_case m1 "POST"); [now apply IH|discriminate].
Qed.

(** X9.  With a list of valid method names the call returns the handler
    and stores it once in the table of every method named: in the GET
    table when GET is named, in the POST table when POST is named. *)
Theorem route_list_all_valid
  (url : string) (l : list string) (func : callable) (self : Star) :
  forallb (fun m => negb (invalid_method m)) l = true ->
  route url (MList l) func self
  = (Ok func,
     {| get_routes :=
          if existsb is_GET l
          then dict_set (PyStr.rstrip "/" url) func (get_routes self)
          else get_routes self;
        post_routes :=
          if existsb is_POST l
          then dict_set (PyStr.rstrip "/" url) func (post_routes self)
          else post_routes self |}).
Proof.
  unfold route. revert self.
  induction l as [|m l IH]; intros self Hl.
  - destruct self. reflexivity.
  - cbn [forallb] in Hl. apply andb_prop in Hl as [Hm Hl].
    cbn [wrapper existsb]. rewrite upper_is_GET, upper_is_POST.
    unfold invalid_method in Hm. rewrite negb_involutive in Hm.
    fold (is_GET m). fold (is_POST m).
    destruct (is_GET m) eqn:EG.
    + rewrite (GET_is_not_POST m EG). rewrite IH by exact Hl.
      cbn [get_routes post_routes orb].
      rewrite dict_set_set.
      destruct (existsb is_GET l); reflexivity.
    + unfold is_GET in EG. unfold is_POST. rewrite EG in Hm.
      cbn [orb] in Hm. rewrite Hm. rewrite IH by exact Hl.
      cbn [get_routes post_routes orb].
      rewrite dict_set_set.
      destruct (existsb is_POST l); reflexivity.
Qed.

Lemma rstrip_app_slashes (n : nat) :
  forall s, PyStr.rstrip "/" (s ++ slashes n) = PyStr.rstrip "/" s.
Proof.
  induction n as [|n IH]; intros s; cbn [slashes].
  - f_equal. induction s as [|a s IHs]; simpl; [reflexivity|].
    now rewrite IHs.
  - change (String "/" (slashes n)) with ("/" ++ slashes n).
    rewrite <- append_assoc, IH. apply rstrip_app_slash.
Qed.

Lemma contains_slashes (n : nat) : PyStr.contains "?" (slashes n) = false.
Proof. induction n as [|n IH]; [reflexivity|exact IH]. Qed.

(** X10.  On a new [Star], a pattern without query mark registered for GET
    is served to the GET request for this pattern, however many
    trailing slashes the pattern and the request have; the POST
    request for it finds no route.  In particular the pattern [/] is
    stored under the empty key and serves the requests for the empty
    path and for [/]. *)
Theorem register_then_request
  (url : string) (m n : nat) (func : callable) (st : state) :
  PyStr.contains "?" url = false ->
  let self := snd (get (url ++ slashes m) func Star_init) in
  do_GET self (url ++ slashes n) st
  = _send_response func [] (with_args st [])
  /\ do_POST self (url ++ slashes n) st = not_found (with_args st []).
Proof.
  intros Hq self. unfold self, do_GET, do_POST.
  rewrite get_eq. cbn [snd get_routes post_routes Star_init dict_set].
  assert (Hq' : PyStr.contains "?" (url ++ slashes n) = false)
    by (rewrite contains_app, Hq, contains_slashes; reflexivity).
  rewrite !handle_request_eq, !parse_args_no_query by exact Hq'.
  rewrite !before_absent by exact Hq'.
  rewrite !for_routes_find, !rstrip_app_slashes. simpl Request_args.
  split; [|reflexivity].
  cbn [find_route].
  rewrite <- (rstrip_idempotent url) at 1. rewrite try_route_exact.
  reflexivity.
Qed.

End Tables.

(** * Further properties of the query string *)

Section QueryArguments.

Lemma parse_args_query (raw : string) :
  PyStr.contains "?" raw = true ->
  _parse_args raw = parse_parts (PyStr.split "&" (query_of raw)) [].
Proof.
  intros H. unfold _parse_args, query_of. rewrite H. cbn [negb].
  rewrite (split_present _ _ H).
  change (PyStr.index (before "?" raw :: PyStr.split "?" (behind "?" raw)) 1)
    with (PyStr.index (PyStr.split "?" (behind "?" raw)) 0).
  rewrite index_split_0. reflexivity.
Qed.

Lemma query_of_absent (raw : string) :
  PyStr.contains "?" raw = false -> query_of raw = EmptyString.
Proof.
  intros H. unfold query_of.
  assert (E : behind "?" raw = EmptyString).
  { induction raw as [|a s IH]; simpl in *; [reflexivity|].
    apply orb_false_elim in H as [Ha Hs]. rewrite Ha. now apply IH. }
  now rewrite E.
Qed.

Lemma last_value_acc (key : string) (parts : list string) :
  forall v,
    last_value key parts (Some v) =
    match last_value key parts None with
    | Some w => Some w
    | None => Some v
    end.
Proof.
  induction parts as [|part parts IH]; intros v; cbn [last_value];
    [reflexivity|].
  destruct (PyStr.contains "=" part && String.eqb (before "=" part) key).
  - rewrite (IH (behind "=" part)).
    destruct (last_value key parts None); reflexivity.
  - apply IH.
Qed.

Lemma spec_parse_parts_lookup (key : string) (parts : list string) :
  forall args,
    dict_get key (spec_parse_parts parts args) =
    match last_value key parts None with
    | Some v => Ok v
    | None => dict_get key args
    end.
Proof.
  induction parts as [|part parts IH]; intros args;
    cbn [spec_parse_parts last_value]; [reflexivity|].
  destruct (PyStr.contains "=" part); cbn [andb]; [|apply IH].
  rewrite IH.
  destruct (String.eqb_spec (before "=" part) key) as [->|Hne].
  - rewrite last_value_acc.
    destruct (last_value key parts None); [reflexivity|].
    apply dict_get_set.
  - destruct (last_value key parts None); [reflexivity|].
    now apply dict_get_set_other.
Qed.

Lemma spec_parse_parts_nodup (parts : list string) :
  forall args,
    NoDup (dict_keys args) -> NoDup (dict_keys (spec_parse_parts parts args)).
Proof.
  induction parts as [|part parts IH]; intros args H;
    cbn [spec_parse_parts]; [exact H|].
  destruct (PyStr.contains "=" part); apply IH; [|exact H].
  now apply dict_set_nodup.
Qed.

Lemma parse_args_spec (raw : string) (result : dict string) :
  _parse_args raw = Ok result ->
  result = spec_parse_parts (PyStr.split "&" (query_of raw)) [].
Proof.
  destruct (PyStr.contains "?" raw) eqn:H.
  - rewrite (parse_args_query _ H), parse_parts_spec.
    destruct (one_equals_at_most _); [|discriminate].
    now intros [= <-].
  - rewrite (parse_args_no_query _ H), (query_of_absent _ H).
    now intros [= <-].
Qed.

(** X11.  Looking a key up in the arguments of a request gives the value of
    the last part [key=value] of the query string, and raises
    [KeyError] when the query string has no part with this key; no
    key is stored twice. *)
Theorem parse_args_lookup (raw key : string) (result : dict string) :
  _parse_args raw = Ok result ->
  dict_get key result =
  match last_value key (PyStr.split "&" (query_of raw)) None with
  | Some v => Ok v
  | None => Raise (KeyError key)
  end
  /\ NoDup (dict_keys result).
Proof.
  intros H. apply parse_args_spec in H. subst result. split.
  - apply spec_parse_parts_lookup.
  - apply spec_parse_parts_nodup. constructor.
Qed.

Lemma behind_app (c : ascii) (a s : string) :
  PyStr.contains c a = false -> behind c (a ++ String c s) = s.
Proof.
  induction a as [|x a IH]; simpl.
  - now rewrite Ascii.eqb_refl.
  - intros H. apply orb_false_elim in H as [Hx Ha]. rewrite Hx. now apply IH.
Qed.

Lemma before_app (c : ascii) (a s : string) :
  PyStr.contains c a = false -> before c (a ++ String c s) = a.
Proof.
  induction a as [|x a IH]; simpl.
  - now rewrite Ascii.eqb_refl.
  - intros H. apply orb_false_elim in H as [Hx Ha]. rewrite Hx.
    now rewrite IH.
Qed.

Lemma contains_app_sep (c : ascii) (a s : string) :
  PyStr.contains c (a ++ String c s) = true.
Proof.
  rewrite contains_app. simpl. rewrite Ascii.eqb_refl.
  now rewrite orb_true_r.
Qed.

(** X12.  Only what stands between the first query mark and the second is
    read as the query string: a request with a second query mark is
    handled as the request cut in front of it. *)
Theorem second_query_mark_cuts
  (path query rest : string) (routes : dict callable) (st : state) :
  PyStr.contains "?" path = false ->
  PyStr.contains "?" query = false ->
  _parse_args (path ++ "?" ++ query ++ "?" ++ rest)
  = _parse_args (path ++ "?" ++ query)
  /\ _handle_request (path ++ "?" ++ query ++ "?" ++ rest) routes st
     = _handle_request (path ++ "?" ++ query) routes st.
Proof.
  intros Hp Hq.
  assert (Hargs : _parse_args (path ++ "?" ++ query ++ "?" ++ rest)
                  = _parse_args (path ++ "?" ++ query)).
  { change (path ++ "?" ++ query ++ "?" ++ rest)
      with (path ++ String "?" (query ++ String "?" rest)).
    change (path ++ "?" ++ query) with (path ++ String "?" query).
    rewrite !parse_args_query by apply contains_app_sep.
    unfold query_of. rewrite !behind_app by exact Hp.
    rewrite before_app by exact Hq.
    now rewrite before_absent by exact Hq. }
  split; [exact Hargs|].
  rewrite !handle_request_eq, Hargs.
  change (path ++ "?" ++ query ++ "?" ++ rest)
    with (path ++ String "?" (query ++ String "?" rest)).
  change (path ++ "?" ++ query) with (path ++ String "?" query).
  now rewrite !before_app by exact Hp.
Qed.

End QueryArguments.

(** * Further properties of [render] *)

Section Templates.

Lemma prefix_head (c a : ascii) (o s : string) :
  Ascii.eqb a c = false -> prefix (String c o) (String a s) = false.
Proof.
  intros H. cbn [prefix]. destruct (ascii_dec c a) as [->|_]; [|reflexivity].
  now rewrite Ascii.eqb_refl in H.
Qed.

Lemma prefix_app (o s : string) : prefix o (o ++ s) = true.
Proof.
  induction o as [|c o IH]; [now destruct s|].
  cbn [append prefix]. now destruct (ascii_dec c c).
Qed.

Lemma replace_from_skip (old new : string) (x : string) :
  forall rest,
    PyStr.replace_from (String.length x) old new (x ++ rest)
    = PyStr.replace_from 0 old new rest.
Proof.
  induction x as [|a x IH]; intros rest; [reflexivity|].
  cbn [String.length append PyStr.replace_from]. apply IH.
Qed.

Lemma replace_from_prefix (c : ascii) (o new b : string) :
  PyStr.contains c b = false ->
  forall s,
    PyStr.replace_from 0 (String c o) new (b ++ s)
    = b ++ PyStr.replace_from 0 (String c o) new s.
Proof.
  induction b as [|a b IH]; intros H s; [reflexivity|].
  cbn [PyStr.contains] in H. apply orb_false_elim in H as [Ha Hb].
  cbn [append PyStr.replace_from].
  rewrite (prefix_head c a o (b ++ s) Ha). now rewrite IH.
Qed.

Lemma replace_from_miss (old new : string) (a : ascii) (s : string) :
  prefix old (String a s) = false ->
  PyStr.replace_from 0 old new (String a s)
  = String a (PyStr.replace_from 0 old new s).
Proof. intros H. cbn [PyStr.replace_from]. now rewrite H. Qed.

Lemma replace_from_hit (c : ascii) (o new s : string) :
  PyStr.replace_from 0 (String c o) new (String c o ++ s)
  = new ++ PyStr.replace_from 0 (String c o) new s.
Proof.
  cbn [append PyStr.replace_from].
  change (String c (o ++ s)) with (String c o ++ s).
  rewrite prefix_app. cbn [String.length].
  replace (S (String.length o) - 1) with (String.length o) by lia.
  now rewrite replace_from_skip.
Qed.

Lemma replace_absent (c : ascii) (o new s : string) :
  PyStr.contains c s = false -> PyStr.replace (String c o) new s = s.
Proof.
  intros H. unfold PyStr.replace.
  induction s as [|a s IH]; [reflexivity|].
  cbn [PyStr.contains] in H. apply orb_false_elim in H as [Ha Hs].
  cbn [PyStr.replace_from]. rewrite (prefix_head c a o s Ha).
  now rewrite IH.
Qed.

Lemma append_empty (s : string) : s ++ EmptyString = s.
Proof. induction s as [|a s IH]; simpl; [reflexivity|now rewrite IH]. Qed.

(** X13.  A template without opening brace is returned as it is, whatever
    arguments are given. *)
Theorem render_without_placeholder
  (files : file_system) (template content : string) (args : dict string) :
  files template = Some content ->
  PyStr.contains "{" content = false ->
  render files template args = Ok content.
Proof.
  intros Hfile Hplain. unfold render. rewrite Hfile. f_equal.
  induction args as [|[key val] args IH]; [reflexivity|].
  cbn [fold_left]. cbn [append].
  rewrite (replace_absent "{" _ val content Hplain). exact IH.
Qed.

(** X14.  In a template whose only braces are those of the two placeholders
    [{{ title }}] and [{{ message }}], in this order, the title and
    the message take the place of their placeholders.  The message is
    inserted as it is, whatever characters it contains: nothing is
    escaped, and what it brings is not searched for placeholders. *)
Theorem render_inserts_verbatim
  (files : file_system) (template a b c title message : string) :
  files template
  = Some (a ++ "{{ title }}" ++ b ++ "{{ message }}" ++ c) ->
  PyStr.contains "{" a = false ->
  PyStr.contains "{" b = false ->
  PyStr.contains "{" c = false ->
  PyStr.contains "{" title = false ->
  render files template [("title", title); ("message", message)]
  = Ok (a ++ title ++ b ++ message ++ c).
Proof.
  intros Hfile Ha Hb Hc Ht. unfold render. rewrite Hfile. f_equal.
  cbn [fold_left].
  change ("{{ " ++ "title" ++ " }}") with "{{ title }}".
  change ("{{ " ++ "message" ++ " }}") with "{{ message }}".
  unfold PyStr.replace.
  (* the title *)
  rewrite (replace_from_prefix "{" _ title a Ha).
  rewrite replace_from_hit.
  rewrite (replace_from_prefix "{" _ title b Hb).
  assert (Hrest :
            PyStr.replace_from 0 "{{ title }}" title ("{{ message }}" ++ c)
            = "{{ message }}" ++ c).
  { change ("{{ message }}" ++ c)
      with (String "{" (String "{" (" message }}" ++ c))).
    rewrite !replace_from_miss by (vm_compute; reflexivity).
    rewrite (replace_from_prefix "{" _ title " message }}" eq_refl).
    now rewrite (replace_absent "{" "{ title }}" title c Hc :
                   PyStr.replace_from 0 "{{ title }}" title c = c). }
  rewrite Hrest.
  (* the message *)
  replace (a ++ title ++ b ++ "{{ message }}" ++ c)
    with (((a ++ title) ++ b) ++ "{{ message }}" ++ c)
    by (now rewrite !append_assoc).
  assert (Hfront : PyStr.contains "{" ((a ++ title) ++ b) = false)
    by (rewrite !contains_app, Ha, Ht, Hb; reflexivity).
  rewrite (replace_from_prefix "{" _ message _ Hfront).
  rewrite replace_from_hit.
  rewrite (replace_absent "{" "{ message }}" message c Hc : 
             PyStr.replace_from 0 "{{ message }}" message c = c).
  now rewrite !append_assoc.
Qed.

End Templates.

(** * Further properties of the converters *)

Section Converters.

Lemma run_split (cs : Re.cset) (s : string) :
  s = run cs s ++ after_run cs s.
Proof.
  induction s as [|a s IH]; cbn [run after_run]; [reflexivity|].
  destruct (Re.cset_mem cs a); [|reflexivity].
  cbn [append]. now rewrite <- IH.
Qed.

Lemma run_all_in (cs : Re.cset) (s : string) : all_in cs (run cs s) = true.
Proof.
  induction s as [|a s IH]; cbn [run]; [reflexivity|].
  destruct (Re.cset_mem cs a) eqn:E; [|reflexivity].
  cbn [all_in]. now rewrite E.
Qed.

Section Continuations.

Variable R : Type.

(** Before a continuation that wants the end of the subject, a
    repetition reads the whole subject or fails. *)
Lemma star_k_end (cs : Re.cset) (k : string -> option R) :
  (forall a t, k (String a t) = None) ->
  forall s,
    Re.star_k cs s k = if all_in cs s then k EmptyString else None.
Proof.
  intros Hk. induction s as [|a s IH]; cbn [Re.star_k all_in];
    [reflexivity|].
  destruct (Re.cset_mem cs a); cbn [andb]; [|apply Hk].
  rewrite IH. destruct (all_in cs s); [|apply Hk].
  destruct (k EmptyString); [reflexivity|apply Hk].
Qed.

(** Before a continuation that refuses the characters of the class, a
    repetition reads the longest run and does not come back. *)
Lemma star_k_greedy (cs : Re.cset) (k : string -> option R) :
  (forall a t, Re.cset_mem cs a = true -> k (String a t) = None) ->
  forall s, Re.star_k cs s k = k (after_run cs s).
Proof.
  intros Hk. induction s as [|a s IH]; cbn [Re.star_k after_run];
    [reflexivity|].
  destruct (Re.cset_mem cs a) eqn:E; [|reflexivity].
  rewrite IH.
  destruct (k (after_run cs s)) eqn:K; [reflexivity|].
  now apply Hk.
Qed.

End Continuations.

Lemma fullmatch_many1 (cs : Re.cset) (caps : list string) (s : string) :
  Re.items_k [Re.Atom (Re.Many1 cs)] Re.is_empty caps s =
  if negb (Re.is_empty s) && all_in cs s
  then Some (rev caps, EmptyString) else None.
Proof.
  cbn [Re.items_k]. destruct s as [|a s]; [reflexivity|].
  cbn [Re.atom_k Re.is_empty negb andb all_in].
  destruct (Re.cset_mem cs a); [|reflexivity].
  rewrite star_k_end by reflexivity. cbn [andb].
  destruct (all_in cs s); reflexivity.
Qed.

Lemma all_in_digits (s : string) : all_in Re.CDigit s = all_digits s.
Proof.
  induction s as [|a s IH]; [reflexivity|].
  cbn [all_in all_digits Re.cset_mem]. now rewrite IH.
Qed.

Lemma all_in_not_slash (s : string) :
  all_in (Re.CNotIn ["/"%char]) s = negb (PyStr.contains "/" s).
Proof.
  induction s as [|a s IH]; [reflexivity|].
  cbn [all_in PyStr.contains Re.cset_mem existsb]. rewrite IH.
  rewrite orb_false_r, negb_orb. reflexivity.
Qed.

Lemma decimal_nonnegative (s : string) :
  forall acc, (0 <= acc)%Z -> (0 <= decimal acc s)%Z.
Proof.
  induction s as [|a s IH]; intros acc H; cbn [decimal]; [exact H|].
  apply IH. lia.
Qed.

(** X15.  The text that the fragment of the [int] converter accepts is the
    non-empty runs of digits, and [convert] turns every such text of
    at most 4300 digits into a non-negative integer without raising. *)
Theorem int_converter_contract (s : string) :
  Re.fullmatch (regex IntConverter) s
  = Ok (if negb (Re.is_empty s) && all_digits s then Some [] else None)
  /\ (negb (Re.is_empty s) && all_digits s = true ->
      String.length s <= 4300 ->
      exists n, (0 <= n)%Z /\ convert IntConverter s = Ok (VInt n)).
Proof.
  split.
  - unfold Re.fullmatch.
    change (Re.compile (regex IntConverter))
      with (Ok [Re.Atom (Re.Many1 Re.CDigit)] : result Re.regex).
    cbn [rbind]. rewrite fullmatch_many1, all_in_digits.
    destruct (negb (Re.is_empty s) && all_digits s); reflexivity.
  - intros H Hlen. apply andb_prop in H as [Hne Hd].
    exists (decimal 0 s). split; [apply decimal_nonnegative; lia|].
    cbn [convert IntConverter]. unfold int.
    destruct s as [|a s]; [discriminate Hne|].
    rewrite Hd. apply Nat.leb_le in Hlen. now rewrite Hlen.
Qed.

(** X16.  The text that the fragment of the [string] converter accepts is
    the non-empty texts without slash, and [convert] gives every text
    back as it is. *)
Theorem string_converter_contract (s : string) :
  Re.fullmatch (regex StringConverter) s
  = Ok (if negb (Re.is_empty s) && negb (PyStr.contains "/" s)
        then Some [] else None)
  /\ convert StringConverter s = Ok (VStr s).
Proof.
  split; [|reflexivity].
  unfold Re.fullmatch.
  change (Re.compile (regex StringConverter))
    with (Ok [Re.Atom (Re.Many1 (Re.CNotIn ["/"%char]))] : result Re.regex).
  cbn [rbind]. rewrite fullmatch_many1, all_in_not_slash.
  destruct (negb (Re.is_empty s) && negb (PyStr.contains "/" s));
    reflexivity.
Qed.

Lemma split_app_sep (sep : ascii) (i f : string) :
  PyStr.contains sep i = false ->
  PyStr.split sep (i ++ String sep f) = i :: PyStr.split sep f.
Proof.
  intros H.
  rewrite split_present by apply contains_app_sep.
  now rewrite before_app, behind_app.
Qed.

Lemma digits_no_dot (s : string) :
  all_digits s = true -> PyStr.contains "." s = false.
Proof.
  induction s as [|a s IH]; [reflexivity|].
  cbn [all_digits PyStr.contains]. intros H.
  apply andb_prop in H as [Ha Hs]. rewrite (IH Hs), orb_false_r.
  destruct (Ascii.eqb_spec a ".") as [->|_]; [discriminate Ha|reflexivity].
Qed.

(** X17.  Every text that the fragment of the [float] converter accepts,
    digits, a dot and digits, is converted without raising; a text
    without dot, such as a bare integer, is not accepted. *)
Theorem float_converter_contract (s : string) (groups : list string) :
  (Re.fullmatch (regex FloatConverter) s = Ok (Some groups) ->
   groups = [] /\ convert FloatConverter s = Ok (VFloat s))
  /\ (PyStr.contains "." s = false ->
      Re.fullmatch (regex FloatConverter) s = Ok None).
Proof.
  unfold Re.fullmatch.
  change (Re.compile (regex FloatConverter))
    with (Ok [Re.Atom (Re.Many1 Re.CDigit);
              Re.Atom (Re.One (Re.CLit "."));
              Re.Atom (Re.Many1 Re.CDigit)] : result Re.regex).
  cbn [rbind Re.items_k].
  change (fun rest : string =>
            Re.atom_k (Re.Many1 Re.CDigit) rest (Re.items_k [] Re.is_empty []))
    with (Re.items_k [Re.Atom (Re.Many1 Re.CDigit)] Re.is_empty []).
  set (kdot := Re.atom_k (Re.One (Re.CLit "."))).
  assert (Hkdot : forall a t,
             Re.cset_mem Re.CDigit a = true ->
             kdot (String a t)
               (Re.items_k [Re.Atom (Re.Many1 Re.CDigit)] Re.is_empty [])
             = None).
  { intros a t Ha. unfold kdot. cbn [Re.atom_k Re.cset_mem].
    destruct (Ascii.eqb_spec a ".") as [->|_]; [discriminate Ha|reflexivity]. }
  destruct s as [|d s]; [split; [discriminate|reflexivity]|].
  cbn [Re.atom_k].
  destruct (Re.cset_mem Re.CDigit d) eqn:Hd;
    [|split; [discriminate|reflexivity]].
  rewrite (star_k_greedy Re.CDigit
             (fun rest =>
                kdot rest
                  (Re.items_k [Re.Atom (Re.Many1 Re.CDigit)] Re.is_empty []))
             Hkdot).
  pose proof (run_split Re.CDigit s) as Hsplit.
  pose proof (run_all_in Re.CDigit s) as Hrun.
  rewrite all_in_digits in Hrun.
  destruct (after_run Re.CDigit s) as [|c f] eqn:Hafter.
  { split; [discriminate|reflexivity]. }
  unfold kdot. cbn [Re.atom_k Re.cset_mem].
  destruct (Ascii.eqb_spec c ".") as [->|Hc].
  - rewrite fullmatch_many1, all_in_digits. split.
    + destruct (negb (Re.is_empty f) && all_digits f) eqn:Hf;
        [|discriminate].
      intros [= <-]. split; [reflexivity|].
      apply andb_prop in Hf as [Hne Hf].
      cbn [convert FloatConverter]. unfold float.
      rewrite Hsplit.
      change (String d (run Re.CDigit s ++ String "." f))
        with (String d (run Re.CDigit s) ++ String "." f).
      assert (Hi : all_digits (String d (run Re.CDigit s)) = true)
        by (cbn [all_digits]; change (Re.is_digit d)
              with (Re.cset_mem Re.CDigit d); now rewrite Hd, Hrun).
      rewrite split_app_sep by now apply digits_no_dot.
      rewrite split_absent by now apply digits_no_dot.
      rewrite Hi, Hf, Hne. reflexivity.
    + intros Hdot. exfalso. rewrite Hsplit in Hdot.
      change (String d (run Re.CDigit s ++ String "." f))
        with (String d (run Re.CDigit s) ++ String "." f) in Hdot.
      now rewrite contains_app_sep in Hdot.
  - split; [discriminate|reflexivity].
Qed.

End Converters.

(** * Further properties of the parameters *)

Section Parameters.

Section Successes.

Variable R : Type.

(** A success of a pattern is a success of what follows it. *)
Lemma star_k_some (cs : Re.cset) (k : string -> option R) (o : R) :
  forall s, Re.star_k cs s k = Some o -> exists r, k r = Some o.
Proof.
  induction s as [|a s IH]; cbn [Re.star_k]; intros H.
  - now exists EmptyString.
  - destruct (Re.cset_mem cs a); [|now exists (String a s)].
    destruct (Re.star_k cs s k) as [o'|]; [|now exists (String a s)].
    apply IH. exact H.
Qed.

Lemma atom_k_some (x : Re.atom) (s : string) (k : string -> option R)
  (o : R) :
  Re.atom_k x s k = Some o -> exists r, k r = Some o.
Proof.
  destruct x as [cs|cs|cs|cs], s as [|a s]; cbn [Re.atom_k];
    try discriminate.
  - destruct (Re.cset_mem cs a); [|discriminate]. intros H. now exists s.
  - destruct (Re.cset_mem cs a); [|discriminate]. apply star_k_some.
  - apply star_k_some.
  - apply star_k_some.
  - intros H. now exists EmptyString.
  - destruct (Re.cset_mem cs a); [|intros H; now exists (String a s)].
    destruct (k s) as [o'|] eqn:E.
    + intros [= <-]. now exists s.
    + intros H. now exists (String a s).
Qed.

Lemma atoms_k_some (xs : list Re.atom) (k : string -> option R) (o : R) :
  forall s, Re.atoms_k xs s k = Some o -> exists r, k r = Some o.
Proof.
  induction xs as [|x xs IH]; intros s; cbn [Re.atoms_k]; intros H.
  - now exists s.
  - apply atom_k_some in H as [r H]. now apply IH in H.
Qed.

Lemma alts_k_some (alts : list (list Re.atom)) (k : string -> option R)
  (o : R) :
  forall s, Re.alts_k alts s k = Some o -> exists r, k r = Some o.
Proof.
  induction alts as [|alt alts IH]; intros s; cbn [Re.alts_k];
    [discriminate|].
  destruct (Re.atoms_k alt s k) as [o'|] eqn:E.
  - intros [= <-]. now apply atoms_k_some in E.
  - apply IH.
Qed.

End Successes.

(** A match has one capture for each group of the pattern. *)
Lemma items_k_groups (r : Re.regex) (stop : string -> bool) :
  forall caps s c rest,
    Re.items_k r stop caps s = Some (c, rest) ->
    length c = length caps + count_groups r.
Proof.
  induction r as [|[x|name alts] r IH]; intros caps s c rest;
    cbn [Re.items_k count_groups].
  - destruct (stop s); [|discriminate]. intros [= <- <-].
    rewrite length_rev. lia.
  - intros H. apply atom_k_some in H as [r' H]. now apply IH in H.
  - intros H. apply alts_k_some in H as [r' H]. apply IH in H.
    cbn [length] in H. lia.
Qed.

(** For a pattern with one group [re.findall] returns strings. *)
Lemma findall_from_one_group (r : Re.regex) :
  count_groups r = 1 ->
  forall s skip l,
    Re.findall_from r skip s = Ok l ->
    Forall (fun x => exists g, x = Re.FStr g) l.
Proof.
  intros Hr. induction s as [|a s IH]; intros skip l; cbn [Re.findall_from].
  - destruct (Re.match_prefix r ""); [discriminate|].
    intros [= <-]. constructor.
  - destruct skip as [|skip]; [|apply IH].
    destruct (Re.match_prefix r (String a s)) as [[caps rest]|] eqn:E;
      [|apply IH].
    destruct (String.length (String a s) - String.length rest);
      [discriminate|].
    destruct (Re.findall_from r n s) as [out| |] eqn:F; cbn [rbind];
      try discriminate.
    intros [= <-]. constructor; [|eapply IH, F].
    apply items_k_groups in E. rewrite Hr in E. cbn [length Nat.add] in E.
    destruct caps as [|g [|g' caps]]; try discriminate E. now exists g.
Qed.

(** The first element of a string is one character. *)
Lemma item0_heads (l : list Re.found) :
  Forall (fun x => exists g, x = Re.FStr g) l ->
  forall heads,
    rmap Re.item0 l = Ok heads ->
    Forall (fun h => String.length h = 1) heads.
Proof.
  induction 1 as [|x l [g ->] _ IH]; cbn [rmap]; intros heads.
  - intros [= <-]. constructor.
  - cbn [Re.item0]. destruct g as [|a g]; cbn [PyStr.first_char rbind];
      [discriminate|].
    destruct (rmap Re.item0 l) as [hs| |]; cbn [rbind]; try discriminate.
    intros [= <-]. constructor; [reflexivity|now apply IH].
Qed.

(** No converter is registered under one character. *)
Lemma one_character_key (h : string) :
  String.length h = 1 -> dict_get h converters = Raise (KeyError h).
Proof.
  destruct h as [|a [|b h]]; try discriminate. intros _.
  unfold converters. cbn [dict_get String.eqb].
  destruct (Ascii.eqb "i" a), (Ascii.eqb "s" a), (Ascii.eqb "f" a);
    reflexivity.
Qed.

Lemma converted_params (heads groups : list string) (ps : list value) :
  Forall (fun h => String.length h = 1) heads ->
  rmap (fun '(conv, val) =>
          (c <- dict_get conv converters ;; convert c val)%result)
       (combine heads groups) = Ok ps ->
  ps = [].
Proof.
  intros [|h heads' Hh _]; [cbn; now intros [= <-]|].
  destruct groups as [|g groups]; [cbn; now intros [= <-]|].
  cbn [combine rmap]. rewrite (one_character_key _ Hh). cbn [rbind].
  discriminate.
Qed.

Lemma try_route_captures (path url : string) (args : dict string)
  (matched : bool) (params0 params : list value) :
  try_route path args url false params0 = Ok (matched, params) ->
  params = params0
  \/ params = []
  \/ (matched = true /\ untyped_captures path url params).
Proof.
  unfold try_route. intros H.
  destruct (String.eqb path (PyStr.rstrip "/" url)).
  - cbn [negb] in H. rewrite andb_false_r in H.
    cbn [rbind negb] in H. rewrite andb_false_r in H.
    injection H as _ <-. now left.
  - destruct (String.eqb path "/"); cbn [negb andb rbind] in H.
    + injection H as _ <-. now left.
    + destruct (Re.sub _ _ _) as [p1| |]; cbn [rbind] in H;
        try discriminate H.
      destruct (Re.fullmatch p1 path) as [[g1|]| |]; cbn [rbind] in H;
        try discriminate H.
      { unfold Re.findall in H.
        assert (C : exists r,
                   Re.compile "<(int|string|float):\w+>" = Ok r
                   /\ count_groups r = 1)
          by (eexists; split; [vm_compute; reflexivity|reflexivity]).
        destruct C as (r & C & Hr). rewrite C in H. cbn [rbind] in H.
        destruct (Re.findall_from r 0 _) as [convs| |] eqn:F;
          cbn [rbind] in H; try discriminate H.
        destruct (rmap Re.item0 convs) as [heads| |] eqn:I; cbn [rbind] in H;
          try discriminate H.
        destruct (rmap _ (combine heads g1)) as [ps| |] eqn:P;
          cbn [rbind negb andb] in H; try discriminate H.
        injection H as _ <-. right; left.
        apply converted_params in P; [exact P|].
        eapply item0_heads; [|exact I].
        eapply findall_from_one_group; [exact Hr|exact F]. }
      cbn [negb andb] in H.
      change (dict_get "string" converters) with (Ok StringConverter) in H.
      cbn [rbind] in H.
      destruct (Re.sub _ _ _) as [p2| |] eqn:S2; cbn [rbind] in H;
        try discriminate H.
      destruct (Re.fullmatch p2 path) as [[g2|]| |] eqn:F2; cbn [rbind] in H;
        try discriminate H.
      * injection H as <- <-. right; right. split; [reflexivity|].
        exists p2, g2. now repeat split.
      * injection H as _ <-. now left.
Qed.

Lemma find_route_captures (path : string) (args : dict string)
  (items : list (string * callable)) :
  forall url func params,
    find_route path args items false [] = Ok (Some (url, func, params)) ->
    In (url, func) items
    /\ (params = [] \/ untyped_captures path url params).
Proof.
  induction items as [|[u f] items IH]; intros url func params;
    cbn [find_route]; [discriminate|].
  destruct (try_route path args u false []) as [[[|] ps]| |] eqn:E;
    cbn [rbind]; try discriminate.
  - intros [= <- <- <-]. split; [now left|].
    destruct (try_route_captures _ _ _ _ E) as [->|[->|[_ H]]];
      [now left|now left|now right].
  - destruct (try_route_captures _ _ _ _ E) as [->|[->|[H _]]];
      try discriminate H.
    + intros H. destruct (IH _ _ _ H) as [Hin Hps]. split; [now right|exact Hps].
    + intros H. destruct (IH _ _ _ H) as [Hin Hps]. split; [now right|exact Hps].
Qed.

(** X18.  The typed rule never contributes a parameter, so that no
    result of a converter reaches a view function.  Whenever trying
    a route succeeds, its parameters are none, or they are the
    captures of the untyped pattern, passed on as they are: the
    typed rule looks the converters up by one character and so
    raises whenever it has a capture to convert.  On the trace,
    every call made by a request has as positional parameters none,
    or the untyped captures of a route of the table. *)
Theorem parameters_are_untyped_captures
  (raw : string) (routes : dict callable) (st : state) :
  (forall path args url matched params,
      try_route path args url false [] = Ok (matched, params) ->
      params = [] \/ (matched = true /\ untyped_captures path url params))
  /\ (forall func params,
         In (called func params) (sent (snd (_handle_request raw routes st))) ->
         In (called func params) (sent st)
         \/ params = []
         \/ exists url,
              In (url, func) routes
              /\ untyped_captures (PyStr.rstrip "/" (before "?" raw)) url
                   params).
Proof.
  split.
  - intros path args url matched params H.
    destruct (try_route_captures _ _ _ _ H) as [->|[->|H']];
      [now left|now left|now right].
  - intros func params. rewrite handle_request_eq.
    destruct (_parse_args raw) as [args| |]; [|now left|now left].
    rewrite for_routes_find. simpl Request_args.
    destruct (find_route _ args routes false []) as [[[[u f] ps]|]| |] eqn:F;
      [| |now left|now left].
    + apply find_route_captures in F as [Hin Hps].
      rewrite send_response_eq. simpl Request_args. simpl fs. cbv zeta.
      assert (Hcall : forall tail,
                 In (called func params)
                    (sent (with_args st args)
                     ++ (ok_headers ++ [called f ps]) ++ tail)%list ->
                 (forall e, In e tail -> e <> called func params) ->
                 In (called func params) (sent st)
                 \/ params = []
                 \/ exists url,
                      In (url, func) routes
                      /\ untyped_captures
                           (PyStr.rstrip "/" (before "?" raw)) url params).
      { intros tail Hcalled Htail.
        apply in_app_or in Hcalled as [Hcalled|Hcalled]; [now left|].
        apply in_app_or in Hcalled as [Hcalled|Hcalled].
        - right. cbn in Hcalled.
          destruct Hcalled as [E|[E|[E|[E|[]]]]]; try discriminate E.
          injection E as <- <-.
          destruct Hps as [->|Hps]; [now left|right; now exists u].
        - now destruct (Htail _ Hcalled). }
      destruct (f args ps) as [b|e|].
      * intros Hcalled. apply (Hcall [wfile_write b]).
        -- cbn [snd after sent] in Hcalled.
           now rewrite <- app_assoc in Hcalled.
        -- intros e [<-|[]]. discriminate.
      * destruct (render _ _ _) as [b| |]; intros Hcalled.
        -- apply (Hcall [wfile_write b]).
           ++ cbn [snd after sent] in Hcalled.
              now rewrite <- app_assoc in Hcalled.
           ++ intros e' [<-|[]]. discriminate.
        -- apply (Hcall []); [|intros e' []].
           cbn [snd after sent] in Hcalled. now rewrite app_nil_r.
        -- apply (Hcall []); [|intros e' []].
           cbn [snd after sent] in Hcalled. now rewrite app_nil_r.
      * intros Hcalled. apply (Hcall []); [|intros e' []].
        cbn [snd after sent] in Hcalled. now rewrite app_nil_r.
    + rewrite not_found_eq. simpl fs. cbv zeta.
      destruct (render _ _ _) as [b| |]; cbn [snd after sent with_args];
        rewrite <- ?app_assoc;
        intros Hcalled; apply in_app_or in Hcalled as [Hcalled|Hcalled];
        try (now left); exfalso; cbn in Hcalled;
        repeat (destruct Hcalled as [Hcalled|Hcalled];
                [discriminate Hcalled|]);
        exact Hcalled.
Qed.

End Parameters.

(** * Further properties of the rules *)

Section StaticRoutes.

Lemma no_placeholder_ahead (r0 : Re.regex) :
  forall s,
    PyStr.contains "<" s = false ->
    forall skip,
      Re.findall_from (Re.Atom (Re.One (Re.CLit "<")) :: r0) skip s = Ok [].
Proof.
  induction s as [|a s IH]; intros H skip; cbn [Re.findall_from].
  - reflexivity.
  - cbn [PyStr.contains] in H. apply orb_false_elim in H as [Ha Hs].
    destruct skip as [|skip]; [|now apply IH].
    unfold Re.match_prefix. cbn [Re.items_k Re.atom_k Re.cset_mem].
    rewrite Ha. now apply IH.
Qed.

Lemma typed_pattern :
  exists r0,
    Re.compile "<(int|string|float):(\w+)>"
    = Ok (Re.Atom (Re.One (Re.CLit "<"))
          :: Re.Group None [literals "int"; literals "string"; literals "float"]
          :: Re.Atom (Re.One (Re.CLit ":")) :: r0).
Proof. eexists. vm_compute. reflexivity. Qed.

Lemma untyped_pattern :
  Re.compile "<(\w+)>"
  = Ok [Re.Atom (Re.One (Re.CLit "<"));
        Re.Group None [[Re.Many1 Re.CWord]];
        Re.Atom (Re.One (Re.CLit ">"))].
Proof. vm_compute. reflexivity. Qed.

Lemma try_route_static (path url : string) (args : dict string)
  (params : list value) :
  static (PyStr.rstrip "/" url) = true ->
  try_route path args url false params
  = Ok (String.eqb path (PyStr.rstrip "/" url), params).
Proof.
  intros Hs. unfold static in Hs. apply andb_prop in Hs as [Hplain Hlt].
  apply negb_true_iff in Hlt.
  destruct (String.eqb path (PyStr.rstrip "/" url)) eqn:E.
  - apply String.eqb_eq in E. subst path. apply try_route_exact.
  - unfold try_route. rewrite E.
    destruct (String.eqb path "/"); cbn [negb andb rbind].
    + rewrite andb_false_r. reflexivity.
    + unfold Re.sub.
      destruct typed_pattern as [r0 ->]. rewrite untyped_pattern.
      cbn [rbind].
      rewrite sub_from_no_match by (now apply no_placeholder_ahead).
      cbn [rbind]. rewrite (@fullmatch_plain _ path Hplain), E.
      cbn [rbind negb andb].
      change (dict_get "string" converters) with (Ok StringConverter).
      cbn [rbind].
      rewrite sub_from_no_match by (now apply no_placeholder_ahead).
      cbn [rbind]. rewrite (@fullmatch_plain _ path Hplain), E.
      cbn [rbind]. rewrite andb_false_r. reflexivity.
Qed.

Lemma find_route_static (path : string) (args : dict string)
  (items : list (string * callable)) (params : list value) :
  static_table items ->
  find_route path args items false params =
  Ok (match dict_get path items with
      | Ok func => Some (path, func, params)
      | _ => None
      end).
Proof.
  unfold static_table, dict_keys.
  induction items as [|[url func] items IH]; intros H; [reflexivity|].
  cbn [map fst] in H. inversion H as [|? ? [Hs Hn] Hrest]; subst.
  cbn [find_route dict_get].
  rewrite try_route_static by (now rewrite Hn). rewrite Hn. cbn [rbind].
  rewrite (String.eqb_sym url path).
  destruct (String.eqb_spec path url) as [->|_]; [reflexivity|].
  now apply IH.
Qed.

(** X19.  With a table of patterns without metacharacter and without
    placeholder, the router is a dictionary: the request is answered
    by the view function stored under its normalized path, called on
    no positional parameter, and by the 404 page when the path is not
    a key. *)
Theorem static_table_is_lookup
  (raw : string) (routes : dict callable) (args : dict string) (st : state) :
  static_table routes ->
  _parse_args raw = Ok args ->
  _handle_request raw routes st =
  match dict_get (PyStr.rstrip "/" (before "?" raw)) routes with
  | Ok func => _send_response func [] (with_args st args)
  | _ => not_found (with_args st args)
  end.
Proof.
  intros Htable Hargs.
  rewrite handle_request_eq, Hargs, for_routes_find. simpl Request_args.
  rewrite find_route_static by exact Htable.
  destruct (dict_get _ routes); reflexivity.
Qed.

End StaticRoutes.

Section OnePlaceholder.

Lemma word_character (a : ascii) :
  Re.is_word a = true ->
  Re.special a = false
  /\ Ascii.eqb a "<" = false /\ Ascii.eqb a ">" = false
  /\ Ascii.eqb a ":" = false.
Proof.
  destruct a as [[] [] [] [] [] [] [] []]; vm_compute; intros H;
    try discriminate H; repeat split.
Qed.

Lemma word_plain (name : string) :
  Re.all_word name = true ->
  plain name = true /\ PyStr.contains "<" name = false.
Proof.
  induction name as [|a name IH]; [now split|].
  cbn [Re.all_word plain PyStr.contains]. intros H.
  apply andb_prop in H as [Ha Hn].
  destruct (word_character _ Ha) as (-> & -> & _ & _).
  exact (IH Hn).
Qed.

Lemma plain_app (s t : string) : plain (s ++ t) = plain s && plain t.
Proof.
  induction s as [|a s IH]; [reflexivity|].
  cbn [append plain]. now rewrite IH, andb_assoc.
Qed.

Lemma string_length_app (s t : string) :
  String.length (s ++ t) = String.length s + String.length t.
Proof.
  induction s as [|a s IH]; [reflexivity|].
  cbn [append String.length]. now rewrite IH.
Qed.

Lemma append_cancel_l (p x y : string) : p ++ x = p ++ y -> x = y.
Proof.
  induction p as [|a p IH]; [trivial|].
  cbn [append]. intros [= H]. now apply IH.
Qed.

Lemma append_cancel_r (q : string) :
  forall x y, x ++ q = y ++ q -> x = y.
Proof.
  induction x as [|a x IH]; intros [|b y] H.
  - reflexivity.
  - apply (f_equal String.length) in H.
    rewrite !string_length_app in H. cbn [String.length] in H. lia.
  - apply (f_equal String.length) in H.
    rewrite !string_length_app in H. cbn [String.length] in H. lia.
  - cbn [append] in H. injection H as <- H. f_equal. now apply IH.
Qed.

Lemma ends_with_app (c b : ascii) (t : string) :
  forall x, ends_with c (x ++ String b t) = ends_with c (String b t).
Proof.
  induction x as [|a x IH]; [reflexivity|].
  cbn [append]. rewrite <- IH.
  destruct x; reflexivity.
Qed.

Lemma strip_prefix_some (p : string) :
  forall s r, strip_prefix p s = Some r -> s = p ++ r.
Proof.
  induction p as [|a p IH]; intros s r; cbn [strip_prefix].
  - now intros [= ->].
  - destruct s as [|b s]; [discriminate|].
    destruct (Ascii.eqb_spec a b) as [->|_]; [|discriminate].
    intros H. cbn [append]. f_equal. now apply IH.
Qed.

Lemma strip_prefix_app (p s : string) : strip_prefix p (p ++ s) = Some s.
Proof.
  induction p as [|a p IH]; [reflexivity|].
  cbn [append strip_prefix]. now rewrite Ascii.eqb_refl.
Qed.

Lemma consumed_app (w t : string) : Re.consumed (w ++ t) t = w.
Proof.
  unfold Re.consumed. rewrite string_length_app.
  replace (String.length w + String.length t - String.length t)
    with (String.length w) by lia.
  induction w as [|a w IH]; [now destruct t|].
  cbn [append String.length substring]. now rewrite IH.
Qed.

Lemma items_k_literal_prefix (p : string) (r : Re.regex)
  (stop : string -> bool) :
  forall caps s,
    Re.items_k (literal p ++ r)%list stop caps s =
    match strip_prefix p s with
    | Some rest => Re.items_k r stop caps rest
    | None => None
    end.
Proof.
  induction p as [|a p IH]; intros caps s; [reflexivity|].
  cbn [literal app Re.items_k Re.atom_k strip_prefix].
  destruct s as [|b s]; [reflexivity|].
  cbn [Re.cset_mem].
  destruct (Ascii.eqb_spec b a) as [->|N].
  - rewrite Ascii.eqb_refl. apply IH.
  - destruct (Ascii.eqb_spec a b) as [->|_]; [contradiction|reflexivity].
Qed.

Section Backtracking.

Variable R : Type.

Lemma atoms_k_literals (w : string) (k : string -> option R) :
  forall s,
    Re.atoms_k (literals w) s k =
    match strip_prefix w s with
    | Some r => k r
    | None => None
    end.
Proof.
  induction w as [|a w IH]; intros s; [reflexivity|].
  cbn [literals Re.atoms_k Re.atom_k strip_prefix].
  destruct s as [|b s]; [reflexivity|].
  cbn [Re.cset_mem].
  destruct (Ascii.eqb_spec b a) as [->|N].
  - rewrite Ascii.eqb_refl. apply IH.
  - destruct (Ascii.eqb_spec a b) as [->|_]; [contradiction|reflexivity].
Qed.

(** What a repetition has read when it succeeds. *)
Lemma star_k_split (cs : Re.cset) (k : string -> option R) (o : R) :
  forall s,
    Re.star_k cs s k = Some o ->
    exists c r, s = c ++ r /\ all_in cs c = true /\ k r = Some o.
Proof.
  induction s as [|a s IH]; cbn [Re.star_k]; intros H.
  - now exists EmptyString, EmptyString.
  - destruct (Re.cset_mem cs a) eqn:M;
      [|now exists EmptyString, (String a s)].
    destruct (Re.star_k cs s k) as [o'|] eqn:E;
      [|now exists EmptyString, (String a s)].
    injection H as <-.
    destruct (IH eq_refl) as (c & r & -> & Hc & Hk).
    exists (String a c), r. cbn [append all_in]. now rewrite M, Hc.
Qed.

(** A repetition in front of a continuation that has one way to
    succeed. *)
Lemma star_k_any (cs : Re.cset) (k : string -> option R) (v : R) :
  (forall r o, k r = Some o -> o = v) ->
  forall s, k s = Some v -> Re.star_k cs s k = Some v.
Proof.
  intros Hk [|a s] Hs; cbn [Re.star_k]; [exact Hs|].
  destruct (Re.cset_mem cs a); [|exact Hs].
  destruct (Re.star_k cs s k) as [o|] eqn:E; [|exact Hs].
  apply star_k_some in E as [r E]. now rewrite (Hk _ _ E).
Qed.

Lemma star_k_suffix (cs : Re.cset) (k : string -> option R) (v : R)
  (q : string) :
  (forall r o, k r = Some o -> o = v) ->
  k q = Some v ->
  forall c, all_in cs c = true -> Re.star_k cs (c ++ q) k = Some v.
Proof.
  intros Hk Hq. induction c as [|a c IH]; intros Hc.
  - now apply star_k_any.
  - cbn [all_in] in Hc. apply andb_prop in Hc as [Ha Hc].
    cbn [append Re.star_k]. now rewrite Ha, IH.
Qed.

End Backtracking.

Lemma after_run_app (cs : Re.cset) (b : ascii) (t : string) :
  Re.cset_mem cs b = false ->
  forall w, all_in cs w = true -> after_run cs (w ++ String b t) = String b t.
Proof.
  intros Hb. induction w as [|a w IH]; intros Hw.
  - cbn [append after_run]. now rewrite Hb.
  - cbn [all_in] in Hw. apply andb_prop in Hw as [Ha Hw].
    cbn [append after_run]. now rewrite Ha, IH.
Qed.

Lemma all_in_word (w : string) : all_in Re.CWord w = Re.all_word w.
Proof.
  induction w as [|a w IH]; [reflexivity|].
  cbn [all_in Re.all_word Re.cset_mem]. now rewrite IH.
Qed.

(** Behind a word, the first character that is not of a word is not
    a colon when it is the closing bracket of a placeholder. *)
Lemma no_colon_after_word (tail : string) :
  forall name w r,
    Re.all_word name = true ->
    Re.all_word w = true ->
    name ++ String ">" tail <> w ++ String ":" r.
Proof.
  induction name as [|a name IH]; intros [|b w] r Hn Hw; cbn [append].
  - discriminate.
  - cbn [Re.all_word] in Hw. apply andb_prop in Hw as [Hb _].
    intros [= <- _]. now destruct (word_character _ Hb) as (_ & _ & E & _).
  - cbn [Re.all_word] in Hn. apply andb_prop in Hn as [Ha _].
    intros [= -> _]. now destruct (word_character _ Ha) as (_ & _ & _ & E).
  - cbn [Re.all_word] in Hn, Hw.
    apply andb_prop in Hn as [_ Hn]. apply andb_prop in Hw as [_ Hw].
    intros [= _ H]. exact (IH _ _ Hn Hw H).
Qed.

Lemma typed_no_match (r0 : Re.regex) (name tail : string) :
  Re.all_word name = true ->
  Re.match_prefix
    (Re.Atom (Re.One (Re.CLit "<"))
     :: Re.Group None [literals "int"; literals "string"; literals "float"]
     :: Re.Atom (Re.One (Re.CLit ":")) :: r0)
    (String "<" (name ++ String ">" tail))
  = None.
Proof.
  intros Hn. unfold Re.match_prefix.
  cbn [Re.items_k Re.atom_k Re.cset_mem].
  change (Ascii.eqb "<" "<") with true. cbv iota.
  cbn [Re.alts_k]. rewrite !atoms_k_literals.
  assert (K : forall w b r,
             Re.all_word w = true ->
             strip_prefix w (name ++ String ">" tail) = Some (String b r) ->
             Ascii.eqb b ":" = false).
  { intros w b r Hw Hr. apply strip_prefix_some in Hr.
    destruct (Ascii.eqb_spec b ":") as [->|_]; [|reflexivity].
    now destruct (no_colon_after_word tail name w r Hn Hw). }
  repeat match goal with
         | |- context [strip_prefix ?w (name ++ String ">" tail)] =>
             let S := fresh "S" in
             destruct (strip_prefix w (name ++ String ">" tail))
               as [[|? ?]|] eqn:S;
             [ | rewrite (K w _ _ eq_refl S) | ]
         end;
    reflexivity.
Qed.

Lemma findall_from_prefix (r0 : Re.regex) (s : string) :
  forall p,
    PyStr.contains "<" p = false ->
    Re.findall_from (Re.Atom (Re.One (Re.CLit "<")) :: r0) 0 (p ++ s)
    = Re.findall_from (Re.Atom (Re.One (Re.CLit "<")) :: r0) 0 s.
Proof.
  induction p as [|a p IH]; intros H; [reflexivity|].
  cbn [PyStr.contains] in H. apply orb_false_elim in H as [Ha Hp].
  cbn [append Re.findall_from]. unfold Re.match_prefix.
  cbn [Re.items_k Re.atom_k Re.cset_mem]. rewrite Ha. now apply IH.
Qed.

Lemma sub_from_prefix (r0 : Re.regex) (repl : list string -> result string)
  (s : string) :
  forall p,
    PyStr.contains "<" p = false ->
    Re.sub_from (Re.Atom (Re.One (Re.CLit "<")) :: r0) repl 0 (p ++ s)
    = (out <- Re.sub_from (Re.Atom (Re.One (Re.CLit "<")) :: r0) repl 0 s ;;
       Ok (p ++ out))%result.
Proof.
  induction p as [|a p IH]; intros H.
  - cbn [append]. now destruct (Re.sub_from _ repl 0 s).
  - cbn [PyStr.contains] in H. apply orb_false_elim in H as [Ha Hp].
    cbn [append Re.sub_from]. unfold Re.match_prefix.
    cbn [Re.items_k Re.atom_k Re.cset_mem]. rewrite Ha, IH by exact Hp.
    now destruct (Re.sub_from _ repl 0 s).
Qed.

Lemma sub_from_skip (r : Re.regex) (repl : list string -> result string)
  (rest : string) :
  forall x,
    Re.sub_from r repl (String.length x) (x ++ rest)
    = Re.sub_from r repl 0 rest.
Proof.
  induction x as [|a x IH]; [reflexivity|].
  cbn [String.length append Re.sub_from]. exact IH.
Qed.

Lemma typed_none (p name q : string) :
  PyStr.contains "<" p = false ->
  Re.all_word name = true ->
  PyStr.contains "<" q = false ->
  typed_placeholders (p ++ String "<" (name ++ String ">" q)) = Ok [].
Proof.
  intros Hp Hn Hq. unfold typed_placeholders, Re.findall.
  destruct typed_pattern as [r0 ->]. cbn [rbind].
  rewrite findall_from_prefix by exact Hp.
  cbn [Re.findall_from]. rewrite typed_no_match by exact Hn.
  apply no_placeholder_ahead.
  rewrite contains_app. destruct (word_plain _ Hn) as [_ ->].
  cbn [PyStr.contains orb]. exact Hq.
Qed.

Lemma untyped_match (name q : string) :
  Re.all_word name = true ->
  name <> EmptyString ->
  Re.match_prefix
    [Re.Atom (Re.One (Re.CLit "<"));
     Re.Group None [[Re.Many1 Re.CWord]];
     Re.Atom (Re.One (Re.CLit ">"))]
    (String "<" (name ++ String ">" q))
  = Some ([name], q).
Proof.
  intros Hn Hne. unfold Re.match_prefix.
  cbn [Re.items_k Re.atom_k Re.cset_mem].
  change (Ascii.eqb "<" "<") with true. cbv iota.
  cbn [Re.alts_k Re.atoms_k].
  destruct name as [|a name]; [contradiction|].
  cbn [Re.all_word] in Hn. apply andb_prop in Hn as [Ha Hn].
  cbn [append Re.atom_k Re.cset_mem]. rewrite Ha.
  rewrite star_k_greedy.
  - rewrite after_run_app by (try reflexivity; now rewrite all_in_word).
    cbn [Re.atom_k Re.cset_mem].
    change (Ascii.eqb ">" ">") with true. cbv iota.
    cbn [Re.items_k rev app].
    change (String a (name ++ String ">" q))
      with (String a name ++ String ">" q).
    now rewrite consumed_app.
  - intros b t Hb. cbn [Re.atom_k Re.cset_mem].
    cbn [Re.cset_mem] in Hb.
    now destruct (word_character _ Hb) as (_ & _ & -> & _).
Qed.

Lemma untyped_sub (p name q : string) :
  PyStr.contains "<" p = false ->
  Re.all_word name = true ->
  name <> EmptyString ->
  PyStr.contains "<" q = false ->
  Re.sub "<(\w+)>" var_repl (p ++ String "<" (name ++ String ">" q))
  = Ok (p ++ var_group ++ q).
Proof.
  intros Hp Hn Hne Hq. unfold Re.sub. rewrite untyped_pattern.
  cbn [rbind]. rewrite sub_from_prefix by exact Hp.
  cbn [Re.sub_from]. rewrite untyped_match by assumption.
  replace (String.length (String "<" (name ++ String ">" q))
           - String.length q)
    with (S (String.length (name ++ ">")))
    by (cbn [String.length]; rewrite !string_length_app;
        cbn [String.length]; lia).
  change (name ++ String ">" q) with (name ++ ">" ++ q).
  rewrite <- append_assoc, sub_from_skip.
  rewrite sub_from_no_match by (now apply no_placeholder_ahead).
  reflexivity.
Qed.

Lemma ahead_app (p rest : string) :
  plain p = true ->
  Re.quantifier_ahead rest = false ->
  Re.quantifier_ahead (p ++ rest) = false.
Proof.
  destruct p as [|a p]; [trivial|]. intros H _.
  change (String a p ++ rest) with (String a (p ++ rest)).
  cbn [Re.quantifier_ahead]. exact (plain_ahead _ H).
Qed.

Lemma parse_items_prefix (rest : string) :
  Re.quantifier_ahead rest = false ->
  forall p fuel names,
    plain p = true ->
    Re.parse_items (String.length p + fuel) names (p ++ rest) =
    (r <- Re.parse_items fuel names rest ;; Ok (literal p ++ r)%list)%result.
Proof.
  intros Hrest. induction p as [|a p IH]; intros fuel names Hp.
  - cbn [String.length Nat.add append literal app].
    now destruct (Re.parse_items fuel names rest).
  - cbn [plain] in Hp. apply andb_prop in Hp as [Ha Hp].
    apply negb_true_iff in Ha.
    cbn [String.length Nat.add append].
    rewrite parse_items_plain by (try assumption; now apply ahead_app).
    rewrite IH by exact Hp.
    now destruct (Re.parse_items fuel names rest).
Qed.

Lemma compile_placeholder (p q : string) :
  plain p = true ->
  plain q = true ->
  Re.compile (p ++ var_group ++ q)
  = Ok (literal p
        ++ Re.Group (Some "var") [[Re.Many1 (Re.CNotIn ["/"%char])]]
        :: literal q)%list.
Proof.
  intros Hp Hq.
  rewrite (@compile_fuel _ (String.length p + S (S (String.length q + 14))))
    by (rewrite !string_length_app; cbn [String.length var_group]; lia).
  rewrite parse_items_prefix by (try assumption; reflexivity).
  rewrite parse_items_var_group. cbn [existsb].
  rewrite compile_plain by (try assumption; lia).
  reflexivity.
Qed.

Lemma placeholder_match (p q c : string) :
  c <> EmptyString ->
  PyStr.contains "/" c = false ->
  Re.items_k
    (literal p
     ++ Re.Group (Some "var") [[Re.Many1 (Re.CNotIn ["/"%char])]]
     :: literal q)%list
    Re.is_empty [] (p ++ c ++ q)
  = Some ([c], EmptyString).
Proof.
  intros Hne Hc.
  rewrite items_k_literal_prefix, strip_prefix_app.
  cbn [Re.items_k Re.alts_k Re.atoms_k].
  destruct c as [|a c]; [contradiction|].
  assert (Hall : all_in (Re.CNotIn ["/"%char]) (String a c) = true)
    by (now rewrite all_in_not_slash, Hc).
  cbn [all_in] in Hall. apply andb_prop in Hall as [Ha Hall].
  cbn [append Re.atom_k]. rewrite Ha.
  rewrite (@star_k_suffix _ (Re.CNotIn ["/"%char]) _
             ([String a c], EmptyString) q); [reflexivity| | |exact Hall].
  - intros r o. rewrite fullmatch_literal.
    destruct (String.eqb_spec r q) as [->|_]; [|discriminate].
    intros [= <-]. cbn [rev app].
    change (String a (c ++ q)) with (String a c ++ q).
    now rewrite consumed_app.
  - rewrite fullmatch_literal, String.eqb_refl. cbn [rev app].
    change (String a (c ++ q)) with (String a c ++ q).
    now rewrite consumed_app.
Qed.

Lemma placeholder_no_match (p q path : string)
  (o : list string * string) :
  Re.items_k
    (literal p
     ++ Re.Group (Some "var") [[Re.Many1 (Re.CNotIn ["/"%char])]]
     :: literal q)%list
    Re.is_empty [] path
  = Some o ->
  exists c,
    path = p ++ c ++ q /\ c <> EmptyString /\ PyStr.contains "/" c = false.
Proof.
  rewrite items_k_literal_prefix.
  destruct (strip_prefix p path) as [rest|] eqn:S; [|discriminate].
  apply strip_prefix_some in S. subst path.
  cbn [Re.items_k Re.alts_k Re.atoms_k].
  destruct rest as [|a rest]; [discriminate|].
  cbn [Re.atom_k]. destruct (Re.cset_mem _ a) eqn:Ha; [|discriminate].
  destruct (Re.star_k _ rest _) as [o'|] eqn:E; [|discriminate].
  intros _. apply star_k_split in E as (c & r & -> & Hc & Hk).
  rewrite fullmatch_literal in Hk.
  destruct (String.eqb_spec r q) as [->|_]; [|discriminate].
  exists (String a c). split; [reflexivity|]. split; [discriminate|].
  assert (Hall : all_in (Re.CNotIn ["/"%char]) (String a c) = true)
    by (cbn [all_in]; now rewrite Ha, Hc).
  rewrite all_in_not_slash in Hall. now apply negb_true_iff in Hall.
Qed.

Lemma try_route_placeholder (p name q path : string) (args : dict string)
  (params : list value) :
  static p = true ->
  static q = true ->
  ends_with "/" q = false ->
  Re.all_word name = true ->
  name <> EmptyString ->
  path <> p ++ "<" ++ name ++ ">" ++ q ->
  path <> "/" ->
  try_route path args (p ++ "<" ++ name ++ ">" ++ q) false params =
  Ok (match
         Re.items_k
           (literal p
            ++ Re.Group (Some "var") [[Re.Many1 (Re.CNotIn ["/"%char])]]
            :: literal q)%list
           Re.is_empty [] path
       with
       | Some (groups, _) => (true, map VStr groups)
       | None => (false, params)
       end).
Proof.
  intros Hp Hq Hend Hn Hne Hpath Hslash.
  unfold static in Hp, Hq.
  apply andb_prop in Hp as [Hp Hp']. apply negb_true_iff in Hp'.
  apply andb_prop in Hq as [Hq Hq']. apply negb_true_iff in Hq'.
  change (p ++ "<" ++ name ++ ">" ++ q)
    with (p ++ String "<" (name ++ String ">" q)) in *.
  assert (Hnorm : PyStr.rstrip "/" (p ++ String "<" (name ++ String ">" q))
                  = p ++ String "<" (name ++ String ">" q)).
  { apply rstrip_fixed.
    change (p ++ String "<" (name ++ String ">" q))
      with (p ++ "<" ++ name ++ String ">" q).
    rewrite <- !append_assoc, ends_with_app.
    destruct q; [reflexivity|exact Hend]. }
  assert (Hplain : plain (p ++ String "<" (name ++ String ">" q)) = true).
  { change (p ++ String "<" (name ++ String ">" q))
      with (p ++ "<" ++ name ++ ">" ++ q).
    rewrite !plain_app, Hp, Hq. destruct (word_plain _ Hn) as [-> _].
    reflexivity. }
  apply String.eqb_neq in Hpath. apply String.eqb_neq in Hslash.
  unfold try_route. rewrite Hnorm, Hpath, Hslash. cbn [negb andb].
  (* the typed rule leaves the pattern as it is, and it does not match *)
  pose proof (@typed_none p name q Hp' Hn Hq') as Htyped.
  unfold typed_placeholders, Re.findall in Htyped. unfold Re.sub.
  destruct (Re.compile "<(int|string|float):(\w+)>") as [r1| |];
    cbn [rbind] in *; try discriminate Htyped.
  rewrite (@sub_from_no_match r1 _replace _ Htyped). cbn [rbind].
  rewrite (@fullmatch_plain _ path Hplain), Hpath. cbn [rbind negb andb].
  (* the untyped rule puts the group in place of the placeholder *)
  change (dict_get "string" converters) with (Ok StringConverter).
  cbn [rbind].
  change (Re.template ("(?P<var>" ++ regex StringConverter ++ ")"))
    with var_repl.
  pose proof (@untyped_sub p name q Hp' Hn Hne Hq') as Hsub.
  unfold Re.sub in Hsub.
  destruct (Re.compile "<(\w+)>") as [r2| |];
    cbn [rbind] in *; try discriminate Hsub.
  rewrite Hsub. cbn [rbind]. unfold Re.fullmatch.
  rewrite compile_placeholder by assumption. cbn [rbind].
  destruct (Re.items_k _ Re.is_empty [] path) as [[groups rest]|];
    cbn [option_map fst rbind negb andb]; [reflexivity|].
  rewrite andb_false_r. reflexivity.
Qed.

Lemma not_only_slash (p c q : string) :
  c <> EmptyString -> PyStr.contains "/" c = false -> p ++ c ++ q <> "/".
Proof.
  intros Hne Hc H. destruct c as [|a c]; [contradiction|].
  cbn [PyStr.contains] in Hc. apply orb_false_elim in Hc as [Ha _].
  pose proof (f_equal String.length H) as L.
  rewrite !string_length_app in L. cbn [String.length] in L.
  destruct p as [|b p]; [|cbn [String.length] in L; lia].
  cbn [append] in H. injection H as -> _. discriminate Ha.
Qed.

(** X20.  A pattern with one untyped placeholder, [p<name>q] where [p] and
    [q] have no metacharacter of [re] and no placeholder, accepts the
    paths [p c q] whose middle [c] is not empty and has no slash, and
    hands [c] over as the only parameter, a string; it lets every
    other path but the pattern itself pass.  A request for such a
    path that reaches the route ends in the call of its view function
    on [c]. *)
Theorem single_placeholder_route (p name q : string) :
  static p = true ->
  static q = true ->
  ends_with "/" q = false ->
  Re.all_word name = true ->
  name <> EmptyString ->
  let url := p ++ "<" ++ name ++ ">" ++ q in
  (forall c args params,
      c <> EmptyString ->
      PyStr.contains "/" c = false ->
      c <> "<" ++ name ++ ">" ->
      try_route (p ++ c ++ q) args url false params = Ok (true, [VStr c]))
  /\ (forall path args params,
         path <> url ->
         (forall c, path = p ++ c ++ q ->
                    c = EmptyString \/ PyStr.contains "/" c = true) ->
         try_route path args url false params = Ok (false, params))
  /\ (forall raw args c H pre post st,
         _parse_args raw = Ok args ->
         PyStr.rstrip "/" (before "?" raw) = p ++ c ++ q ->
         c <> EmptyString ->
         PyStr.contains "/" c = false ->
         c <> "<" ++ name ++ ">" ->
         all_fall_through (p ++ c ++ q) args pre ->
         _handle_request raw (pre ++ (url, H) :: post)%list st
         = _send_response H [VStr c] (with_args st args)).
Proof.
  intros Hp Hq Hend Hn Hne url.
  assert (Hhit : forall c args params,
             c <> EmptyString ->
             PyStr.contains "/" c = false ->
             c <> "<" ++ name ++ ">" ->
             try_route (p ++ c ++ q) args url false params
             = Ok (true, [VStr c])).
  { intros c args params Hc Hslash Hother. unfold url.
    rewrite try_route_placeholder; try assumption.
    - now rewrite placeholder_match.
    - intros E. apply Hother.
      apply append_cancel_l in E.
      rewrite <- (append_assoc name ">" q) in E.
      rewrite <- (append_assoc "<" (name ++ ">") q) in E.
      now apply append_cancel_r in E.
    - now apply not_only_slash. }
  conjuncts.
  - exact Hhit.
  - intros path args params Hpath Hno.
    destruct (String.eqb_spec path "/") as [->|Hslash].
    + unfold try_route.
      assert (E : String.eqb "/" (PyStr.rstrip "/" url) = false)
        by (apply String.eqb_neq; intros E; symmetry in E;
            now apply rstrip_not_slash in E).
      rewrite E. cbn [String.eqb Ascii.eqb Bool.eqb negb andb rbind].
      rewrite andb_false_r. reflexivity.
    + unfold url. rewrite try_route_placeholder; try assumption.
      destruct (Re.items_k _ Re.is_empty [] path) as [[groups rest]|] eqn:E;
        [|reflexivity].
      apply placeholder_no_match in E as (c & -> & Hc & Hs).
      destruct (Hno c eq_refl) as [->|Hs']; [contradiction|congruence].
  - intros raw args c H pre post st Hargs Hraw Hc Hslash Hother Hpre.
    rewrite handle_request_eq, Hargs, for_routes_find, Hraw.
    simpl Request_args.
    rewrite (find_route_hit url H post [] Hpre (Hhit c args [] Hc Hslash Hother)).
    reflexivity.
Qed.

End OnePlaceholder.

(** * Patterns with two untyped placeholders *)

Section TwoPlaceholders.

Section Rests.

Variable R : Type.

(** What follows a pattern is tried on what the pattern has left. *)
Lemma star_k_rest (cs : Re.cset) (k : string -> option R) (o : R) :
  forall s,
    Re.star_k cs s k = Some o ->
    exists r, k r = Some o /\ String.length r <= String.length s.
Proof.
  intros s H. apply star_k_split in H as (c & r & -> & _ & Hk).
  exists r. split; [exact Hk|]. rewrite string_length_app. lia.
Qed.

Lemma atom_k_rest (x : Re.atom) (s : string) (k : string -> option R)
  (o : R) :
  Re.atom_k x s k = Some o ->
  exists r, k r = Some o /\ String.length r <= String.length s.
Proof.
  destruct x as [cs|cs|cs|cs], s as [|a s]; cbn [Re.atom_k];
    try discriminate.
  - destruct (Re.cset_mem cs a); [|discriminate]. intros H.
    exists s. split; [exact H|cbn [String.length]; lia].
  - destruct (Re.cset_mem cs a); [|discriminate]. intros H.
    apply star_k_rest in H as (r & Hk & Hr).
    exists r. split; [exact Hk|cbn [String.length]; lia].
  - apply star_k_rest.
  - apply star_k_rest.
  - intros H. now exists EmptyString.
  - destruct (Re.cset_mem cs a); [|intros H; now exists (String a s)].
    destruct (k s) as [o'|] eqn:E.
    + intros [= <-]. exists s. split; [exact E|cbn [String.length]; lia].
    + intros H. now exists (String a s).
Qed.

Lemma atoms_k_rest (xs : list Re.atom) (k : string -> option R) (o : R) :
  forall s,
    Re.atoms_k xs s k = Some o ->
    exists r, k r = Some o /\ String.length r <= String.length s.
Proof.
  induction xs as [|x xs IH]; intros s; cbn [Re.atoms_k]; intros H.
  - now exists s.
  - apply atom_k_rest in H as (r & H & Hr).
    apply IH in H as (r' & H & Hr'). exists r'. split; [exact H|lia].
Qed.

Lemma alts_k_rest (alts : list (list Re.atom)) (k : string -> option R)
  (o : R) :
  forall s,
    Re.alts_k alts s k = Some o ->
    exists r, k r = Some o /\ String.length r <= String.length s.
Proof.
  induction alts as [|alt alts IH]; intros s; cbn [Re.alts_k];
    [discriminate|].
  destruct (Re.atoms_k alt s k) as [o'|] eqn:E.
  - intros [= <-]. now apply atoms_k_rest in E.
  - apply IH.
Qed.

End Rests.

(** A match leaves a part of the subject. *)
Lemma items_k_rest (r : Re.regex) (stop : string -> bool) :
  forall caps s c rest,
    Re.items_k r stop caps s = Some (c, rest) ->
    String.length rest <= String.length s.
Proof.
  induction r as [|[x|name alts] r IH]; intros caps s c rest;
    cbn [Re.items_k].
  - destruct (stop s); [|discriminate]. now intros [= _ <-].
  - intros H. apply atom_k_rest in H as (r' & H & Hr).
    apply IH in H. lia.
  - intros H. apply alts_k_rest in H as (r' & H & Hr).
    apply IH in H. lia.
Qed.

(** A match of a pattern that starts with a character is not empty. *)
Lemma match_prefix_not_empty (cs : Re.cset) (r : Re.regex) (a : ascii)
  (s : string) (caps : list string) (rest : string) :
  Re.match_prefix (Re.Atom (Re.One cs) :: r) (String a s)
  = Some (caps, rest) ->
  exists n, String.length (String a s) - String.length rest = S n.
Proof.
  unfold Re.match_prefix. cbn [Re.items_k Re.atom_k].
  destruct (Re.cset_mem cs a); [|discriminate]. intros H.
  apply items_k_rest in H.
  exists (String.length s - String.length rest).
  cbn [String.length]. lia.
Qed.

(** [re.sub] with the group as replacement always returns. *)
Lemma untyped_sub_total (cs : Re.cset) (r : Re.regex) :
  forall s skip,
    exists out,
      Re.sub_from (Re.Atom (Re.One cs) :: r) var_repl skip s = Ok out.
Proof.
  induction s as [|a s IH]; intros skip; cbn [Re.sub_from].
  - now exists EmptyString.
  - destruct skip as [|skip]; [|apply IH].
    destruct (Re.match_prefix _ (String a s)) as [[caps rest]|] eqn:E.
    + destruct (@match_prefix_not_empty cs r a s caps rest E) as [n ->].
      cbn [rbind var_repl]. destruct (IH n) as [out ->].
      now exists (var_group ++ out).
    + destruct (IH 0) as [out ->]. now exists (String a out).
Qed.

(** The substitution at the first placeholder of a text. *)
Lemma sub_from_placeholder (p name q : string) :
  PyStr.contains "<" p = false ->
  Re.all_word name = true ->
  name <> EmptyString ->
  Re.sub_from
    [Re.Atom (Re.One (Re.CLit "<"));
     Re.Group None [[Re.Many1 Re.CWord]];
     Re.Atom (Re.One (Re.CLit ">"))]
    var_repl 0 (p ++ String "<" (name ++ String ">" q))
  = (out <- Re.sub_from
              [Re.Atom (Re.One (Re.CLit "<"));
               Re.Group None [[Re.Many1 Re.CWord]];
               Re.Atom (Re.One (Re.CLit ">"))]
              var_repl 0 q ;;
     Ok (p ++ var_group ++ out))%result.
Proof.
  intros Hp Hn Hne. rewrite sub_from_prefix by exact Hp.
  cbn [Re.sub_from]. rewrite untyped_match by assumption.
  replace (String.length (String "<" (name ++ String ">" q))
           - String.length q)
    with (S (String.length (name ++ ">")))
    by (cbn [String.length]; rewrite !string_length_app;
        cbn [String.length]; lia).
  change (name ++ String ">" q) with (name ++ ">" ++ q).
  rewrite <- append_assoc, sub_from_skip.
  cbn [rbind var_repl].
  destruct (Re.sub_from _ var_repl 0 q); reflexivity.
Qed.

Lemma untyped_sub_two (p a m b rest : string) :
  PyStr.contains "<" p = false ->
  Re.all_word a = true ->
  a <> EmptyString ->
  PyStr.contains "<" m = false ->
  Re.all_word b = true ->
  b <> EmptyString ->
  exists out,
    Re.sub "<(\w+)>" var_repl
      (p ++ "<" ++ a ++ ">" ++ m ++ "<" ++ b ++ ">" ++ rest)
    = Ok (p ++ var_group ++ m ++ var_group ++ out).
Proof.
  intros Hp Ha Hane Hm Hb Hbne. unfold Re.sub. rewrite untyped_pattern.
  cbn [rbind].
  change (p ++ "<" ++ a ++ ">" ++ m ++ "<" ++ b ++ ">" ++ rest)
    with (p ++ String "<"
               (a ++ String ">" (m ++ String "<" (b ++ String ">" rest)))).
  rewrite sub_from_placeholder by assumption.
  rewrite sub_from_placeholder by assumption.
  destruct (untyped_sub_total (Re.CLit "<")
              [Re.Group None [[Re.Many1 Re.CWord]];
               Re.Atom (Re.One (Re.CLit ">"))] rest 0) as [out ->].
  now exists out.
Qed.

(** The parser goes through a sequence of one-character matchers in
    the same way whether an opening parenthesis follows or nothing. *)
Lemma class_members_app (t : string) :
  forall s l r,
    Re.class_members s = Ok (l, r) ->
    Re.class_members (s ++ t) = Ok (l, r ++ t).
Proof.
  induction s as [|a s IH]; intros l r; cbn [Re.class_members append];
    [discriminate|].
  destruct (Ascii.eqb a "]"); [now intros [= <- <-]|].
  destruct (Re.one_of "\[-^" a); [discriminate|].
  destruct (Re.class_members s) as [[l' r']| |]; cbn [rbind];
    try discriminate.
  intros [= <- <-]. now rewrite (IH _ _ eq_refl).
Qed.

Lemma parse_cset_app (t s : string) (cs : Re.cset) (r : string) :
  Re.parse_cset s = Ok (cs, r) ->
  Re.parse_cset (s ++ t) = Ok (cs, r ++ t).
Proof.
  destruct s as [|a s]; cbn [Re.parse_cset append]; [discriminate|].
  destruct (Ascii.eqb a "\").
  { unfold Re.parse_escape. destruct s as [|b s]; [discriminate|].
    cbn [append].
    destruct (Ascii.eqb b "d"); [now intros [= <- <-]|].
    destruct (Ascii.eqb b "w"); [now intros [= <- <-]|].
    destruct (Ascii.eqb b "."); [now intros [= <- <-]|discriminate]. }
  destruct (Ascii.eqb a "."); [now intros [= <- <-]|].
  destruct (Ascii.eqb a "[").
  { unfold Re.parse_set. destruct s as [|b s]; [discriminate|].
    cbn [append]. destruct (Ascii.eqb b "^"); [|discriminate].
    destruct (Re.class_members s) as [[l r']| |] eqn:E; cbn [rbind];
      try discriminate.
    rewrite (@class_members_app t _ _ _ E). cbn [rbind].
    destruct l; [discriminate|]. now intros [= <- <-]. }
  destruct (Re.special a); [discriminate|]. now intros [= <- <-].
Qed.

Lemma quantifier_ahead_app (r t : string) :
  Re.quantifier_ahead (r ++ String "(" t) = Re.quantifier_ahead r.
Proof. destruct r; reflexivity. Qed.

Lemma parse_atom_app (t s : string) (x : Re.atom) (r : string) :
  Re.parse_atom s = Ok (x, r) ->
  Re.parse_atom (s ++ String "(" t) = Ok (x, r ++ String "(" t).
Proof.
  unfold Re.parse_atom.
  destruct (Re.parse_cset s) as [[cs r0]| |] eqn:E; cbn [rbind];
    try discriminate.
  rewrite (@parse_cset_app (String "(" t) _ _ _ E). cbn [rbind].
  destruct r0 as [|a r0]; [now intros [= <- <-]|].
  cbn [append]. rewrite quantifier_ahead_app.
  destruct (Ascii.eqb a "+");
    [destruct (Re.quantifier_ahead r0);
     [discriminate|now intros [= <- <-]]|].
  destruct (Ascii.eqb a "*");
    [destruct (Re.quantifier_ahead r0);
     [discriminate|now intros [= <- <-]]|].
  destruct (Ascii.eqb a "?");
    [destruct (Re.quantifier_ahead r0);
     [discriminate|now intros [= <- <-]]|].
  destruct (Re.quantifier a); [discriminate|]. now intros [= <- <-].
Qed.

Lemma contains_tail (c a : ascii) (s : string) :
  PyStr.contains c (String a s) = false -> PyStr.contains c s = false.
Proof. cbn [PyStr.contains]. intros H. now apply orb_false_elim in H. Qed.

Lemma class_members_keeps (c : ascii) :
  forall s l r,
    Re.class_members s = Ok (l, r) ->
    PyStr.contains c s = false -> PyStr.contains c r = false.
Proof.
  induction s as [|a s IH]; intros l r; cbn [Re.class_members];
    [discriminate|].
  destruct (Ascii.eqb a "]");
    [intros [= <- <-] H; exact (@contains_tail _ _ _ H)|].
  destruct (Re.one_of "\[-^" a); [discriminate|].
  destruct (Re.class_members s) as [[l' r']| |]; cbn [rbind];
    try discriminate.
  intros [= <- <-] H. exact (IH _ _ eq_refl (@contains_tail _ _ _ H)).
Qed.

Lemma parse_cset_keeps (c : ascii) (s : string) (cs : Re.cset) (r : string) :
  Re.parse_cset s = Ok (cs, r) ->
  PyStr.contains c s = false -> PyStr.contains c r = false.
Proof.
  destruct s as [|a s]; cbn [Re.parse_cset]; [discriminate|].
  intros H Hc. apply contains_tail in Hc. revert H.
  destruct (Ascii.eqb a "\").
  { unfold Re.parse_escape. destruct s as [|b s]; [discriminate|].
    apply contains_tail in Hc.
    destruct (Ascii.eqb b "d"); [now intros [= <- <-]|].
    destruct (Ascii.eqb b "w"); [now intros [= <- <-]|].
    destruct (Ascii.eqb b "."); [now intros [= <- <-]|discriminate]. }
  destruct (Ascii.eqb a "."); [now intros [= <- <-]|].
  destruct (Ascii.eqb a "[").
  { unfold Re.parse_set. destruct s as [|b s]; [discriminate|].
    apply contains_tail in Hc.
    destruct (Ascii.eqb b "^"); [|discriminate].
    destruct (Re.class_members s) as [[l r']| |] eqn:E; cbn [rbind];
      try discriminate.
    destruct l; [discriminate|]. intros [= <- <-].
    exact (@class_members_keeps c _ _ _ E Hc). }
  destruct (Re.special a); [discriminate|]. now intros [= <- <-].
Qed.

Lemma parse_atom_keeps (c : ascii) (s : string) (x : Re.atom) (r : string) :
  Re.parse_atom s = Ok (x, r) ->
  PyStr.contains c s = false -> PyStr.contains c r = false.
Proof.
  unfold Re.parse_atom. intros H Hc.
  destruct (Re.parse_cset s) as [[cs r0]| |] eqn:E; cbn [rbind] in H;
    try discriminate H.
  pose proof (@parse_cset_keeps c _ _ _ E Hc) as Hr0.
  destruct r0 as [|a r0]; [now injection H as <- <-|].
  pose proof (@contains_tail _ _ _ Hr0) as Hr1.
  revert H.
  destruct (Ascii.eqb a "+");
    [destruct (Re.quantifier_ahead r0);
     [discriminate|now intros [= <- <-]]|].
  destruct (Ascii.eqb a "*");
    [destruct (Re.quantifier_ahead r0);
     [discriminate|now intros [= <- <-]]|].
  destruct (Ascii.eqb a "?");
    [destruct (Re.quantifier_ahead r0);
     [discriminate|now intros [= <- <-]]|].
  destruct (Re.quantifier a); [discriminate|]. now intros [= <- <-].
Qed.

Lemma parse_seq_keeps (c : ascii) (n : nat) :
  forall s xs r,
    Re.parse_seq n s = Ok (xs, r) ->
    PyStr.contains c s = false -> PyStr.contains c r = false.
Proof.
  induction n as [|n IH]; intros s xs r H Hc; cbn [Re.parse_seq] in H;
    [discriminate H|].
  destruct s as [|a s]; [now injection H as <- <-|].
  destruct (Re.one_of "|)" a); [now injection H as <- <-|].
  destruct (Re.parse_atom (String a s)) as [[x r1]| |] eqn:E;
    cbn [rbind] in H; try discriminate H.
  destruct (Re.parse_seq n r1) as [[xs' r']| |] eqn:E'; cbn [rbind] in H;
    try discriminate H.
  injection H as <- <-.
  exact (IH _ _ _ E' (@parse_atom_keeps c _ _ _ E Hc)).
Qed.

Lemma parse_alts_keeps (c : ascii) (n : nat) :
  forall s alts r,
    Re.parse_alts n s = Ok (alts, r) ->
    PyStr.contains c s = false -> PyStr.contains c r = false.
Proof.
  induction n as [|n IH]; intros s alts r H Hc; cbn [Re.parse_alts] in H;
    [discriminate H|].
  destruct (Re.parse_seq (S (String.length s)) s) as [[alt r1]| |] eqn:E;
    cbn [rbind] in H; try discriminate H.
  pose proof (@parse_seq_keeps c _ _ _ _ E Hc) as Hr1.
  destruct r1 as [|b r1]; [discriminate H|].
  apply contains_tail in Hr1.
  destruct (Ascii.eqb b ")"); [now injection H as <- <-|].
  destruct (Ascii.eqb b "|"); [|discriminate H].
  destruct (Re.parse_alts n r1) as [[alts' r']| |] eqn:E'; cbn [rbind] in H;
    try discriminate H.
  injection H as <- <-. exact (IH _ _ _ E' Hr1).
Qed.

(** An alternative that stops in front of [|] or [)] is read in the
    same way with a text behind. *)
Lemma parse_seq_app (t : string) (n : nat) :
  forall s xs c r,
    Re.parse_seq n s = Ok (xs, String c r) ->
    forall n',
      String.length (s ++ String "(" t) < n' ->
      Re.parse_seq n' (s ++ String "(" t) = Ok (xs, String c r ++ String "(" t).
Proof.
  induction n as [|n IH]; intros s xs c r H n' Hn'; cbn [Re.parse_seq] in H;
    [discriminate H|].
  destruct n' as [|n']; [inversion Hn'|].
  destruct s as [|a s]; [discriminate H|].
  cbn [append Re.parse_seq].
  destruct (Re.one_of "|)" a);
    [injection H as <- <- <-; reflexivity|].
  destruct (Re.parse_atom (String a s)) as [[x r1]| |] eqn:E;
    cbn [rbind] in H; try discriminate H.
  destruct (Re.parse_seq n r1) as [[xs' r']| |] eqn:E'; cbn [rbind] in H;
    try discriminate H.
  injection H as <- ->.
  change (String a (s ++ String "(" t)) with (String a s ++ String "(" t).
  rewrite (@parse_atom_app t _ _ _ E). cbn [rbind].
  apply parse_atom_shorter in E.
  assert (Hr : String.length (r1 ++ String "(" t) < n').
  { rewrite string_length_app in Hn' |- *. lia. }
  now rewrite (IH _ _ _ _ E' n' Hr).
Qed.

Lemma parse_alts_app (t : string) (n : nat) :
  forall s alts r,
    Re.parse_alts n s = Ok (alts, r) ->
    forall n',
      String.length (s ++ String "(" t) < n' ->
      Re.parse_alts n' (s ++ String "(" t) = Ok (alts, r ++ String "(" t).
Proof.
  induction n as [|n IH]; intros s alts r H n' Hn'; cbn [Re.parse_alts] in H;
    [discriminate H|].
  destruct n' as [|n']; [inversion Hn'|].
  cbn [Re.parse_alts].
  destruct (Re.parse_seq (S (String.length s)) s) as [[alt r1]| |] eqn:E;
    cbn [rbind] in H; try discriminate H.
  destruct r1 as [|b r1]; [discriminate H|].
  rewrite (@parse_seq_app t _ _ _ _ _ E _ (Nat.lt_succ_diag_r _)).
  cbn [rbind append].
  apply parse_seq_shorter in E. cbn [String.length] in E.
  destruct (Ascii.eqb b ")"); [now injection H as <- <-|].
  destruct (Ascii.eqb b "|"); [|discriminate H].
  destruct (Re.parse_alts n r1) as [[alts' r']| |] eqn:E'; cbn [rbind] in H;
    try discriminate H.
  injection H as <- <-.
  assert (Hr : String.length (r1 ++ String "(" t) < n').
  { rewrite string_length_app in Hn' |- *. lia. }
  now rewrite (IH _ _ _ E' n' Hr).
Qed.

(** The opening of a named group holds [<]. *)
Lemma group_kind_named (s r : string) :
  Re.group_kind s = Ok (Some r) -> PyStr.contains "<" s = true.
Proof.
  unfold Re.group_kind. intros H.
  repeat match type of H with
         | match ?x with _ => _ end = _ => destruct x; try discriminate H
         end.
  reflexivity.
Qed.

Lemma group_kind_app (s t : string) :
  s <> EmptyString ->
  Re.group_kind s = Ok None ->
  Re.group_kind (s ++ String "(" t) = Ok None.
Proof.
  unfold Re.group_kind. intros Hs H.
  destruct s as [|a s]; [now destruct Hs|]. cbn [append].
  destruct a as [[|] [|] [|] [|] [|] [|] [|] [|]]; try reflexivity.
  repeat match type of H with
         | match ?x with _ => _ end = _ => destruct x; try discriminate H
         end.
Qed.

(** A pattern without [<] that [compile] reads is read in the same
    way in front of an opening parenthesis. *)
Lemma parse_items_app (t : string) (f : nat) :
  forall p names xs,
    PyStr.contains "<" p = false ->
    Re.parse_items f names p = Ok xs ->
    forall names' fuel,
      String.length (p ++ String "(" t) < fuel ->
      Re.parse_items fuel names' (p ++ String "(" t) =
      (rest <- Re.parse_items fuel names' (String "(" t) ;;
       Ok (xs ++ rest)%list)%result.
Proof.
  induction f as [|f IH]; intros p names xs Hp H names' fuel Hfuel;
    cbn [Re.parse_items] in H; [discriminate H|].
  destruct p as [|c p].
  - injection H as <-. cbn [append app].
    now destruct (Re.parse_items fuel names' (String "(" t)).
  - destruct fuel as [|fuel]; [inversion Hfuel|].
    remember (Re.parse_items (S fuel) names' (String "(" t)) as tgt eqn:Htgt.
    cbn [append Re.parse_items].
    pose proof (@contains_tail _ _ _ Hp) as Hp'.
    destruct (Ascii.eqb c "(") eqn:Hc.
    + destruct (Re.group_kind p) as [[r1|]| |] eqn:K; cbn [rbind] in H;
        try discriminate H.
      { apply group_kind_named in K. rewrite K in Hp'. discriminate Hp'. }
      destruct (Re.parse_alts (S (String.length p)) p) as [[alts r3]| |] eqn:E;
        cbn [rbind] in H; try discriminate H.
      destruct (Re.parse_items f names r3) as [rest0| |] eqn:E';
        cbn [rbind] in H; try discriminate H.
      injection H as <-.
      assert (Hne : p <> EmptyString).
      { intros ->. cbn in E. discriminate E. }
      rewrite (@group_kind_app _ t Hne K). cbn [rbind].
      rewrite (@parse_alts_app t _ _ _ _ E _ (Nat.lt_succ_diag_r _)).
      cbn [rbind].
      pose proof E as Hshort. apply parse_alts_shorter in Hshort.
      assert (Hr : String.length (r3 ++ String "(" t) < fuel).
      { cbn [append String.length] in Hfuel.
        rewrite string_length_app in Hfuel |- *. lia. }
      rewrite (IH r3 names rest0 (@parse_alts_keeps "<" _ _ _ _ E Hp') E'
                 names' fuel Hr).
      rewrite string_length_app in Hr.
      rewrite (@parse_items_fuel fuel (S fuel) names' (String "(" t)) by lia.
      rewrite <- Htgt. now destruct tgt.
    + destruct (Re.one_of "|)" c) eqn:Hc'; [discriminate H|].
      destruct (Re.parse_atom (String c p)) as [[x r]| |] eqn:E;
        cbn [rbind] in H; try discriminate H.
      destruct (Re.parse_items f names r) as [rest0| |] eqn:E';
        cbn [rbind] in H; try discriminate H.
      injection H as <-.
      change (String c (p ++ String "(" t)) with (String c p ++ String "(" t).
      rewrite (@parse_atom_app t _ _ _ E). cbn [rbind].
      pose proof E as Hshort. apply parse_atom_shorter in Hshort.
      assert (Hr : String.length (r ++ String "(" t) < fuel).
      { rewrite string_length_app in Hfuel |- *. lia. }
      rewrite (IH r names rest0 (@parse_atom_keeps "<" _ _ _ E Hp) E'
                 names' fuel Hr).
      rewrite string_length_app in Hr.
      rewrite (@parse_items_fuel fuel (S fuel) names' (String "(" t)) by lia.
      rewrite <- Htgt. now destruct tgt.
Qed.

Lemma compiles_parse (p : string) :
  compiles p = true -> exists xs, Re.compile p = Ok xs.
Proof.
  unfold compiles. destruct (Re.compile p) as [xs| |]; try discriminate.
  intros _. now exists xs.
Qed.

(** A second group named [var] is a redefinition, whatever follows. *)
Lemma compile_second_var (p m out : string) :
  compiles p = true ->
  PyStr.contains "<" p = false ->
  compiles m = true ->
  PyStr.contains "<" m = false ->
  Re.compile (p ++ var_group ++ m ++ var_group ++ out)
  = Raise (re_error (RedefinitionOfGroupName "var")).
Proof.
  intros Hp Hp' Hm Hm'.
  destruct (@compiles_parse p Hp) as [xs Hxs].
  destruct (@compiles_parse m Hm) as [ys Hys].
  unfold Re.compile in *.
  set (fuel := String.length (p ++ var_group ++ m ++ var_group ++ out)).
  assert (Hfuel : String.length (m ++ var_group ++ out) < fuel).
  { unfold fuel. rewrite !string_length_app. cbn [String.length var_group].
    lia. }
  change (p ++ var_group ++ m ++ var_group ++ out)
    with (p ++ String "(" ("?P<var>[^/]+)" ++ m ++ var_group ++ out)).
  rewrite (@parse_items_app _ _ _ _ _ Hp' Hxs) by exact (Nat.lt_succ_diag_r _).
  change (String "(" ("?P<var>[^/]+)" ++ m ++ var_group ++ out))
    with (var_group ++ m ++ var_group ++ out).
  rewrite parse_items_var_group. cbn [existsb].
  change (m ++ var_group ++ out)
    with (m ++ String "(" ("?P<var>[^/]+)" ++ out)).
  rewrite (@parse_items_app _ _ _ _ _ Hm' Hys) by exact Hfuel.
  change (String "(" ("?P<var>[^/]+)" ++ out)) with (var_group ++ out).
  destruct fuel as [|fuel']; [inversion Hfuel|].
  rewrite parse_items_var_group. reflexivity.
Qed.

Lemma try_route_two_placeholders
  (url p a m b rest path : string) (args : dict string)
  (params : list value) :
  PyStr.rstrip "/" url
  = p ++ "<" ++ a ++ ">" ++ m ++ "<" ++ b ++ ">" ++ rest ->
  compiles p = true ->
  PyStr.contains "<" p = false ->
  Re.all_word a = true ->
  a <> EmptyString ->
  compiles m = true ->
  PyStr.contains "<" m = false ->
  Re.all_word b = true ->
  b <> EmptyString ->
  typed_placeholders (PyStr.rstrip "/" url) = Ok [] ->
  path <> PyStr.rstrip "/" url ->
  path <> "/" ->
  Re.fullmatch (PyStr.rstrip "/" url) path = Ok None ->
  try_route path args url false params
  = Raise (re_error (RedefinitionOfGroupName "var")).
Proof.
  intros Hform Hp Hp' Ha Hane Hm Hm' Hb Hbne Htyped Hpath Hslash Hfull.
  unfold try_route.
  apply String.eqb_neq in Hpath. apply String.eqb_neq in Hslash.
  rewrite Hpath, Hslash. cbn [negb andb].
  (* the typed rule leaves the pattern as it is, and it does not match *)
  unfold typed_placeholders, Re.findall in Htyped. unfold Re.sub.
  destruct (Re.compile "<(int|string|float):(\w+)>") as [r1| |];
    cbn [rbind] in *; try discriminate Htyped.
  rewrite (@sub_from_no_match r1 _replace _ Htyped). cbn [rbind].
  rewrite Hfull. cbn [rbind negb andb].
  (* the untyped rule builds a pattern with two groups named var *)
  change (dict_get "string" converters) with (Ok StringConverter).
  cbn [rbind].
  change (Re.template ("(?P<var>" ++ regex StringConverter ++ ")"))
    with var_repl.
  destruct (@untyped_sub_two p a m b rest Hp' Ha Hane Hm' Hb Hbne)
    as [out Hsub].
  unfold Re.sub in Hsub. rewrite Hform.
  destruct (Re.compile "<(\w+)>") as [r2| |];
    cbn [rbind] in *; try discriminate Hsub.
  rewrite Hsub. cbn [rbind]. unfold Re.fullmatch.
  now rewrite compile_second_var.
Qed.

(** C10, as the code has it.  The untyped rule puts the same group
    [(?P<var>[^/]+)] in place of every placeholder.  Take a stored
    pattern [p<a>m<b>rest] without typed placeholder, in which the
    texts [p] and [m] in front of the second placeholder are
    patterns of their own without [<], and [rest] is any text.  Trying the route on a path other than the pattern
    itself that the pattern text, read as a regular expression, does
    not match raises [re.error] for the redefinition of the group
    name [var]; a request for such a path that reaches the route ends
    with this exception, whatever routes follow, and nothing is
    sent. *)
Theorem two_untyped_placeholders_raise (url p a m b rest : string) :
  PyStr.rstrip "/" url
  = p ++ "<" ++ a ++ ">" ++ m ++ "<" ++ b ++ ">" ++ rest ->
  compiles p = true ->
  PyStr.contains "<" p = false ->
  Re.all_word a = true ->
  a <> EmptyString ->
  compiles m = true ->
  PyStr.contains "<" m = false ->
  Re.all_word b = true ->
  b <> EmptyString ->
  typed_placeholders (PyStr.rstrip "/" url) = Ok [] ->
  (forall groups,
      Re.template ("(?P<var>" ++ regex StringConverter ++ ")") groups
      = Ok "(?P<var>[^/]+)")
  /\ (forall path args params,
         path <> PyStr.rstrip "/" url ->
         path <> "/" ->
         Re.fullmatch (PyStr.rstrip "/" url) path = Ok None ->
         try_route path args url false params
         = Raise (re_error (RedefinitionOfGroupName "var")))
  /\ (forall raw args H pre post st,
         _parse_args raw = Ok args ->
         PyStr.rstrip "/" (before "?" raw) <> PyStr.rstrip "/" url ->
         Re.fullmatch (PyStr.rstrip "/" url)
           (PyStr.rstrip "/" (before "?" raw))
         = Ok None ->
         all_fall_through (PyStr.rstrip "/" (before "?" raw)) args pre ->
         _handle_request raw (pre ++ (url, H) :: post)%list st
         = (Raise (re_error (RedefinitionOfGroupName "var")),
            with_args st args)).
Proof.
  intros Hform Hp Hp' Ha Hane Hm Hm' Hb Hbne Htyped.
  assert (Htry : forall path args params,
             path <> PyStr.rstrip "/" url ->
             path <> "/" ->
             Re.fullmatch (PyStr.rstrip "/" url) path = Ok None ->
             try_route path args url false params
             = Raise (re_error (RedefinitionOfGroupName "var")))
    by (intros path args params Hpath Hslash Hfull;
        now apply try_route_two_placeholders
          with (p := p) (a := a) (m := m) (b := b) (rest := rest)).
  conjuncts.
  - apply untyped_template.
  - exact Htry.
  - intros raw args H pre post st Hargs Hpath Hfull Hpre.
    rewrite handle_request_eq, Hargs, for_routes_find.
    simpl Request_args.
    rewrite (find_route_hit url H post [] Hpre
               (Htry _ args [] Hpath (rstrip_not_slash _) Hfull)).
    reflexivity.
Qed.

End TwoPlaceholders.

(** The hypotheses of C10 at the pattern [/files/<dir>/<name>.html],
    which has a metacharacter behind its second placeholder: the
    request [/files/a/b.html] raises, although an exact route for it
    is stored behind.  And at the pattern [/(v1|v2)/<a>/<b>], which
    has a group in front of its placeholders. *)
Lemma two_untyped_placeholders_raise_witness :
  try_route "/files/a/b.html" [] "/files/<dir>/<name>.html" false []
  = Raise (re_error (RedefinitionOfGroupName "var"))
  /\ _handle_request "/files/a/b.html/"
       [("/about", about); ("/files/<dir>/<name>.html", greet);
        ("/files/a/b.html", about)]
       example_state
     = (Raise (re_error (RedefinitionOfGroupName "var")),
        with_args example_state [])
  /\ try_route "/v1/x/y" [] "/(v1|v2)/<a>/<b>" false []
     = Raise (re_error (RedefinitionOfGroupName "var")).
Proof.
  assert (Hdir : "dir" <> EmptyString) by discriminate.
  assert (Hname : "name" <> EmptyString) by discriminate.
  assert (Htyped : typed_placeholders
                     (PyStr.rstrip "/" "/files/<dir>/<name>.html") = Ok [])
    by (vm_compute; reflexivity).
  assert (Hfull : Re.fullmatch (PyStr.rstrip "/" "/files/<dir>/<name>.html")
                    "/files/a/b.html" = Ok None)
    by (vm_compute; reflexivity).
  pose proof (@two_untyped_placeholders_raise "/files/<dir>/<name>.html"
                "/files/" "dir" "/" "name" ".html"
                eq_refl eq_refl eq_refl eq_refl Hdir eq_refl eq_refl
                eq_refl Hname Htyped)
    as (_ & Htry & Hrequest).
  assert (Ha : "a" <> EmptyString) by discriminate.
  assert (Hb : "b" <> EmptyString) by discriminate.
  assert (Htyped' : typed_placeholders
                      (PyStr.rstrip "/" "/(v1|v2)/<a>/<b>") = Ok [])
    by (vm_compute; reflexivity).
  assert (Hfull' : Re.fullmatch (PyStr.rstrip "/" "/(v1|v2)/<a>/<b>")
                     "/v1/x/y" = Ok None)
    by (vm_compute; reflexivity).
  pose proof (@two_untyped_placeholders_raise "/(v1|v2)/<a>/<b>"
                "/(v1|v2)/" "a" "/" "b" EmptyString
                eq_refl eq_refl eq_refl eq_refl Ha eq_refl eq_refl
                eq_refl Hb Htyped')
    as (_ & Htry' & _).
  split; [|split].
  - apply Htry; [discriminate|discriminate|exact Hfull].
  - refine (Hrequest "/files/a/b.html/" [] greet [("/about", about)]
              [("/files/a/b.html", about)] example_state _ _ _ _).
    + reflexivity.
    + discriminate.
    + exact Hfull.
    + constructor; [vm_compute; reflexivity | constructor].
  - apply Htry'; [discriminate|discriminate|exact Hfull'].
Defined.

(** C10 as stated fails at the pattern [/<a>.<b>]: it has two untyped
    placeholders and no typed one, the path [/<a>x<b>] is not the
    pattern, and yet the typed rule, which reads the pattern as a
    regular expression, matches it; the handler is called without
    parameters and no exception is raised. *)
Lemma two_untyped_placeholders_with_dot :
  typed_placeholders "/<a>.<b>" = Ok []
  /\ untyped_placeholders "/<a>.<b>" = Ok [Re.FStr "a"; Re.FStr "b"]
  /\ "/<a>x<b>" <> "/<a>.<b>"
  /\ Re.fullmatch "/<a>.<b>" "/<a>x<b>" = Ok (Some [])
  /\ try_route "/<a>x<b>" [] "/<a>.<b>" false [] = Ok (true, [])
  /\ try_route "/<a>x<b>" [] "/<a>.<b>" false []
     <> Raise (re_error (RedefinitionOfGroupName "var"))
  /\ _handle_request "/<a>x<b>" [("/<a>.<b>", about)] example_state
     = _send_response about [] (with_args example_state []).
Proof.
  conjuncts; try (vm_compute; reflexivity); discriminate.
Qed.

(** * Typed placeholders *)

Section TypedPlaceholder.

Lemma typed_pattern_sub :
  Re.compile "<(int|string|float):(\w+)>"
  = Ok [Re.Atom (Re.One (Re.CLit "<"));
        Re.Group None [literals "int"; literals "string"; literals "float"];
        Re.Atom (Re.One (Re.CLit ":"));
        Re.Group None [[Re.Many1 Re.CWord]];
        Re.Atom (Re.One (Re.CLit ">"))].
Proof. vm_compute. reflexivity. Qed.

Lemma typed_pattern_findall :
  Re.compile "<(int|string|float):\w+>"
  = Ok [Re.Atom (Re.One (Re.CLit "<"));
        Re.Group None [literals "int"; literals "string"; literals "float"];
        Re.Atom (Re.One (Re.CLit ":"));
        Re.Atom (Re.Many1 Re.CWord);
        Re.Atom (Re.One (Re.CLit ">"))].
Proof. vm_compute. reflexivity. Qed.

Lemma converter_names (conv : string) (c : converter) :
  dict_get conv converters = Ok c ->
  (conv = "int" /\ c = IntConverter)
  \/ (conv = "string" /\ c = StringConverter)
  \/ (conv = "float" /\ c = FloatConverter).
Proof.
  unfold converters. cbn [dict_get].
  destruct (String.eqb_spec "int" conv) as [<-|_];
    [intros [= <-]; now left|].
  destruct (String.eqb_spec "string" conv) as [<-|_];
    [intros [= <-]; right; now left|].
  destruct (String.eqb_spec "float" conv) as [<-|_];
    [intros [= <-]; right; now right|].
  discriminate.
Qed.

Section Alternation.

Variable R : Type.

(** The alternation reads the name of a converter. *)
Lemma typed_alternation (conv : string) (c : converter) (tail : string)
  (k : string -> option R) :
  dict_get conv converters = Ok c ->
  Re.alts_k [literals "int"; literals "string"; literals "float"]
    (conv ++ tail) k
  = k tail.
Proof.
  intros H.
  destruct (converter_names _ H) as [[-> _]|[[-> _]|[-> _]]];
    cbn [Re.alts_k]; rewrite !atoms_k_literals;
    cbn [append strip_prefix Ascii.eqb Bool.eqb];
    destruct (k tail); reflexivity.
Qed.

(** A word in front of the closing bracket is read whole. *)
Lemma word_run (name q : string) (k : string -> option R) :
  Re.all_word name = true ->
  name <> EmptyString ->
  (forall b t, Re.is_word b = true -> k (String b t) = None) ->
  Re.atom_k (Re.Many1 Re.CWord) (name ++ String ">" q) k
  = k (String ">" q).
Proof.
  intros Hn Hne Hk. destruct name as [|a name]; [contradiction|].
  cbn [Re.all_word] in Hn. apply andb_prop in Hn as [Ha Hn].
  cbn [append Re.atom_k Re.cset_mem]. rewrite Ha.
  rewrite star_k_greedy by exact Hk.
  now rewrite after_run_app by (try reflexivity; now rewrite all_in_word).
Qed.

End Alternation.

Lemma atom_k_char (R : Type) (c : ascii) (s : string)
  (k : string -> option R) :
  Re.atom_k (Re.One (Re.CLit c)) (String c s) k = k s.
Proof. cbn [Re.atom_k Re.cset_mem]. now rewrite Ascii.eqb_refl. Qed.

Lemma typed_match_sub (conv name q : string) (c : converter) :
  dict_get conv converters = Ok c ->
  Re.all_word name = true ->
  name <> EmptyString ->
  Re.match_prefix
    [Re.Atom (Re.One (Re.CLit "<"));
     Re.Group None [literals "int"; literals "string"; literals "float"];
     Re.Atom (Re.One (Re.CLit ":"));
     Re.Group None [[Re.Many1 Re.CWord]];
     Re.Atom (Re.One (Re.CLit ">"))]
    (String "<" (conv ++ String ":" (name ++ String ">" q)))
  = Some ([conv; name], q).
Proof.
  intros Hconv Hn Hne. unfold Re.match_prefix.
  cbn [Re.items_k Re.atom_k Re.cset_mem].
  change (Ascii.eqb "<" "<") with true. cbv iota.
  rewrite (@typed_alternation _ conv c _ _ Hconv).
  change (Ascii.eqb ":" ":") with true. cbv iota.
  cbn [Re.alts_k Re.atoms_k].
  rewrite word_run; try assumption.
  - change (Ascii.eqb ">" ">") with true. cbv iota. cbn [rev app].
    rewrite (consumed_app conv).
    change (name ++ String ">" q) with (name ++ ">" ++ q).
    rewrite <- (append_assoc name ">" q).
    pose proof (consumed_app name (String ">" q)) as E.
    rewrite append_assoc. cbn [append]. now rewrite E.
  - intros b t Hb.
    destruct (word_character _ Hb) as (_ & _ & E & _). now rewrite E.
Qed.

Lemma typed_match_findall (conv name q : string) (c : converter) :
  dict_get conv converters = Ok c ->
  Re.all_word name = true ->
  name <> EmptyString ->
  Re.match_prefix
    [Re.Atom (Re.One (Re.CLit "<"));
     Re.Group None [literals "int"; literals "string"; literals "float"];
     Re.Atom (Re.One (Re.CLit ":"));
     Re.Atom (Re.Many1 Re.CWord);
     Re.Atom (Re.One (Re.CLit ">"))]
    (String "<" (conv ++ String ":" (name ++ String ">" q)))
  = Some ([conv], q).
Proof.
  intros Hconv Hn Hne. unfold Re.match_prefix.
  cbn [Re.items_k]. rewrite atom_k_char.
  rewrite (@typed_alternation _ conv c _ _ Hconv).
  rewrite atom_k_char, word_run; try assumption.
  - rewrite atom_k_char. cbn [rev app].
    now rewrite (consumed_app conv).
  - intros b t Hb. cbn [Re.atom_k Re.cset_mem].
    destruct (word_character _ Hb) as (_ & _ & E & _). now rewrite E.
Qed.

Lemma placeholder_length (conv name q : string) :
  String.length (String "<" (conv ++ String ":" (name ++ String ">" q)))
  - String.length q
  = S (String.length (conv ++ ":" ++ name ++ ">")).
Proof.
  cbn [String.length]. rewrite !string_length_app. cbn [String.length].
  rewrite !string_length_app. cbn [String.length]. lia.
Qed.

Lemma placeholder_text (conv name q : string) :
  conv ++ String ":" (name ++ String ">" q)
  = (conv ++ ":" ++ name ++ ">") ++ q.
Proof.
  rewrite append_assoc. cbn [append]. do 2 f_equal.
  rewrite append_assoc. reflexivity.
Qed.

Lemma conv_no_bracket (conv : string) (c : converter) :
  dict_get conv converters = Ok c -> PyStr.contains "<" conv = false.
Proof.
  intros H.
  now destruct (converter_names _ H) as [[-> _]|[[-> _]|[-> _]]].
Qed.

Lemma typed_sub (p conv name q : string) (c : converter) :
  dict_get conv converters = Ok c ->
  PyStr.contains "<" p = false ->
  Re.all_word name = true ->
  name <> EmptyString ->
  PyStr.contains "<" q = false ->
  Re.sub "<(int|string|float):(\w+)>" _replace
    (p ++ String "<" (conv ++ String ":" (name ++ String ">" q)))
  = Ok (p ++ ("(?P<" ++ name ++ ">" ++ regex c ++ ")") ++ q).
Proof.
  intros Hconv Hp Hn Hne Hq. unfold Re.sub. rewrite typed_pattern_sub.
  cbn [rbind]. rewrite sub_from_prefix by exact Hp.
  cbn [Re.sub_from]. rewrite (@typed_match_sub conv name q c Hconv Hn Hne).
  rewrite placeholder_length.
  cbn [_replace]. rewrite Hconv. cbn [rbind].
  rewrite placeholder_text, sub_from_skip.
  rewrite sub_from_no_match by (now apply no_placeholder_ahead).
  reflexivity.
Qed.

Lemma typed_findall (p conv name q : string) (c : converter) :
  dict_get conv converters = Ok c ->
  PyStr.contains "<" p = false ->
  Re.all_word name = true ->
  name <> EmptyString ->
  PyStr.contains "<" q = false ->
  Re.findall "<(int|string|float):\w+>"
    (p ++ String "<" (conv ++ String ":" (name ++ String ">" q)))
  = Ok [Re.FStr conv].
Proof.
  intros Hconv Hp Hn Hne Hq. unfold Re.findall.
  rewrite typed_pattern_findall. cbn [rbind].
  rewrite findall_from_prefix by exact Hp.
  cbn [Re.findall_from]. rewrite (@typed_match_findall conv name q c Hconv Hn Hne).
  rewrite placeholder_length.
  rewrite no_placeholder_ahead; [reflexivity|].
  rewrite contains_app, (@conv_no_bracket conv c Hconv).
  cbn [PyStr.contains orb Ascii.eqb Bool.eqb].
  rewrite contains_app. destruct (word_plain _ Hn) as [_ ->].
  cbn [PyStr.contains orb Ascii.eqb Bool.eqb]. exact Hq.
Qed.

Lemma initial_key (conv : string) (c : converter) :
  dict_get conv converters = Ok c ->
  Re.item0 (Re.FStr conv) = Ok (initial conv)
  /\ dict_get (initial conv) converters = Raise (KeyError (initial conv)).
Proof.
  intros H.
  now destruct (converter_names _ H) as [[-> _]|[[-> _]|[-> _]]].
Qed.

Lemma try_route_typed (p conv name q path : string) (c : converter)
  (args : dict string) (params : list value) (v : string)
  (groups : list string) :
  static p = true ->
  static q = true ->
  ends_with "/" q = false ->
  Re.all_word name = true ->
  name <> EmptyString ->
  dict_get conv converters = Ok c ->
  path <> p ++ "<" ++ conv ++ ":" ++ name ++ ">" ++ q ->
  path <> "/" ->
  Re.fullmatch (p ++ ("(?P<" ++ name ++ ">" ++ regex c ++ ")") ++ q) path
  = Ok (Some (v :: groups)) ->
  try_route path args (p ++ "<" ++ conv ++ ":" ++ name ++ ">" ++ q)
    false params
  = Raise (KeyError (initial conv)).
Proof.
  intros Hp Hq Hend Hn Hne Hconv Hpath Hslash Hfull.
  unfold static in Hp, Hq.
  apply andb_prop in Hp as [Hp Hp']. apply negb_true_iff in Hp'.
  apply andb_prop in Hq as [Hq Hq']. apply negb_true_iff in Hq'.
  change (p ++ "<" ++ conv ++ ":" ++ name ++ ">" ++ q)
    with (p ++ String "<" (conv ++ String ":" (name ++ String ">" q))) in *.
  assert (Hnorm :
            PyStr.rstrip "/"
              (p ++ String "<" (conv ++ String ":" (name ++ String ">" q)))
            = p ++ String "<" (conv ++ String ":" (name ++ String ">" q))).
  { apply rstrip_fixed. rewrite placeholder_text.
    change (String "<" ((conv ++ ":" ++ name ++ ">") ++ q))
      with (("<" ++ conv ++ ":" ++ name ++ ">") ++ q).
    rewrite <- append_assoc.
    destruct q as [|b q]; [|now rewrite ends_with_app].
    rewrite append_empty.
    rewrite <- !append_assoc.
    now rewrite (ends_with_app "/" ">" EmptyString). }
  apply String.eqb_neq in Hpath. apply String.eqb_neq in Hslash.
  unfold try_route. rewrite Hnorm, Hpath, Hslash. cbn [negb andb].
  rewrite (@typed_sub p conv name q c) by assumption. cbn [rbind].
  rewrite Hfull. cbn [rbind].
  rewrite (@typed_findall p conv name q c) by assumption. cbn [rbind rmap].
  destruct (initial_key _ Hconv) as [-> Hkey]. cbn [rbind combine rmap].
  rewrite Hkey. reflexivity.
Qed.

(** X21.  Every request that a route with a typed placeholder accepts ends
    with [KeyError].  For the pattern [p<conv:name>q], where [conv]
    names a converter and [p] and [q] have no metacharacter of [re]
    and no placeholder: when the path matches the pattern in which
    the placeholder is replaced by the named group of the fragment
    of [conv], trying the route raises [KeyError] on the first
    character of [conv], and a request that reaches the route ends
    with this exception before anything is sent. *)
Theorem typed_placeholder_raises
  (p conv name q : string) (c : converter) :
  static p = true ->
  static q = true ->
  ends_with "/" q = false ->
  Re.all_word name = true ->
  name <> EmptyString ->
  dict_get conv converters = Ok c ->
  let url := p ++ "<" ++ conv ++ ":" ++ name ++ ">" ++ q in
  let pattern := p ++ ("(?P<" ++ name ++ ">" ++ regex c ++ ")") ++ q in
  Re.sub "<(int|string|float):(\w+)>" _replace url = Ok pattern
  /\ (forall path args params v groups,
         path <> url ->
         path <> "/" ->
         Re.fullmatch pattern path = Ok (Some (v :: groups)) ->
         try_route path args url false params
         = Raise (KeyError (initial conv)))
  /\ (forall raw args v groups H pre post st,
         _parse_args raw = Ok args ->
         PyStr.rstrip "/" (before "?" raw) <> url ->
         Re.fullmatch pattern (PyStr.rstrip "/" (before "?" raw))
         = Ok (Some (v :: groups)) ->
         all_fall_through (PyStr.rstrip "/" (before "?" raw)) args pre ->
         _handle_request raw (pre ++ (url, H) :: post)%list st
         = (Raise (KeyError (initial conv)), with_args st args)).
Proof.
  intros Hp Hq Hend Hn Hne Hconv url pattern.
  assert (Htry : forall path args params v groups,
             path <> url ->
             path <> "/" ->
             Re.fullmatch pattern path = Ok (Some (v :: groups)) ->
             try_route path args url false params
             = Raise (KeyError (initial conv)))
    by (intros path args params v groups Hpath Hslash Hfull;
        now apply try_route_typed with (c := c) (v := v) (groups := groups)).
  conjuncts.
  - unfold static in Hp, Hq.
    apply andb_prop in Hp as [_ Hp]. apply negb_true_iff in Hp.
    apply andb_prop in Hq as [_ Hq]. apply negb_true_iff in Hq.
    now apply typed_sub.
  - exact Htry.
  - intros raw args v groups H pre post st Hargs Hpath Hfull Hpre.
    rewrite handle_request_eq, Hargs, for_routes_find.
    simpl Request_args.
    rewrite (find_route_hit url H post [] Hpre
               (Htry _ args [] v groups Hpath (rstrip_not_slash _) Hfull)).
    reflexivity.
Qed.

End TypedPlaceholder.

(** * Instances of the further properties *)

(** A view function that returns: the answer to [/about?x=1]. *)
Lemma matched_route_outcome_witness :
  _handle_request "/about?x=1" [("/about", about)] example_state
  = (Ok tt,
     after (with_args example_state [("x", "1")])
       [send_response 200;
        send_header "Content-type" "text/html";
        end_headers;
        called about [];
        wfile_write "about us"]).
Proof.
  assert (Hhit : try_route "/about" [("x", "1")] "/about" false []
                 = Ok (true, [])) by (vm_compute; reflexivity).
  exact (@matched_route_outcome "/about?x=1" [] [] "/about" about
           [("x", "1")] [] example_state eq_refl (Forall_nil _) Hhit).
Defined.

(** The route [/<page>] stored behind [/about] plays no part in the
    answer to [/about], which [/about] matches; the route [/x/y]
    stored behind [/<a>/<b>] plays no part in the answer to [/x/y],
    on which [/<a>/<b>] raises. *)
Lemma routes_behind_are_not_tried_witness :
  _handle_request "/about" [("/about", about); ("/<page>", greet)]
    example_state
  = _handle_request "/about" [("/about", about)] example_state
  /\ _handle_request "/x/y" [("/<a>/<b>", greet); ("/x/y", about)]
       example_state
     = _handle_request "/x/y" [("/<a>/<b>", greet)] example_state.
Proof.
  assert (Hhit : try_route (PyStr.rstrip "/" (before "?" "/about")) []
                   "/about" false []
                 = Ok (true, [])) by (vm_compute; reflexivity).
  assert (Hraise : try_route (PyStr.rstrip "/" (before "?" "/x/y")) []
                     "/<a>/<b>" false []
                   = Raise (re_error (RedefinitionOfGroupName "var")))
    by (vm_compute; reflexivity).
  split.
  - exact (@routes_behind_are_not_tried "/about" [] [("/<page>", greet)] []
             "/about" about [] example_state eq_refl (Forall_nil _)
             (or_introl (ex_intro _ [] Hhit))).
  - exact (@routes_behind_are_not_tried "/x/y" [] [("/x/y", about)] []
             "/<a>/<b>" greet [] example_state eq_refl (Forall_nil _)
             (or_intror (ex_intro _ _ Hraise))).
Defined.

(** A third pattern goes behind the two that are stored. *)
Lemma registration_appends_witness :
  get_routes (snd (get "/new/" failing two_routes))
  = [("/item/<slug>", greet); ("/about", about); ("/new", failing)].
Proof.
  assert (Hnew : ~ In (PyStr.rstrip "/" "/new/")
                      (dict_keys (get_routes two_routes)))
    by (vm_compute; intros [H|[H|[]]]; discriminate H).
  exact (proj1 (registration_appends "/new/" failing two_routes) Hnew).
Defined.

(** GET is registered before PUT is refused; POST is not reached. *)
Lemma route_list_not_atomic_witness :
  route "/both" (MList ["GET"; "PUT"; "POST"]) about Star_init
  = (Raise (ValueError "Invalid method: PUT"),
     {| get_routes := [("/both", about)]; post_routes := [] |}).
Proof.
  exact (@route_list_not_atomic "/both" "PUT" ["GET"] ["POST"] about
           Star_init eq_refl eq_refl).
Defined.

(** Both methods, in any case and order, and a trailing slash. *)
Lemma route_list_all_valid_witness :
  route "/both/" (MList ["post"; "Get"]) about Star_init
  = (Ok about,
     {| get_routes := [("/both", about)];
        post_routes := [("/both", about)] |}).
Proof.
  exact (@route_list_all_valid "/both/" ["post"; "Get"] about Star_init
           eq_refl).
Defined.

(** The pattern [/] serves the request [/] for GET only. *)
Lemma register_then_request_witness :
  do_GET (snd (get "/" about Star_init)) "/" example_state
  = _send_response about [] (with_args example_state [])
  /\ do_POST (snd (get "/" about Star_init)) "/" example_state
     = not_found (with_args example_state []).
Proof.
  exact (@register_then_request "" 1 1 about example_state eq_refl).
Defined.

(** The key [a] is given twice: the second value is the one kept. *)
Lemma parse_args_lookup_witness :
  dict_get "a" [("a", "3"); ("b", "2")] = Ok "3"
  /\ NoDup (dict_keys [("a", "3"); ("b", "2")]).
Proof.
  exact (@parse_args_lookup "/s?a=1&b=2&a=3" "a" [("a", "3"); ("b", "2")]
           eq_refl).
Defined.

(** What follows a second query mark is not read. *)
Lemma second_query_mark_cuts_witness :
  _parse_args "/s?a=1?b=2" = _parse_args "/s?a=1"
  /\ _handle_request "/s?a=1?b=2" [("/s", about)] example_state
     = _handle_request "/s?a=1" [("/s", about)] example_state.
Proof.
  exact (@second_query_mark_cuts "/s" "a=1" "b=2" [("/s", about)]
           example_state eq_refl eq_refl).
Defined.

(** A page without placeholder. *)
Lemma render_without_placeholder_witness :
  render (fun _ => Some "<p>static</p>") "page.html" [("title", "x")]
  = Ok "<p>static</p>".
Proof.
  exact (@render_without_placeholder (fun _ => Some "<p>static</p>")
           "page.html" "<p>static</p>" [("title", "x")] eq_refl eq_refl).
Defined.

(** The error template, with a message that holds a placeholder and
    markup: both reach the page as they are. *)
Lemma render_inserts_verbatim_witness :
  render example_fs "star/templates/error.html"
    [("title", "500 Internal Server Error");
     ("message", "{{ title }} <script>")]
  = Ok "<h1>500 Internal Server Error</h1><p>{{ title }} <script></p>".
Proof.
  exact (@render_inserts_verbatim example_fs "star/templates/error.html"
           "<h1>" "</h1><p>" "</p>" "500 Internal Server Error"
           "{{ title }} <script>" eq_refl eq_refl eq_refl eq_refl eq_refl).
Defined.

(** The text [42]. *)
Lemma int_converter_contract_witness :
  Re.fullmatch (regex IntConverter) "42" = Ok (Some [])
  /\ exists n, (0 <= n)%Z /\ convert IntConverter "42" = Ok (VInt n).
Proof.
  destruct (int_converter_contract "42") as [Hmatch Hconvert].
  split; [exact Hmatch|].
  apply Hconvert; [reflexivity|]. cbn [String.length]. lia.
Defined.

(** The text [3.14] is accepted and converted; the text [42] is not
    accepted. *)
Lemma float_converter_contract_witness :
  convert FloatConverter "3.14" = Ok (VFloat "3.14")
  /\ Re.fullmatch (regex FloatConverter) "42" = Ok None.
Proof.
  assert (Hmatch : Re.fullmatch (regex FloatConverter) "3.14" = Ok (Some []))
    by (vm_compute; reflexivity).
  split.
  - exact (proj2 (proj1 (float_converter_contract "3.14" []) Hmatch)).
  - exact (proj2 (float_converter_contract "42" []) eq_refl).
Defined.

(** The parameter of [/item/<slug>] on [/item/red-shoes]. *)
Lemma parameters_are_untyped_captures_witness :
  [VStr "red-shoes"] = []
  \/ (true = true
      /\ untyped_captures "/item/red-shoes" "/item/<slug>"
           [VStr "red-shoes"]).
Proof.
  exact (proj1 (parameters_are_untyped_captures "/item/red-shoes"
                  [("/item/<slug>", greet)] example_state)
           "/item/red-shoes" [] "/item/<slug>" true [VStr "red-shoes"]
           (item_slug_matches [] [])).
Defined.

(** Two patterns without placeholder: [/about/?x=1] is answered by
    the view function stored under [/about]. *)
Lemma static_table_is_lookup_witness :
  _handle_request "/about/?x=1" [("/about", about); ("", failing)]
    example_state
  = _send_response about [] (with_args example_state [("x", "1")]).
Proof.
  assert (Htable : static_table [("/about", about); ("", failing)])
    by (repeat constructor).
  exact (@static_table_is_lookup "/about/?x=1"
           [("/about", about); ("", failing)] [("x", "1")] example_state
           Htable eq_refl).
Defined.

(** The pattern [/user/<id>/profile]: it accepts [/user/ann/profile]
    with the parameter [ann], lets [/user/x] pass, and answers the
    request [/user/ann/profile/] behind [/about]. *)
Lemma single_placeholder_route_witness :
  try_route "/user/ann/profile" [] "/user/<id>/profile" false []
  = Ok (true, [VStr "ann"])
  /\ try_route "/user/x" [] "/user/<id>/profile" false [] = Ok (false, [])
  /\ _handle_request "/user/ann/profile/"
       [("/about", about); ("/user/<id>/profile", greet)] example_state
     = _send_response greet [VStr "ann"] (with_args example_state []).
Proof.
  assert (Hname : "id" <> EmptyString) by discriminate.
  destruct (@single_placeholder_route "/user/" "id" "/profile"
              eq_refl eq_refl eq_refl eq_refl Hname)
    as (Hhit & Hpass & Hrequest).
  assert (Hc : "ann" <> EmptyString) by discriminate.
  assert (Hother : "ann" <> "<" ++ "id" ++ ">") by discriminate.
  split; [|split].
  - exact (Hhit "ann" [] [] Hc eq_refl Hother).
  - apply Hpass; [discriminate|].
    intros c E. cbn [append] in E. injection E as E.
    destruct c as [|a [|b c]]; discriminate E.
  - refine (Hrequest "/user/ann/profile/" [] "ann" greet
              [("/about", about)] [] example_state eq_refl eq_refl
              Hc eq_refl Hother _).
    constructor; [vm_compute; reflexivity|constructor].
Defined.

(** The route [/user/<int:id>]: the request [/user/42] raises
    [KeyError] on [i]. *)
Lemma typed_placeholder_raises_witness :
  try_route "/user/42" [] "/user/<int:id>" false [] = Raise (KeyError "i")
  /\ _handle_request "/user/42/?x=1"
       [("/about", about); ("/user/<int:id>", greet)] example_state
     = (Raise (KeyError "i"), with_args example_state [("x", "1")]).
Proof.
  assert (Hname : "id" <> EmptyString) by discriminate.
  destruct (@typed_placeholder_raises "/user/" "int" "id" "" IntConverter
              eq_refl eq_refl eq_refl eq_refl Hname eq_refl)
    as (_ & Htry & Hrequest).
  assert (Hfull : Re.fullmatch "/user/(?P<id>\d+)" "/user/42"
                  = Ok (Some ["42"])) by (vm_compute; reflexivity).
  split.
  - refine (Htry "/user/42" [] [] "42" [] _ _ Hfull); discriminate.
  - refine (Hrequest "/user/42/?x=1" [("x", "1")] "42" [] greet
              [("/about", about)] [] example_state eq_refl _ Hfull _).
    + discriminate.
    + constructor; [vm_compute; reflexivity|constructor].
Defined.
